(** * binance_ohlcv_exporter: a shallow embedding and its properties

    The development follows [binance_ohlcv_exporter.py] function by
    function.  Python [int] is [Z]; Python [float] is the kernel's binary64
    [float] (round to nearest, ties to even, as CPython on IEEE hardware);
    [str] is [string]; a [dict] is an insertion-ordered association list;
    raised exceptions are values of [exn]; the HTTP transport, the clock and
    [time.sleep] are explicit. *)

From Stdlib Require Import Reals Lra.
From Stdlib Require Import ZArith List String Ascii Bool Lia.
From Stdlib Require Import Floats.
From Stdlib Require Import Sorted Permutation Orders Mergesort.
Import ListNotations.

Local Open Scope Z_scope.

(** ** Binary64 values of Python numbers *)

Module PyFloat.

(** [round_ratio neg n d] is the binary64 nearest to [(-1)^neg * n / d]
    (ties to even; infinite when the quotient is beyond the largest finite
    value).  The quotient is computed on at least 64 bits, the remainder is
    kept as a sticky flag, and [binary_round_aux] rounds once. *)
Definition round_ratio (neg : bool) (n : Z) (d : positive) : float :=
  match n with
  | Zpos _ =>
      let sh := Z.max 0 (64 + Z.log2 (Zpos d) - Z.log2 n) in
      let (q, r) := Z.div_eucl (Z.shiftl n sh) (Zpos d) in
      SF2Prim (binary_round_aux prec emax neg q (- sh)
                 (if r =? 0 then loc_Exact else loc_Inexact Lt))
  | _ => if neg then neg_zero else zero
  end.

(** [float(n)] for an [int] that converts without overflow. *)
Definition of_int (n : Z) : float := round_ratio (n <? 0) (Z.abs n) 1.

(** [a / b] on two [int]s: the correctly rounded quotient;
    [ZeroDivisionError] for [b = 0] is [None].  (Quotients beyond the float
    range raise [OverflowError] in Python; none arises below.) *)
Definition int_truediv (a b : Z) : option float :=
  match b with
  | Z0 => None
  | Zpos d => Some (round_ratio (a <? 0) (Z.abs a) d)
  | Zneg d => Some (round_ratio (0 <? a) (Z.abs a) d)
  end.

(** The value [m * 10^e] of a decimal literal, rounded once. *)
Definition of_decimal (neg : bool) (m e : Z) : float :=
  if 0 <=? e then round_ratio neg (m * 10 ^ e) 1
  else round_ratio neg m (Z.to_pos (10 ^ (- e))).

(** [bool(x)] of a float: false exactly for the two zeros. *)
Definition truthy (x : float) : bool := negb (PrimFloat.eqb x zero).

(** [int(x)]: truncation toward zero; [None] for nan and the infinities
    (Python raises there). *)
Definition to_int (x : float) : option Z :=
  match Prim2SF x with
  | S754_zero _ => Some 0
  | S754_finite s m e =>
      let a := if 0 <=? e then Z.shiftl (Zpos m) e
               else Z.shiftr (Zpos m) (- e) in
      Some (if s then - a else a)
  | _ => None
  end.

(** *** [float(s)] on text

    The grammar of [float()] on ASCII text: surrounding white space, an
    optional sign, then [inf], [infinity] or [nan] in any case, or a decimal
    number with optional fraction and exponent whose digit runs may hold
    single underscores between digits.  [None] is Python's [ValueError].
    Text with non-ASCII characters is outside the model. *)

Definition is_digit (c : ascii) : bool :=
  let n := nat_of_ascii c in (48 <=? n)%nat && (n <=? 57)%nat.

Definition digit_val (c : ascii) : Z := Z.of_nat (nat_of_ascii c) - 48.

Definition is_space (c : ascii) : bool :=
  let n := nat_of_ascii c in
  ((9 <=? n)%nat && (n <=? 13)%nat) || (n =? 32)%nat.

Definition lower (c : ascii) : ascii :=
  let n := nat_of_ascii c in
  if (65 <=? n)%nat && (n <=? 90)%nat then ascii_of_nat (n + 32) else c.

Fixpoint lstrip (s : list ascii) : list ascii :=
  match s with
  | c :: s' => if is_space c then lstrip s' else s
  | [] => []
  end.

Definition strip (s : list ascii) : list ascii :=
  rev (lstrip (rev (lstrip s))).

(** The rest of a digit run: [acc] is the value so far and [n] the number
    of digits read. *)
Fixpoint digits_tail (acc n : Z) (s : list ascii) : Z * Z * list ascii :=
  match s with
  | c :: s' =>
      if is_digit c then digits_tail (10 * acc + digit_val c) (n + 1) s'
      else if Ascii.eqb c "_" then
        match s' with
        | d :: s'' =>
            if is_digit d then digits_tail (10 * acc + digit_val d) (n + 1) s''
            else (acc, n, s)
        | [] => (acc, n, s)
        end
      else (acc, n, s)
  | [] => (acc, n, [])
  end.

(** A digit run, if one starts here: value, number of digits, rest. *)
Definition digitpart (s : list ascii) : option (Z * Z * list ascii) :=
  match s with
  | c :: s' => if is_digit c then Some (digits_tail (digit_val c) 1 s') else None
  | [] => None
  end.

Definition sign_of (s : list ascii) : bool * list ascii :=
  match s with
  | c :: s' =>
      if Ascii.eqb c "-" then (true, s')
      else if Ascii.eqb c "+" then (false, s')
      else (false, s)
  | [] => (false, [])
  end.

(** The optional exponent; [None] when text remains that is no exponent. *)
Definition exponent (s : list ascii) : option Z :=
  match s with
  | [] => Some 0
  | c :: s' =>
      if Ascii.eqb (lower c) "e" then
        let (eneg, s1) := sign_of s' in
        match digitpart s1 with
        | Some (e, _, []) => Some (if eneg then - e else e)
        | _ => None
        end
      else None
  end.

Definition decimal_number (neg : bool) (s : list ascii) : option float :=
  let '(ip, ni, s1) :=
    match digitpart s with Some r => r | None => (0, 0, s) end in
  let '(fp, nf, s2) :=
    match s1 with
    | c :: s1' =>
        if Ascii.eqb c "." then
          match digitpart s1' with Some r => r | None => (0, 0, s1') end
        else (0, 0, s1)
    | [] => (0, 0, [])
    end in
  if ni + nf =? 0 then None
  else
    match exponent s2 with
    | Some e => Some (of_decimal neg (ip * 10 ^ nf + fp) (e - nf))
    | None => None
    end.

Definition py_float (s : string) : option float :=
  let (neg, body) := sign_of (strip (list_ascii_of_string s)) in
  let word := string_of_list_ascii (map lower body) in
  if (word =? "inf")%string || (word =? "infinity")%string
  then Some (if neg then neg_infinity else infinity)
  else if (word =? "nan")%string then Some nan
  else decimal_number neg body.

(** *** Fixed-point rendering: the format [.10f]

    The exact binary value is scaled by [10^10] and rounded to an integer,
    ties to even, as CPython's correctly rounded formatting does. *)

Definition div_half_even (n d : Z) : Z :=
  let q := n / d in
  let r := n mod d in
  match 2 * r ?= d with
  | Lt => q
  | Gt => q + 1
  | Eq => if Z.even q then q else q + 1
  end.

Definition digit_char (n : Z) : ascii := ascii_of_nat (Z.to_nat n + 48).

(** The last [w] decimal digits of [n], most significant first. *)
Fixpoint digits_fixed (w : nat) (n : Z) (acc : list ascii) : list ascii :=
  match w with
  | O => acc
  | S w' => digits_fixed w' (n / 10) (digit_char (n mod 10) :: acc)
  end.

(** All decimal digits of [n >= 0] (at least one); [fuel] bounds the
    number of digits. *)
Fixpoint digits_nat (fuel : nat) (n : Z) (acc : list ascii) : list ascii :=
  match fuel with
  | O => acc
  | S fuel' =>
      if n <? 10 then digit_char n :: acc
      else digits_nat fuel' (n / 10) (digit_char (n mod 10) :: acc)
  end.

Definition str_of_nonneg (n : Z) : list ascii :=
  digits_nat (S (Z.to_nat (Z.log2 n))) n [].

Definition format_10f (x : float) : string :=
  match Prim2SF x with
  | S754_nan => "nan"
  | S754_infinity s => if s then "-inf" else "inf"
  | S754_zero s => if s then "-0.0000000000" else "0.0000000000"
  | S754_finite s m e =>
      let scaled :=
        if 0 <=? e then Z.shiftl (Zpos m) e * 10 ^ 10
        else div_half_even (Zpos m * 10 ^ 10) (2 ^ (- e)) in
      string_of_list_ascii
        ((if s then ["-"%char] else []) ++
         str_of_nonneg (scaled / 10 ^ 10) ++
         "."%char :: digits_fixed 10 (scaled mod 10 ^ 10) [])
  end.

End PyFloat.

(** ** Dates and times ([datetime], always in UTC) *)

Module DateTime.

Import PyFloat.

(** An aware UTC [datetime] is its number of microseconds since the epoch;
    the type holds the years 1 to 9999. *)
Definition datetime := Z.

Definition us_per_second : Z := 1000000.
Definition us_per_day : Z := 86400 * us_per_second.

(** Days since 1970-01-01 of a proleptic Gregorian date, and back. *)
Definition days_from_civil (y m d : Z) : Z :=
  let y' := if m <=? 2 then y - 1 else y in
  let era := y' / 400 in
  let yoe := y' - era * 400 in
  let mp := if 2 <? m then m - 3 else m + 9 in
  let doy := (153 * mp + 2) / 5 + d - 1 in
  let doe := yoe * 365 + yoe / 4 - yoe / 100 + doy in
  era * 146097 + doe - 719468.

Definition civil_from_days (z : Z) : Z * Z * Z :=
  let z' := z + 719468 in
  let era := z' / 146097 in
  let doe := z' - era * 146097 in
  let yoe := (doe - doe / 1460 + doe / 36524 - doe / 146096) / 365 in
  let doy := doe - (365 * yoe + yoe / 4 - yoe / 100) in
  let mp := (5 * doy + 2) / 153 in
  let d := doy - (153 * mp + 2) / 5 + 1 in
  let m := if mp <? 10 then mp + 3 else mp - 9 in
  (if m <=? 2 then yoe + era * 400 + 1 else yoe + era * 400, m, d).

Definition min_datetime : datetime := days_from_civil 1 1 1 * us_per_day.
Definition max_datetime : datetime :=
  days_from_civil 10000 1 1 * us_per_day - 1.

Definition in_range (t : Z) : bool :=
  (min_datetime <=? t) && (t <=? max_datetime).

Definition is_leap (y : Z) : bool :=
  (y mod 4 =? 0) && (negb (y mod 100 =? 0) || (y mod 400 =? 0)).

Definition days_in_month (y m : Z) : Z :=
  if m =? 2 then (if is_leap y then 29 else 28)
  else if (m =? 4) || (m =? 6) || (m =? 9) || (m =? 11) then 30 else 31.

(** The constructor [datetime(y, m, d, H, M, S, tzinfo=utc)]; [None] is its
    [ValueError]. *)
Definition make_datetime (y m d hh mi ss : Z) : option datetime :=
  if (1 <=? y) && (y <=? 9999) && (1 <=? m) && (m <=? 12) &&
     (1 <=? d) && (d <=? days_in_month y m) &&
     (0 <=? hh) && (hh <=? 23) && (0 <=? mi) && (mi <=? 59) &&
     (0 <=? ss) && (ss <=? 59)
  then Some ((days_from_civil y m d * 86400 + hh * 3600 + mi * 60 + ss)
             * us_per_second)
  else None.

(** The exact value of a float rounded to an integer, ties to even. *)
Definition round_half_even (x : float) : option Z :=
  match Prim2SF x with
  | S754_zero _ => Some 0
  | S754_finite s m e =>
      let a := if 0 <=? e then Z.shiftl (Zpos m) e
               else div_half_even (Zpos m) (2 ^ (- e)) in
      Some (if s then - a else a)
  | _ => None
  end.

(** [datetime.fromtimestamp(t, tz=utc)]: the integral part of [t] is the
    second, the fraction times [1e6] rounded half-even the microsecond, with
    a carry or a borrow when that leaves [0, 1e6); [None] when the result is
    outside the type (the call raises). *)
Definition fromtimestamp (t : float) : option datetime :=
  match to_int t with
  | None => None
  | Some intpart =>
      let floatpart := (t - of_int intpart)%float in
      match round_half_even (floatpart * 1000000)%float with
      | None => None
      | Some us =>
          let '(sec, us') :=
            if us_per_second <=? us then (intpart + 1, us - us_per_second)
            else if us <? 0 then (intpart - 1, us + us_per_second)
            else (intpart, us) in
          let r := sec * us_per_second + us' in
          if in_range r then Some r else None
      end
  end.

Definition two_digits (n : Z) : list ascii := digits_fixed 2 n [].

(** [strftime("%Y-%m-%d %H:%M:%S")].  Years below 1000 are padded or not
    depending on the platform's C library; the model gives no text there. *)
Definition strftime_iso (t : datetime) : option string :=
  let secs := t / us_per_second in
  let '(y, m, d) := civil_from_days (secs / 86400) in
  let sod := secs mod 86400 in
  if y <? 1000 then None
  else Some (string_of_list_ascii
    (digits_fixed 4 y [] ++ "-"%char :: two_digits m ++ "-"%char ::
     two_digits d ++ " "%char :: two_digits (sod / 3600) ++ ":"%char ::
     two_digits (sod mod 3600 / 60) ++ ":"%char :: two_digits (sod mod 60))).

(** [timestamp()]: the microseconds since the epoch divided by [10**6]. *)
Definition timestamp (t : datetime) : option float :=
  int_truediv t us_per_second.

(** [timedelta(days=n)], in microseconds; [None] is its [OverflowError]. *)
Definition timedelta_days (n : Z) : option Z :=
  if Z.abs n <=? 999999999 then Some (n * us_per_day) else None.

(** [t - delta]; [None] when the result leaves the type. *)
Definition datetime_sub (t : datetime) (delta : Z) : option datetime :=
  if in_range (t - delta) then Some (t - delta) else None.

(** *** [strptime]

    [strptime] turns a format into a regular expression and takes its first
    match in backtracking order; text left after the match is an error.  A
    matcher below returns its matches in that order, each with the text that
    follows it. *)

Definition matcher (A : Type) := list ascii -> list (A * list ascii).

Definition m_ret {A} (a : A) : matcher A := fun s => [(a, s)].

Definition m_bind {A B} (p : matcher A) (f : A -> matcher B) : matcher B :=
  fun s => flat_map (fun '(a, s') => f a s') (p s).

Definition m_alt {A} (p q : matcher A) : matcher A := fun s => p s ++ q s.

(** One character whose code lies in [lo, hi], as its code. *)
Definition m_range (lo hi : ascii) : matcher Z :=
  fun s =>
    match s with
    | c :: s' =>
        if (nat_of_ascii lo <=? nat_of_ascii c)%nat &&
           (nat_of_ascii c <=? nat_of_ascii hi)%nat
        then [(Z.of_nat (nat_of_ascii c), s')] else []
    | [] => []
    end.

Definition m_char (c : ascii) : matcher Z := m_range c c.

(** A digit in [lo, hi], as its value. *)
Definition m_dig (lo hi : ascii) : matcher Z :=
  m_bind (m_range lo hi) (fun c => m_ret (c - 48)).

Definition m_dig2 (lo1 hi1 lo2 hi2 : ascii) : matcher Z :=
  m_bind (m_dig lo1 hi1) (fun a =>
  m_bind (m_dig lo2 hi2) (fun b => m_ret (10 * a + b))).

(** [%Y]: four digits. *)
Definition re_Y : matcher Z :=
  m_bind (m_dig2 "0" "9" "0" "9") (fun a =>
  m_bind (m_dig2 "0" "9" "0" "9") (fun b => m_ret (100 * a + b))).

(** [%m]: [1[0-2]|0[1-9]|[1-9]]. *)
Definition re_m : matcher Z :=
  m_alt (m_dig2 "1" "1" "0" "2")
    (m_alt (m_dig2 "0" "0" "1" "9") (m_dig "1" "9")).

(** [%d]: [3[0-1]|[1-2]\d|0[1-9]|[1-9]| [1-9]]. *)
Definition re_d : matcher Z :=
  m_alt (m_dig2 "3" "3" "0" "1")
    (m_alt (m_dig2 "1" "2" "0" "9")
      (m_alt (m_dig2 "0" "0" "1" "9")
        (m_alt (m_dig "1" "9")
          (m_bind (m_char " ") (fun _ => m_dig "1" "9"))))).

(** [%H]: [2[0-3]|[0-1]\d|\d]. *)
Definition re_H : matcher Z :=
  m_alt (m_dig2 "2" "2" "0" "3")
    (m_alt (m_dig2 "0" "1" "0" "9") (m_dig "0" "9")).

(** [%M]: [[0-5]\d|\d]. *)
Definition re_M : matcher Z :=
  m_alt (m_dig2 "0" "5" "0" "9") (m_dig "0" "9").

(** [%S]: [6[0-1]|[0-5]\d|\d]. *)
Definition re_S : matcher Z :=
  m_alt (m_dig2 "6" "6" "0" "1")
    (m_alt (m_dig2 "0" "5" "0" "9") (m_dig "0" "9")).

Definition re_date : matcher (Z * Z * Z) :=
  m_bind re_Y (fun y => m_bind (m_char "-") (fun _ =>
  m_bind re_m (fun m => m_bind (m_char "-") (fun _ =>
  m_bind re_d (fun d => m_ret (y, m, d)))))).

Definition re_time : matcher (Z * Z * Z) :=
  m_bind re_H (fun hh => m_bind (m_char ":") (fun _ =>
  m_bind re_M (fun mi => m_bind (m_char ":") (fun _ =>
  m_bind re_S (fun ss => m_ret (hh, mi, ss)))))).

(** The first match, provided it ends the text. *)
Definition first_full_match {A} (p : matcher A) (s : string) : option A :=
  match p (list_ascii_of_string s) with
  | (a, []) :: _ => Some a
  | _ => None
  end.

(** [strptime(s, "%Y-%m-%d")]. *)
Definition strptime_date (s : string) : option datetime :=
  match first_full_match re_date s with
  | Some (y, m, d) => make_datetime y m d 0 0 0
  | None => None
  end.

(** [strptime(s, "%Y-%m-%dT%H:%M:%S")]; the literal [T] of the format
    matches in either case. *)
Definition strptime_datetime (s : string) : option datetime :=
  match first_full_match
          (m_bind re_date (fun ymd =>
           m_bind (m_alt (m_char "T") (m_char "t")) (fun _ =>
           m_bind re_time (fun hms => m_ret (ymd, hms))))) s with
  | Some ((y, m, d), (hh, mi, ss)) => make_datetime y m d hh mi ss
  | None => None
  end.

End DateTime.

(** ** Insertion-ordered dictionaries

    A Python [dict] keeps its keys in the order of their first insertion;
    assigning to a key that is present replaces the value in place. *)

Section Dict.
Context {K V : Type}.
Variable key_eqb : K -> K -> bool.

Fixpoint dict_get (d : list (K * V)) (k : K) : option V :=
  match d with
  | [] => None
  | (k', v) :: d' => if key_eqb k' k then Some v else dict_get d' k
  end.

(** [d[k] = v]. *)
Fixpoint dict_set (d : list (K * V)) (k : K) (v : V) : list (K * V) :=
  match d with
  | [] => [(k, v)]
  | (k', v') :: d' =>
      if key_eqb k' k then (k', v) :: d' else (k', v') :: dict_set d' k v
  end.

(** [d.get(k, default)]. *)
Definition dict_get_default (d : list (K * V)) (k : K) (default : V) : V :=
  match dict_get d k with Some v => v | None => default end.

Definition dict_keys (d : list (K * V)) : list K := map fst d.
Definition dict_values (d : list (K * V)) : list V := map snd d.
End Dict.

(** [sorted] on a list of [int]s. *)
Module ZOrder <: Orders.TotalLeBool.
Definition t := Z.
Definition leb := Z.leb.
Definition leb_total (x y : Z) : leb x y = true \/ leb y x = true :=
  match Zle_bool_total x y with
  | left H => or_introl H
  | right H => or_intror H
  end.
End ZOrder.

Module ZSort := Sort ZOrder.

Definition sorted (l : list Z) : list Z := ZSort.sort l.

(** [range(lo, hi)]. *)
Definition py_range (lo hi : Z) : list Z :=
  map (fun i => lo + Z.of_nat i) (seq 0 (Z.to_nat (hi - lo))).

(** ** The exporter *)

Module Exporter.

Import PyFloat DateTime.

Definition BASE_URL : string := "https://data-api.binance.vision".
Definition KLINES_PATH : string := "/api/v3/klines".

Record Kline := {
  open_time_ms : Z;
  open : float;
  high : float;
  low : float;
  close : float;
  volume : float;
  close_time_ms : Z;
  quote_volume : float;
  trades : Z;
  taker_buy_base_volume : float;
  taker_buy_quote_volume : float
}.

Definition obind {A B} (x : option A) (f : A -> option B) : option B :=
  match x with Some a => f a | None => None end.

Notation "x <- e ;; k" := (obind e (fun x => k))
  (at level 61, e at next level, right associativity).

(** [ms_to_utc_iso]; [None] when [fromtimestamp] raises or the year is
    below 1000. *)
Definition ms_to_utc_iso (ms : Z) : option string :=
  t <- int_truediv ms 1000 ;;
  d <- fromtimestamp t ;;
  strftime_iso d.

(** ["T" in s]. *)
Fixpoint contains_char (c : ascii) (s : string) : bool :=
  match s with
  | EmptyString => false
  | String c' s' => Ascii.eqb c' c || contains_char c s'
  end.

(** [parse_dt_utc]; [None] is the [ValueError] of [strptime]. *)
Definition parse_dt_utc (s : string) : option datetime :=
  if contains_char "T" s then strptime_datetime s else strptime_date s.

(** The truth value of an [Optional[str]]: [None] and the empty string are
    false. *)
Definition given (s : option string) : option string :=
  match s with
  | Some EmptyString => None
  | _ => s
  end.

(** [int(d.timestamp() * 1000)]. *)
Definition to_ms (d : datetime) : option Z :=
  t <- timestamp d ;;
  to_int (t * 1000)%float.

(** [get_range]; [now] is the reading of the clock by
    [datetime.now(tz=utc)], and [None] any exception. *)
Definition get_range (now : datetime) (days : Z) (start end_ : option string)
  : option (Z * Z) :=
  end_dt <- match given end_ with
            | Some s => parse_dt_utc s
            | None => Some now
            end ;;
  start_dt <- match given start with
              | Some s => parse_dt_utc s
              | None => delta <- timedelta_days days ;; datetime_sub end_dt delta
              end ;;
  start_ms <- to_ms start_dt ;;
  end_ms <- to_ms end_dt ;;
  Some (start_ms, end_ms).

(** *** The HTTP transport *)

(** The exceptions that reach the code: the two kinds the retry loop
    catches as network errors, [HTTPError] with the status of its response
    (if it has one), a body that is not JSON, another exception of the
    transport, and the [ValueError] and [KeyError] of the exporter's own
    conversions and look-ups. *)
Inductive exn :=
| ConnectionError
| Timeout
| HTTPError (status_code : option Z)
| JSONDecodeError
| OtherRequestException
| ValueError
| KeyError.

Inductive res (A : Type) :=
| Ok (a : A)
| Raise (e : exn).
Arguments Ok {A} a.
Arguments Raise {A} e.

(** One row of the endpoint's answer, by position: open time, open, high,
    low, close, volume, close time, quote volume, number of trades, taker
    buy base volume, taker buy quote volume (a twelfth field is ignored).
    Times and the count are JSON numbers, the others decimal text.  A body
    of another shape (a row that is too short, a field of another type), on
    which the conversions of [fetch_klines] raise [IndexError], [TypeError]
    or the [ValueError] of [int], is outside the model. *)
Record Row := {
  row_0 : Z;
  row_1 : string;
  row_2 : string;
  row_3 : string;
  row_4 : string;
  row_5 : string;
  row_6 : Z;
  row_7 : string;
  row_8 : Z;
  row_9 : string;
  row_10 : string
}.

(** The [params] dictionary of a request. *)
Record Params := {
  p_symbol : string;
  p_interval : string;
  p_startTime : Z;
  p_endTime : Z;
  p_limit : Z
}.

(** What [requests.get] does on one call: it returns a response (status
    code, and the rows of its JSON body if the body is JSON) or raises. *)
Inductive get_outcome :=
| Responds (status_code : Z) (json : option (list Row))
| Throws (e : exn).

(** The transport answers the [n]-th call of [requests.get(url, params,
    timeout)]. *)
Definition transport := nat -> string -> Params -> Z -> get_outcome.

(** An argument of [time.sleep]. *)
Inductive seconds :=
| IntSeconds (n : Z)
| FloatSeconds (x : float).

(** The observable effects: the number of calls of [requests.get] made and
    the arguments of [time.sleep], latest first. *)
Record world := {
  calls : nat;
  sleeps : list seconds
}.

Definition world0 : world := {| calls := 0; sleeps := [] |}.

Definition called (w : world) : world :=
  {| calls := S (calls w); sleeps := sleeps w |}.

Definition sleep (s : seconds) (w : world) : world :=
  {| calls := calls w; sleeps := s :: sleeps w |}.

(** The body of the [try]: [requests.get], [raise_for_status] (an
    [HTTPError] for a status from 400 to 599), [r.json()]. *)
Definition try_body (o : get_outcome) : res (list Row) :=
  match o with
  | Throws e => Raise e
  | Responds st body =>
      if (400 <=? st) && (st <? 600) then Raise (HTTPError (Some st))
      else match body with
           | Some data => Ok data
           | None => Raise JSONDecodeError
           end
  end.

(** [exc.response is not None and exc.response.status_code == 429]. *)
Definition is_429 (st : option Z) : bool :=
  match st with Some c => c =? 429 | None => false end.

Section Retry.
Variable tr : transport.
Variables (url : string) (params : Params) (timeout : Z) (retries : Z).

(** The [for attempt in ...] loop over the attempts that remain. *)
Fixpoint retry_loop (attempts : list Z) (w : world)
  : res (list Row) * world :=
  match attempts with
  | [] => (Ok [], w)
  | attempt :: rest =>
      let w1 := called w in
      match try_body (tr (calls w) url params timeout) with
      | Ok data => (Ok data, w1)
      | Raise ConnectionError =>
          if attempt =? retries then (Raise ConnectionError, w1)
          else retry_loop rest (sleep (IntSeconds (2 ^ attempt)) w1)
      | Raise Timeout =>
          if attempt =? retries then (Raise Timeout, w1)
          else retry_loop rest (sleep (IntSeconds (2 ^ attempt)) w1)
      | Raise (HTTPError st) =>
          if is_429 st
          then retry_loop rest (sleep (IntSeconds (2 ^ attempt)) w1)
          else (Raise (HTTPError st), w1)
      | Raise e => (Raise e, w1)
      end
  end.

Definition _request_with_retry (w : world) : res (list Row) * world :=
  retry_loop (py_range 1 (retries + 1)) w.
End Retry.

(** *** [fetch_klines] *)

(** The page size, [limit = 1000]. *)
Definition limit : Z := 1000.

(** The pause between two pages, [0.15] as binary64. *)
Definition page_pause : float := 0x1.3333333333333p-3%float.

(** [Kline(open_time_ms=int(row[0]), open=float(row[1]), ...)]; a text that
    [float] rejects raises [ValueError]. *)
Definition parse_row (row : Row) : res Kline :=
  match py_float (row_1 row), py_float (row_2 row), py_float (row_3 row),
        py_float (row_4 row), py_float (row_5 row), py_float (row_7 row),
        py_float (row_9 row), py_float (row_10 row) with
  | Some o, Some h, Some l, Some c, Some v, Some q, Some tb, Some tq =>
      Ok {| open_time_ms := row_0 row;
            open := o; high := h; low := l; close := c; volume := v;
            close_time_ms := row_6 row;
            quote_volume := q;
            trades := row_8 row;
            taker_buy_base_volume := tb;
            taker_buy_quote_volume := tq |}
  | _, _, _, _, _, _, _, _ => Raise ValueError
  end.

(** The [for row in data] loop, appending to [out]. *)
Fixpoint parse_rows (data : list Row) (out : list Kline) : res (list Kline) :=
  match data with
  | [] => Ok out
  | row :: data' =>
      match parse_row row with
      | Ok k => parse_rows data' (out ++ [k])
      | Raise e => Raise e
      end
  end.

(** [int(data[-1][0])] of a page [row :: data']. *)
Definition last_open_of (row : Row) (data' : list Row) : Z :=
  row_0 (last data' row).

Section Fetch.
Variable tr : transport.
Variables (symbol interval : string) (start_ms end_ms timeout : Z).

Definition page_params (next_start : Z) : Params :=
  {| p_symbol := symbol; p_interval := interval;
     p_startTime := next_start; p_endTime := end_ms; p_limit := limit |}.

(** The [while True] loop; [fuel] bounds the number of pages requested
    and [None] means the bound was reached with the loop still running. *)
Fixpoint paginate (fuel : nat) (next_start : Z) (out : list Kline)
  (w : world) : option (res (list Kline) * world) :=
  match fuel with
  | O => None
  | S fuel' =>
      match _request_with_retry tr (BASE_URL ++ KLINES_PATH)%string
              (page_params next_start) timeout 3 w with
      | (Raise e, w1) => Some (Raise e, w1)
      | (Ok [], w1) => Some (Ok out, w1)
      | (Ok (row :: data'), w1) =>
          match parse_rows (row :: data') out with
          | Raise e => Some (Raise e, w1)
          | Ok out' =>
              let last_open := last_open_of row data' in
              if (end_ms <=? last_open) ||
                 (Z.of_nat (List.length (row :: data')) <? limit)
              then Some (Ok out', w1)
              else paginate fuel' (last_open + 1) out'
                     (sleep (FloatSeconds page_pause) w1)
          end
      end
  end.

(** [for k in out: dedup[k.open_time_ms] = k]. *)
Definition dedup_of (out : list Kline) : list (Z * Kline) :=
  fold_left (fun d k => dict_set Z.eqb d (open_time_ms k) k) out [].

(** [[dedup[t] for t in ts]]; a missing key raises [KeyError]. *)
Fixpoint lookup_all (dedup : list (Z * Kline)) (ts : list Z)
  : res (list Kline) :=
  match ts with
  | [] => Ok []
  | t :: ts' =>
      match dict_get Z.eqb dedup t with
      | None => Raise KeyError
      | Some k =>
          match lookup_all dedup ts' with
          | Ok ks => Ok (k :: ks)
          | Raise e => Raise e
          end
      end
  end.

(** The lines after the loop: deduplicate, order, cut at [end_ms]. *)
Definition finish (out : list Kline) : res (list Kline) :=
  let dedup := dedup_of out in
  match lookup_all dedup (sorted (dict_keys dedup)) with
  | Ok out_sorted =>
      Ok (filter (fun k => open_time_ms k <=? end_ms) out_sorted)
  | Raise e => Raise e
  end.

Definition fetch_klines (fuel : nat) (w : world)
  : option (res (list Kline) * world) :=
  match paginate fuel start_ms [] w with
  | None => None
  | Some (Raise e, w') => Some (Raise e, w')
  | Some (Ok out, w') => Some (finish out, w')
  end.
End Fetch.

(** *** [write_klines_csv]: the cells of one record's line *)

Definition str_of_int (n : Z) : string :=
  string_of_list_ascii
    ((if n <? 0 then ["-"%char] else []) ++ str_of_nonneg (Z.abs n)).

Definition csv_cells (k : Kline) : option (list string) :=
  ot <- ms_to_utc_iso (open_time_ms k) ;;
  ct <- ms_to_utc_iso (close_time_ms k) ;;
  Some [ ot; format_10f (open k); format_10f (high k); format_10f (low k);
         format_10f (close k); format_10f (volume k); ct;
         format_10f (quote_volume k); str_of_int (trades k);
         format_10f (taker_buy_base_volume k);
         format_10f (taker_buy_quote_volume k) ].

(** *** [calc_metrics] *)

(** The built-in [sum] on the values of a dictionary of floats, in two
    versions: CPython up to 3.11 adds from left to right, starting from the
    integer 0; from 3.12 on the floats after the first are added with
    Neumaier's compensation, which is added in at the end when it is
    non-zero and finite. *)
Definition sum_left (xs : list float) : float :=
  fold_left PrimFloat.add xs zero.

Fixpoint neumaier (xs : list float) (f c : float) : float :=
  match xs with
  | [] => if truthy c && is_finite c then (f + c)%float else f
  | x :: xs' =>
      let t := (f + x)%float in
      let c' := if PrimFloat.leb (abs x) (abs f)
                then (c + ((f - t) + x))%float
                else (c + ((x - t) + f))%float in
      neumaier xs' t c'
  end.

Definition sum_compensated (xs : list float) : float :=
  match xs with
  | [] => zero
  | x :: xs' => neumaier xs' (zero + x)%float zero
  end.

Section Metrics.
(** The built-in [sum] of the interpreter that runs the code. *)
Variable py_sum : list float -> float.

(** The inner function [close_at_or_after]: the [for] loop with its early
    [return], then the fall-back [klines_1h[-1].close]. *)
Fixpoint close_at_or_after_loop (ks : list Kline) (target_ms : Z)
  (fallback : float) : float :=
  match ks with
  | [] => fallback
  | k :: ks' =>
      if target_ms <=? open_time_ms k then close k
      else close_at_or_after_loop ks' target_ms fallback
  end.

(** [(c_end / c - 1.0) * 100.0 if c else float("nan")]. *)
Definition pct_change (c_end c : float) : float :=
  if truthy c then ((c_end / c - 1) * 100)%float else nan.

(** The loop that fills [day_b] and [day_q], keyed by the first ten
    characters of the record's UTC time. *)
Fixpoint day_loop (ks : list Kline) (day_b day_q : list (string * float))
  : option (list (string * float) * list (string * float)) :=
  match ks with
  | [] => Some (day_b, day_q)
  | k :: ks' =>
      iso <- ms_to_utc_iso (open_time_ms k) ;;
      let day := substring 0 10 iso in
      day_loop ks'
        (dict_set String.eqb day_b day
           (dict_get_default String.eqb day_b day zero + volume k)%float)
        (dict_set String.eqb day_q day
           (dict_get_default String.eqb day_q day zero + quote_volume k)%float)
  end.

(** [sum(d.values()) / len(d) if d else float("nan")]. *)
Definition day_average (d : list (string * float)) : float :=
  match d with
  | [] => nan
  | _ => (py_sum (dict_values d) / of_int (Z.of_nat (List.length d)))%float
  end.

(** [calc_metrics]; [None] when the time of a record cannot be rendered
    (see [ms_to_utc_iso]). *)
Definition calc_metrics (symbol : string) (klines_1h : list Kline)
  : option (float * float * float * float) :=
  match klines_1h with
  | [] => Some (nan, nan, nan, nan)
  | k0 :: _ =>
      let last_k := last klines_1h k0 in
      let close_at_or_after target_ms :=
        close_at_or_after_loop klines_1h target_ms (close last_k) in
      let end_ms := open_time_ms last_k in
      let c_end := close last_k in
      let ms_90 := end_ms - 90 * 24 * 3600 * 1000 in
      let ms_180 := end_ms - 180 * 24 * 3600 * 1000 in
      let c_90 := close_at_or_after ms_90 in
      let c_180 := close_at_or_after ms_180 in
      let ch90 := pct_change c_end c_90 in
      let ch180 := pct_change c_end c_180 in
      days <- day_loop klines_1h [] [] ;;
      let '(day_b, day_q) := days in
      Some (ch90, ch180, day_average day_b, day_average day_q)
  end.
End Metrics.

End Exporter.

(** * Specification vocabulary and sample inputs *)

Import PyFloat DateTime Exporter.

(** ** The retry loop *)

(** An attempt whose outcome the loop retries (if attempts remain). *)
Definition retryable (r : res (list Row)) : bool :=
  match r with
  | Raise ConnectionError | Raise Timeout => true
  | Raise (HTTPError st) => is_429 st
  | _ => false
  end.

(** What the loop yields when every attempt is retryable and [last] is
    the outcome of the final one: a network error is raised again, a 429
    falls out of the loop to the [return []] below it. *)
Definition exhausted (last : res (list Row)) : res (list Row) :=
  match last with
  | Raise (HTTPError _) => Ok []
  | _ => last
  end.

(** A transport that answers every call with status 429. *)
Definition always_429 : transport := fun _ _ _ _ => Responds 429 None.

(** A transport that answers every call with status 404. *)
Definition always_404 : transport := fun _ _ _ _ => Responds 404 None.

(** The parameters of a request for two hours of hourly candles. *)
Definition some_params : Params :=
  {| p_symbol := "BTCUSDT"; p_interval := "1h";
     p_startTime := 0; p_endTime := 7200000; p_limit := 1000 |}.

(** ** Pagination *)

(** Every entry of a dictionary is filed under the open time of its
    record, and its record satisfies [Q]. *)
Definition filed (Q : Kline -> Prop) (d : list (Z * Kline)) : Prop :=
  Forall (fun e => open_time_ms (snd e) = fst e /\ Q (snd e)) d.

(** The transport honours [startTime]: no row of an answer opens before
    the [startTime] of its request. *)
Definition honours_start (tr : transport) : Prop :=
  forall n url p timeout data,
    try_body (tr n url p timeout) = Ok data ->
    Forall (fun row => p_startTime p <= row_0 row) data.

(** The same for the last row of an answer only. *)
Definition honours_start_last (tr : transport) : Prop :=
  forall n url p timeout row data',
    try_body (tr n url p timeout) = Ok (row :: data') ->
    p_startTime p <= last_open_of row data'.

(** The row of the candle that opens at [t] and closes an hour later, with
    the prices and volumes of the repository's tests. *)
Definition hour_row (t : Z) : Row :=
  {| row_0 := t; row_1 := "100"; row_2 := "110"; row_3 := "90";
     row_4 := "105"; row_5 := "1000"; row_6 := t + 3599999;
     row_7 := "50000"; row_8 := 42; row_9 := "600"; row_10 := "30000" |}.

(** The record that [parse_row] makes of [hour_row t]. *)
Definition hour_kline (t : Z) : Kline :=
  {| open_time_ms := t; open := 100; high := 110; low := 90; close := 105;
     volume := 1000; close_time_ms := t + 3599999; quote_volume := 50000;
     trades := 42; taker_buy_base_volume := 600;
     taker_buy_quote_volume := 30000 |}.

(** A transport that answers every call with the same two rows, opening
    at 0 and at one hour, whatever [startTime] asks for. *)
Definition two_rows : transport :=
  fun _ _ _ _ => Responds 200 (Some [hour_row 0; hour_row 3600000]).

(** A transport that honours [startTime]: it answers with the hours from
    [startTime] on that are at most [endTime], up to [limit] rows. *)
Definition hourly_from_start : transport :=
  fun _ _ p _ =>
    Responds 200
      (Some (map hour_row
         (filter (fun t => t <=? p_endTime p)
            (map (fun i => p_startTime p + 3600000 * Z.of_nat i)
               (seq 0 (Z.to_nat (p_limit p))))))).

(** The rows that open at 1, 2, ..., 999. *)
Definition full_page_tail : list Row :=
  map (fun i => hour_row (Z.of_nat i)) (seq 1 999).

(** A transport that answers every call with the same full page: the 1000
    rows that open at 0, 1, ..., 999, whatever [startTime] asks for. *)
Definition same_full_page : transport :=
  fun _ _ _ _ => Responds 200 (Some (hour_row 0 :: full_page_tail)).

(** A row whose open price has 18 decimals. *)
Definition precise_row : Row :=
  {| row_0 := 0; row_1 := "0.000000012345678901"; row_2 := "110";
     row_3 := "90"; row_4 := "105"; row_5 := "1000"; row_6 := 3599999;
     row_7 := "50000"; row_8 := 42; row_9 := "600"; row_10 := "30000" |}.

(** ** Metrics *)

(** The UTC day of a record, as the loop of [calc_metrics] computes it. *)
Definition day_of (k : Kline) : option string :=
  option_map (substring 0 10) (ms_to_utc_iso (open_time_ms k)).

(** The UTC days of the records of a series, when all are defined. *)
Fixpoint days_of (ks : list Kline) : option (list string) :=
  match ks with
  | [] => Some []
  | k :: ks' =>
      match day_of k, days_of ks' with
      | Some d, Some ds => Some (d :: ds)
      | _, _ => None
      end
  end.

(** The date [YYYY-MM-DD] of the UTC calendar day that holds the instant
    [ms] milliseconds after the epoch. *)
Definition utc_date (ms : Z) : string :=
  let '(y, m, d) := civil_from_days (ms / 86400000) in
  string_of_list_ascii
    (digits_fixed 4 y [] ++ "-"%char :: two_digits m ++ "-"%char ::
     two_digits d).

(** The open times of the series are whole seconds of the years 1000 to
    9999 (an hourly candle opens on a whole hour). *)
Definition whole_second_times (ks : list Kline) : Prop :=
  Forall (fun k => open_time_ms k mod 1000 = 0
                   /\ -30610224000000 <= open_time_ms k <= 253402300799999) ks.

(** [k] is the first record of [ks] that opens at or after [target]. *)
Definition first_at_or_after (target : Z) (ks : list Kline) (k : Kline)
  : Prop :=
  exists before after,
    ks = before ++ k :: after
    /\ Forall (fun k' => open_time_ms k' < target) before
    /\ target <= open_time_ms k.

(** [c] is the reference close for [target]: the close of the first
    record at or after [target], or that of [last_k] when there is none. *)
Definition reference_close (target : Z) (ks : list Kline) (last_k : Kline)
    (c : float) : Prop :=
  (exists k, first_at_or_after target ks k /\ c = close k)
  \/ (Forall (fun k' => open_time_ms k' < target) ks /\ c = close last_k).

(** [ch] is the percentage change from the reference close [c] to
    [c_end]: not-a-number when [c] is zero. *)
Definition window_change (c_end c ch : float) : Prop :=
  (PrimFloat.eqb c zero = true -> ch = nan)
  /\ (PrimFloat.eqb c zero = false -> ch = ((c_end / c - 1) * 100)%float).

(** The days of a list of days, each once, in the order of first
    appearance. *)
Definition days_present (days : list string) : list string :=
  fold_left (fun acc d => if existsb (String.eqb d) acc then acc else acc ++ [d])
    days [].

(** The sum of the values recorded for day [d], added in the order of the
    records starting from [0.0]. *)
Definition day_total (d : string) (entries : list (string * float)) : float :=
  sum_left (map snd (filter (fun e => String.eqb (fst e) d) entries)).

(** The mean over the days present of the per-day sums: their [sum]
    divided by their number. *)
Definition daily_mean (py_sum : list float -> float)
    (entries : list (string * float)) : float :=
  let days := days_present (map fst entries) in
  (py_sum (map (fun d => day_total d entries) days)
   / of_int (Z.of_nat (List.length days)))%float.

(** The dictionary that the loop of [calc_metrics] fills from [entries]
    (day and value of each record), starting from [d]. *)
Definition accumulate (d : list (string * float))
    (entries : list (string * float)) : list (string * float) :=
  fold_left
    (fun d e => dict_set String.eqb d (fst e)
                  (dict_get_default String.eqb d (fst e) zero + snd e)%float)
    entries d.

(** The series of the volume test: 48 hourly records from the epoch on,
    base volume 100 and quote volume 5000 in the first 24, 200 and 10000 in
    the next 24, close 50 throughout. *)
Definition volume_kline (h : nat) : Kline :=
  {| open_time_ms := Z.of_nat h * 3600000;
     open := 100; high := 110; low := 90; close := 50;
     volume := if (h <? 24)%nat then 100 else 200;
     close_time_ms := (Z.of_nat h + 1) * 3600000 - 1;
     quote_volume := if (h <? 24)%nat then 5000 else 10000;
     trades := 42; taker_buy_base_volume := 600;
     taker_buy_quote_volume := 30000 |}.

Definition two_day_series : list Kline := map volume_kline (seq 0 48).

(** ** The scenarios of the repository's tests *)

(** The first call fails to connect, the later ones answer one row. *)
Definition fail_then_ok : transport :=
  fun n _ _ _ =>
    match n with
    | O => Throws ConnectionError
    | S _ => Responds 200 (Some [hour_row 0])
    end.

(** Every call fails to connect. *)
Definition always_down : transport := fun _ _ _ _ => Throws ConnectionError.

(** The first call is answered 429, the later ones answer one row. *)
Definition limited_then_ok : transport :=
  fun n _ _ _ =>
    match n with
    | O => Throws (HTTPError (Some 429))
    | S _ => Responds 200 (Some [hour_row 0])
    end.

(** Every call is answered by the same row twice. *)
Definition same_row_twice : transport :=
  fun _ _ _ _ => Responds 200 (Some [hour_row 0; hour_row 0]).

(** Every call is answered by a row at 0 and a row far beyond the end. *)
Definition row_beyond_end : transport :=
  fun _ _ _ _ => Responds 200 (Some [hour_row 0; hour_row 99999999]).

(** 180 days of hourly records at the constant close 100. *)
Definition flat_kline (h : nat) : Kline :=
  {| open_time_ms := Z.of_nat h * 3600000;
     open := 100; high := 110; low := 90; close := 100;
     volume := 500;
     close_time_ms := (Z.of_nat h + 1) * 3600000 - 1;
     quote_volume := 25000;
     trades := 42; taker_buy_base_volume := 600;
     taker_buy_quote_volume := 30000 |}.

Definition flat_series : list Kline := map flat_kline (seq 0 (24 * 180)).

(** ** Exact binary64 values *)

(** A shifted mantissa with no bit lost. *)
Definition exact_record (m : Z) : shr_record :=
  {| shr_m := m; shr_r := false; shr_s := false |}.

(** The binary64 form of a positive integer below [2^53]. *)
Definition exact_float (neg : bool) (N : positive) : spec_float :=
  S754_finite neg (Z.to_pos (Zpos N * 2 ^ (52 - Z.log2 (Zpos N))))
    (Z.log2 (Zpos N) - 52).

(** The binary64 form of an integer of magnitude below [2^53]. *)
Definition float_of_Z (s : Z) : spec_float :=
  match s with
  | Z0 => S754_zero false
  | Zpos p => exact_float false p
  | Zneg p => exact_float true p
  end.

(** ** Back-off *)

(** The waits after the attempts [a], [a + 1], ..., [a + j - 1], latest
    first: [2 ** attempt] seconds each. *)
Definition waits (a : Z) (j : nat) : list seconds :=
  map (fun attempt => IntSeconds (2 ^ attempt))
    (rev (py_range a (a + Z.of_nat j))).

(** The world after [j] more calls, each followed by its wait. *)
Definition after_retries (a : Z) (j : nat) (w : world) : world :=
  {| calls := calls w + j; sleeps := waits a j ++ sleeps w |}.

(** The total of a list of whole seconds. *)
Definition total_seconds (ws : list Z) : Z := fold_right Z.add 0 ws.

(** ** What a fetch keeps *)

(** The last record of [out] that opens at [t]. *)
Definition latest (t : Z) (out : list Kline) : option Kline :=
  find (fun k => open_time_ms k =? t) (rev out).

(** The requests of a fetch, in order: the cursor of each request that
    the loop sends and the world in which it is sent.  The loop goes on to
    a next request after a non-empty page that converts, is full, and ends
    before [end_ms]; [fuel] bounds the number of requests as in
    [paginate]. *)
Fixpoint requests (tr : transport) (symbol interval : string)
    (end_ms timeout : Z) (fuel : nat) (next_start : Z) (w : world)
  : list (Z * world) :=
  match fuel with
  | O => []
  | S fuel' =>
      (next_start, w) ::
      match _request_with_retry tr (BASE_URL ++ KLINES_PATH)%string
              (page_params symbol interval end_ms next_start) timeout 3 w with
      | (Ok (row :: data'), w1) =>
          match parse_rows (row :: data') [] with
          | Ok _ =>
              if (end_ms <=? last_open_of row data') ||
                 (Z.of_nat (List.length (row :: data')) <? limit)
              then []
              else requests tr symbol interval end_ms timeout fuel'
                     (last_open_of row data' + 1)
                     (sleep (FloatSeconds page_pause) w1)
          | Raise _ => []
          end
      | _ => []
      end
  end.

(** The request sent at [cursor] in the world [w0] is one of this
    fetch's, and it ended with [r]: that is what [_request_with_retry]
    gave, and it is the outcome of the last call the request made. *)
Definition answered (tr : transport) (symbol interval : string)
    (start_ms end_ms timeout : Z) (fuel : nat) (w : world)
    (cursor : Z) (r : res (list Row)) : Prop :=
  exists w0 w1,
    In (cursor, w0)
       (requests tr symbol interval end_ms timeout fuel start_ms w)
    /\ _request_with_retry tr (BASE_URL ++ KLINES_PATH)%string
         (page_params symbol interval end_ms cursor) timeout 3 w0 = (r, w1)
    /\ (calls w0 < calls w1)%nat
    /\ try_body (tr (pred (calls w1)) (BASE_URL ++ KLINES_PATH)%string
                   (page_params symbol interval end_ms cursor) timeout) = r.

(** [k] was received by this fetch: it is [parse_row] of a row of the
    answer to one of its requests. *)
Definition received (tr : transport) (symbol interval : string)
    (start_ms end_ms timeout : Z) (fuel : nat) (w : world) (k : Kline)
  : Prop :=
  exists cursor data row,
    answered tr symbol interval start_ms end_ms timeout fuel w cursor (Ok data)
    /\ In row data
    /\ parse_row row = Ok k.

(** A transport whose first answer has no rows and whose later answers
    hold one row, opening at 42. *)
Definition late_row : transport :=
  fun n _ _ _ =>
    match n with
    | O => Responds 200 (Some [])
    | S _ => Responds 200 (Some [hour_row 42])
    end.

(** The rows of [book] that open in [[lo, hi]]. *)
Definition in_window (lo hi : Z) (book : list Row) : list Row :=
  filter (fun r => (lo <=? row_0 r) && (row_0 r <=? hi)) book.

(** An exchange that holds the rows [book]: it answers every request with
    the rows that open in [[startTime, endTime]], in the order of the book,
    cut after [limit] rows. *)
Definition exchange (book : list Row) : transport :=
  fun _ _ p _ =>
    Responds 200
      (Some (firstn (Z.to_nat (p_limit p))
               (in_window (p_startTime p) (p_endTime p) book))).

(** ** Rendered times *)

(** The text [YYYY-MM-DD HH:MM:SS] of the UTC second that holds the
    instant [ms] milliseconds after the epoch. *)
Definition utc_text (ms : Z) : string :=
  let s := ms / 1000 in
  let '(y, m, d) := civil_from_days (s / 86400) in
  let sod := s mod 86400 in
  string_of_list_ascii
    (digits_fixed 4 y [] ++ "-"%char :: two_digits m ++ "-"%char ::
     two_digits d ++ " "%char :: two_digits (sod / 3600) ++ ":"%char ::
     two_digits (sod mod 3600 / 60) ++ ":"%char :: two_digits (sod mod 60)).

(** The real value of the float with mantissa [m] and exponent [e]. *)
Definition F2R (m : positive) (e : Z) : R := (IZR (Zpos m) * powerRZ 2 e)%R.

(** * Properties *)

(** ** [range] *)

Lemma py_range_nil lo hi : hi <= lo -> py_range lo hi = [].
Proof.
  intros H. unfold py_range.
  replace (Z.to_nat (hi - lo)) with 0%nat by lia. reflexivity.
Qed.

Lemma py_range_cons lo hi :
  lo < hi -> py_range lo hi = lo :: py_range (lo + 1) hi.
Proof.
  intros H. unfold py_range.
  replace (Z.to_nat (hi - lo)) with (S (Z.to_nat (hi - (lo + 1)))) by lia.
  simpl. f_equal; [lia|].
  rewrite <- seq_shift, map_map.
  apply map_ext. intros i. lia.
Qed.

(** ** Whole seconds convert exactly

    The kernel's floats are related to their specification [spec_float] by
    the library's statements [mul_spec], [sub_spec] and [Prim2SF_SF2Prim]. *)

(** *** Rounding an integer below [2^53] *)

Lemma digits2_pos_log2 p : Zpos (digits2_pos p) = Z.log2 (Zpos p) + 1.
Proof.
  assert (Hsize : forall q, digits2_pos q = Pos.size q)
    by (induction q; cbn; congruence).
  destruct p; cbn [Z.log2 digits2_pos]; rewrite ?Hsize; lia.
Qed.

Lemma Zdigits2_log2 z : 0 < z -> Zdigits2 z = Z.log2 z + 1.
Proof.
  destruct z; try lia. intros _. cbn [Zdigits2]. apply digits2_pos_log2.
Qed.

Lemma shr_1_even k : 0 <= k -> shr_1 (exact_record (k * 2)) = exact_record k.
Proof.
  intros Hk. destruct k as [|q|q]; [reflexivity | | lia].
  replace (Zpos q * 2) with (Zpos q~0) by lia. reflexivity.
Qed.

Lemma pow2_xO p : 2 ^ Zpos p~0 = 2 ^ Zpos p * 2 ^ Zpos p.
Proof. rewrite <- Z.pow_add_r by lia. f_equal. lia. Qed.

Lemma pow2_xI p : 2 ^ Zpos p~1 = 2 ^ Zpos p * 2 ^ Zpos p * 2.
Proof.
  replace (Zpos p~1) with (Zpos p + Zpos p + 1) by lia.
  rewrite !Z.pow_add_r by lia. reflexivity.
Qed.

Lemma iter_pos_shr_1_exact p : forall k, 0 <= k ->
  iter_pos shr_1 p (exact_record (k * 2 ^ Zpos p)) = exact_record k.
Proof.
  induction p as [p IH|p IH|]; intros k Hk; cbn [iter_pos].
  - assert (0 < 2 ^ Zpos p) by (apply Z.pow_pos_nonneg; lia).
    rewrite pow2_xI, !Z.mul_assoc.
    rewrite shr_1_even by nia. rewrite IH by nia. now apply IH.
  - assert (0 < 2 ^ Zpos p) by (apply Z.pow_pos_nonneg; lia).
    rewrite pow2_xO, !Z.mul_assoc. rewrite IH by nia. now apply IH.
  - change (2 ^ 1) with 2. now apply shr_1_even.
Qed.

(** A positive integer below [2^53], scaled by a power of two, is rounded
    to itself. *)
Lemma binary_round_aux_exact sx (N : positive) (j : Z) :
  Z.log2 (Zpos N) + 1 <= 53 ->
  53 - (Z.log2 (Zpos N) + 1) <= j ->
  binary_round_aux prec emax sx (Zpos N * 2 ^ j) (- j) loc_Exact
  = S754_finite sx (Z.to_pos (Zpos N * 2 ^ (52 - Z.log2 (Zpos N))))
      (Z.log2 (Zpos N) - 52).
Proof.
  intros Hd Hj.
  pose proof (Z.log2_nonneg (Zpos N)) as Hl.
  set (l := Z.log2 (Zpos N)) in *.
  assert (Hpj : 0 < 2 ^ j) by (apply Z.pow_pos_nonneg; lia).
  assert (Hp : 0 < 2 ^ (52 - l)) by (apply Z.pow_pos_nonneg; lia).
  assert (Hlog : forall i, 0 <= i -> Z.log2 (Zpos N * 2 ^ i) = i + l)
    by (intros i Hi; apply Z.log2_mul_pow2; lia).
  unfold binary_round_aux, shr_fexp.
  rewrite Zdigits2_log2 by nia. rewrite Hlog by lia.
  unfold fexp, SpecFloat.emin, prec, emax.
  replace (Z.max (j + l + 1 + - j - 53) (3 - 1024 - 53) - - j)
    with (j - (52 - l)) by lia.
  assert (Hshr : shr (shr_record_of_loc (Zpos N * 2 ^ j) loc_Exact) (- j)
                   (j - (52 - l))
                 = (exact_record (Zpos N * 2 ^ (52 - l)), l - 52)).
  { unfold shr. cbn [shr_record_of_loc]. fold (exact_record (Zpos N * 2 ^ j)).
    destruct (j - (52 - l)) as [|p|p] eqn:E; [| |lia].
    - replace j with (52 - l) by lia. f_equal. lia.
    - replace (Zpos N * 2 ^ j) with (Zpos N * 2 ^ (52 - l) * 2 ^ Zpos p).
      + rewrite iter_pos_shr_1_exact by nia. f_equal. lia.
      + rewrite <- Z.mul_assoc, <- Z.pow_add_r by lia. do 2 f_equal. lia. }
  rewrite Hshr. cbn [exact_record shr_m loc_of_shr_record round_nearest_even].
  rewrite Zdigits2_log2 by nia. rewrite Hlog by lia.
  replace (Z.max (52 - l + l + 1 + (l - 52) - 53) (3 - 1024 - 53) - (l - 52))
    with 0 by lia.
  cbn [shr shr_record_of_loc shr_m].
  destruct (Zpos N * 2 ^ (52 - l)) as [|q|q] eqn:Eq; try nia.
  cbn [Z.to_pos].
  replace (l - 52 <=? 1024 - 53) with true by (symmetry; apply Z.leb_le; lia).
  reflexivity.
Qed.

Lemma exact_valid sx (N : positive) :
  Z.log2 (Zpos N) + 1 <= 53 ->
  valid_binary
    (S754_finite sx (Z.to_pos (Zpos N * 2 ^ (52 - Z.log2 (Zpos N))))
       (Z.log2 (Zpos N) - 52)) = true.
Proof.
  intros Hd. pose proof (Z.log2_nonneg (Zpos N)) as Hl.
  set (l := Z.log2 (Zpos N)) in *.
  assert (Hp : 0 < 2 ^ (52 - l)) by (apply Z.pow_pos_nonneg; lia).
  cbn [SpecFloat.valid_binary]. unfold bounded, canonical_mantissa.
  rewrite digits2_pos_log2, Z2Pos.id by nia.
  rewrite Z.log2_mul_pow2 by lia. fold l.
  unfold fexp, SpecFloat.emin, prec, emax.
  apply andb_true_iff. split; [apply Z.eqb_eq | apply Z.leb_le]; lia.
Qed.

Lemma log2_below N : Zpos N < 2 ^ 53 -> Z.log2 (Zpos N) + 1 <= 53.
Proof.
  intros H. assert (Z.log2 (Zpos N) < 53) by (apply Z.log2_lt_pow2; lia). lia.
Qed.

(** The quotient of a multiple of [D] by [D] is rounded to itself. *)
Lemma round_ratio_multiple neg (p D : positive) :
  Zpos p < 2 ^ 53 ->
  Prim2SF (round_ratio neg (Zpos p * Zpos D) D) = exact_float neg p.
Proof.
  intros Hp. pose proof (log2_below p Hp) as Hd.
  pose proof (Z.log2_nonneg (Zpos p)) as Hl.
  change (Zpos p * Zpos D) with (Zpos (p * D)).
  unfold round_ratio.
  set (sh := Z.max 0 (64 + Z.log2 (Zpos D) - Z.log2 (Zpos (p * D)))).
  assert (Hsh : 52 - Z.log2 (Zpos p) <= sh /\ 0 <= sh).
  { pose proof (Z.log2_mul_above (Zpos p) (Zpos D) ltac:(lia) ltac:(lia)) as Hm.
    change (Zpos p * Zpos D) with (Zpos (p * D)) in Hm.
    unfold sh. lia. }
  rewrite Z.shiftl_mul_pow2 by lia.
  pose proof (Z_div_mod (Zpos (p * D) * 2 ^ sh) (Zpos D) ltac:(lia)) as Hdm.
  destruct (Z.div_eucl (Zpos (p * D) * 2 ^ sh) (Zpos D)) as [q r].
  assert (Hq : q = Zpos p * 2 ^ sh /\ r = 0).
  { replace (Zpos (p * D) * 2 ^ sh) with (Zpos p * 2 ^ sh * Zpos D)
      in Hdm by lia.
    destruct Hdm as [Heq Hr]. split.
    - rewrite (Z.div_unique_pos _ _ q r Hr Heq). apply Z.div_mul. lia.
    - rewrite (Z.mod_unique_pos _ _ q r Hr Heq). apply Z.mod_mul. lia. }
  destruct Hq as [-> ->]. cbn [Z.eqb].
  rewrite binary_round_aux_exact by lia.
  apply Prim2SF_SF2Prim, exact_valid, Hd.
Qed.

Lemma Prim2SF_1000 :
  Prim2SF 1000%float = S754_finite false 8796093022208000 (-43).
Proof. vm_compute. reflexivity. Qed.

Lemma mul_1000_exact neg (p : positive) :
  Zpos p * 1000 < 2 ^ 53 ->
  SF64mul (exact_float neg p) (S754_finite false 8796093022208000 (-43))
  = exact_float neg (p * 1000).
Proof.
  intros Hp. pose proof (log2_below (p * 1000) ltac:(lia)) as Hd.
  pose proof (Z.log2_nonneg (Zpos p)) as Hl.
  assert (Hmono : Z.log2 (Zpos p) <= Z.log2 (Zpos (p * 1000)))
    by (apply Z.log2_le_mono; lia).
  unfold SF64mul, exact_float. cbn [SFmul].
  rewrite xorb_false_r.
  set (l := Z.log2 (Zpos p)) in *.
  assert (Hpw : 0 < 2 ^ (52 - l)) by (apply Z.pow_pos_nonneg; lia).
  replace (Zpos (Z.to_pos (Zpos p * 2 ^ (52 - l)) * 8796093022208000))
    with (Zpos (p * 1000) * 2 ^ (95 - l)).
  - replace (l - 52 + -43) with (- (95 - l)) by lia.
    apply binary_round_aux_exact; lia.
  - rewrite (Pos2Z.inj_mul (Z.to_pos (Zpos p * 2 ^ (52 - l)))).
    rewrite Z2Pos.id by nia.
    replace (95 - l) with ((52 - l) + 43) by lia.
    rewrite Z.pow_add_r by lia. change (2 ^ 43) with 8796093022208.
    lia.
Qed.

Lemma to_int_exact neg (N : positive) x :
  Zpos N < 2 ^ 53 ->
  Prim2SF x = exact_float neg N ->
  to_int x = Some (if neg then - Zpos N else Zpos N).
Proof.
  intros HN Hx. pose proof (log2_below N HN) as Hd.
  pose proof (Z.log2_nonneg (Zpos N)) as Hl.
  unfold to_int. rewrite Hx. unfold exact_float.
  set (l := Z.log2 (Zpos N)) in *.
  assert (Hpw : 0 < 2 ^ (52 - l)) by (apply Z.pow_pos_nonneg; lia).
  rewrite Z2Pos.id by nia.
  assert (Ha : (if 0 <=? l - 52
                then Z.shiftl (Zpos N * 2 ^ (52 - l)) (l - 52)
                else Z.shiftr (Zpos N * 2 ^ (52 - l)) (- (l - 52))) = Zpos N).
  { destruct (Z.leb_spec 0 (l - 52)).
    - replace (l - 52) with 0 by lia. replace (52 - l) with 0 by lia.
      rewrite Z.shiftl_0_r. change (2 ^ 0) with 1. lia.
    - rewrite Z.shiftr_div_pow2 by lia.
      replace (- (l - 52)) with (52 - l) by lia.
      apply Z.div_mul. lia. }
  now rewrite Ha.
Qed.

(** An instant on a whole second, within the range of [datetime], has the
    millisecond value [1000 * seconds] exactly. *)
Lemma to_ms_whole_second s :
  Z.abs s * 1000 < 2 ^ 53 ->
  to_ms (s * 1000000) = Some (s * 1000).
Proof.
  intros Hs. unfold to_ms, timestamp, int_truediv, us_per_second.
  cbn [obind].
  destruct s as [|p|p].
  - vm_compute. reflexivity.
  - change (Z.abs (Zpos p * 1000000)) with (Zpos p * 1000000).
    change (Zpos p * 1000000 <? 0) with false.
    rewrite (to_int_exact false (p * 1000)); [reflexivity | lia |].
    rewrite mul_spec, (round_ratio_multiple _ p 1000000), Prim2SF_1000 by lia.
    apply mul_1000_exact. lia.
  - change (Z.abs (Zneg p * 1000000)) with (Zpos p * 1000000).
    change (Zneg p * 1000000 <? 0) with true.
    rewrite (to_int_exact true (p * 1000)); [reflexivity | lia |].
    rewrite mul_spec, (round_ratio_multiple _ p 1000000), Prim2SF_1000 by lia.
    apply mul_1000_exact. lia.
Qed.

(** *** Parsed and derived instants *)

Lemma days_in_month_le y m : days_in_month y m <= 31.
Proof.
  unfold days_in_month.
  destruct (m =? 2); [destruct (is_leap y); lia|].
  destruct ((m =? 4) || (m =? 6) || (m =? 9) || (m =? 11)); lia.
Qed.

Lemma days_from_civil_bounds y m d :
  1 <= y <= 9999 -> 1 <= m <= 12 -> 1 <= d <= 31 ->
  -1000000 <= days_from_civil y m d <= 4000000.
Proof.
  intros Hy Hm Hd. unfold days_from_civil.
  destruct (m <=? 2); destruct (2 <? m);
    Z.div_mod_to_equations; lia.
Qed.

(** An instant built by [make_datetime] is on a whole second. *)
Lemma make_datetime_whole y m d hh mi ss t :
  make_datetime y m d hh mi ss = Some t ->
  exists sec, t = sec * 1000000 /\ Z.abs sec * 1000 < 2 ^ 53.
Proof.
  unfold make_datetime, us_per_second. intros H.
  destruct ((1 <=? y) && (y <=? 9999) && (1 <=? m) && (m <=? 12) &&
            (1 <=? d) && (d <=? days_in_month y m) &&
            (0 <=? hh) && (hh <=? 23) && (0 <=? mi) && (mi <=? 59) &&
            (0 <=? ss) && (ss <=? 59)) eqn:E; [|discriminate].
  injection H as <-.
  repeat (apply andb_true_iff in E; destruct E as [E ?]).
  repeat match goal with Hb : (_ <=? _) = true |- _ => apply Z.leb_le in Hb end.
  pose proof (days_in_month_le y m).
  pose proof (days_from_civil_bounds y m d ltac:(lia) ltac:(lia) ltac:(lia)).
  eexists. split; [reflexivity|].
  change (2 ^ 53) with 9007199254740992. lia.
Qed.

Lemma parse_dt_utc_whole s t :
  parse_dt_utc s = Some t ->
  exists sec, t = sec * 1000000 /\ Z.abs sec * 1000 < 2 ^ 53.
Proof.
  unfold parse_dt_utc, strptime_datetime, strptime_date. intros H.
  destruct (contains_char "T" s).
  - destruct (first_full_match _ s) as [[[[y m] d] [[hh mi] ss]]|];
      [|discriminate].
    eapply make_datetime_whole; eassumption.
  - destruct (first_full_match re_date s) as [[[y m] d]|]; [|discriminate].
    eapply make_datetime_whole; eassumption.
Qed.

(** The start derived from a whole-second end is on a whole second. *)
Lemma derived_start_whole sec days t :
  obind (timedelta_days days) (fun delta => datetime_sub (sec * 1000000) delta)
    = Some t ->
  t = (sec - days * 86400) * 1000000
  /\ Z.abs (sec - days * 86400) * 1000 < 2 ^ 53.
Proof.
  unfold timedelta_days, datetime_sub, in_range, us_per_day, us_per_second.
  destruct (Z.abs days <=? 999999999); [|discriminate]. cbn [obind].
  change min_datetime with (-62135596800000000).
  change max_datetime with 253402300799999999.
  destruct (Z.leb_spec (-62135596800000000)
              (sec * 1000000 - days * (86400 * 1000000))) as [Hlo|];
    [|discriminate].
  destruct (Z.leb_spec (sec * 1000000 - days * (86400 * 1000000))
              253402300799999999) as [Hhi|]; [|discriminate].
  cbn [andb]. intros Ht. injection Ht as <-.
  change (2 ^ 53) with 9007199254740992. lia.
Qed.

(** *** The UTC day of a whole-second open time *)

Lemma civil_year_lower z :
  -354285 <= z -> 1000 <= fst (fst (civil_from_days z)).
Proof.
  intros Hz. unfold civil_from_days. cbn [fst].
  match goal with |- context [if ?c <? 10 then _ else _] =>
    destruct (Z.ltb_spec c 10) end;
  match goal with |- context [if ?c <=? 2 then _ else _] =>
    destruct (Z.leb_spec c 2) end;
  Z.div_mod_to_equations; lia.
Qed.

Lemma int_truediv_multiple s (D : positive) :
  Z.abs s < 2 ^ 53 ->
  exists t, int_truediv (s * Zpos D) (Zpos D) = Some t
            /\ Prim2SF t = float_of_Z s.
Proof.
  intros Hs. unfold int_truediv. eexists. split; [reflexivity|].
  destruct s as [|p|p]; cbn [float_of_Z].
  - reflexivity.
  - change (Z.abs (Zpos p * Zpos D)) with (Zpos p * Zpos D).
    change (Zpos p * Zpos D <? 0) with false.
    apply round_ratio_multiple. lia.
  - change (Z.abs (Zneg p * Zpos D)) with (Zpos p * Zpos D).
    change (Zneg p * Zpos D <? 0) with true.
    apply round_ratio_multiple. lia.
Qed.

Lemma of_int_exact s : Z.abs s < 2 ^ 53 -> Prim2SF (of_int s) = float_of_Z s.
Proof.
  intros Hs. unfold of_int.
  destruct s as [|p|p]; cbn [float_of_Z Z.abs].
  - reflexivity.
  - change (Zpos p <? 0) with false. rewrite <- (Z.mul_1_r (Zpos p)) at 1.
    apply round_ratio_multiple. lia.
  - change (Zneg p <? 0) with true. rewrite <- (Z.mul_1_r (Zpos p)) at 1.
    apply round_ratio_multiple. lia.
Qed.

Lemma to_int_of_Z s x :
  Z.abs s < 2 ^ 53 -> Prim2SF x = float_of_Z s -> to_int x = Some s.
Proof.
  intros Hs Hx. destruct s as [|p|p]; cbn [float_of_Z] in Hx.
  - unfold to_int. now rewrite Hx.
  - apply (to_int_exact false p x); [lia | assumption].
  - apply (to_int_exact true p x); [lia | assumption].
Qed.

Lemma sub_self_zero x s :
  Prim2SF x = float_of_Z s -> (x - x)%float = zero.
Proof.
  intros Hx. apply Prim2SF_inj. rewrite sub_spec, Hx.
  destruct s as [|p|p]; cbn [float_of_Z]; [reflexivity| |];
    unfold exact_float, SF64sub; cbn [SFsub]; rewrite Z.sub_diag; reflexivity.
Qed.

(** [fromtimestamp] on a float that is a whole number of seconds. *)
Lemma fromtimestamp_whole_second t s :
  Prim2SF t = float_of_Z s ->
  -62135596800 <= s <= 253402300799 ->
  fromtimestamp t = Some (s * 1000000).
Proof.
  intros Ht Hs.
  assert (Habs : Z.abs s < 2 ^ 53) by (change (2 ^ 53) with 9007199254740992; lia).
  unfold fromtimestamp. rewrite (to_int_of_Z s t Habs Ht).
  assert (Hof : of_int s = t).
  { apply Prim2SF_inj. rewrite Ht. now apply of_int_exact. }
  rewrite Hof, (sub_self_zero t s Ht).
  change (round_half_even (zero * 1000000)%float) with (Some 0).
  unfold in_range, us_per_second.
  change (1000000 <=? 0) with false. change (0 <? 0) with false.
  cbv beta iota zeta.
  change min_datetime with (-62135596800000000).
  change max_datetime with 253402300799999999.
  replace (-62135596800000000 <=? s * 1000000 + 0) with true
    by (symmetry; apply Z.leb_le; lia).
  replace (s * 1000000 + 0 <=? 253402300799999999) with true
    by (symmetry; apply Z.leb_le; lia).
  cbn [andb]. f_equal. lia.
Qed.

Lemma day_of_whole_second k :
  open_time_ms k mod 1000 = 0 ->
  -30610224000000 <= open_time_ms k <= 253402300799999 ->
  day_of k = Some (utc_date (open_time_ms k)).
Proof.
  intros Hmod Hrange. unfold day_of, ms_to_utc_iso.
  apply Z.div_exact in Hmod; [|lia].
  set (s := open_time_ms k / 1000) in *.
  rewrite Hmod, (Z.mul_comm 1000 s).
  change 1000 with (Zpos 1000).
  destruct (int_truediv_multiple s 1000) as (t & -> & Ht).
  { change (2 ^ 53) with 9007199254740992. lia. }
  cbn [obind]. rewrite (fromtimestamp_whole_second t s Ht) by lia.
  cbn [obind]. unfold strftime_iso, utc_date, us_per_second.
  rewrite Z.div_mul by lia.
  replace (s * Zpos 1000 / 86400000) with (s / 86400).
  - pose proof (civil_year_lower (s / 86400)) as Hy.
    destruct (civil_from_days (s / 86400)) as [[y m] d]. cbn [fst] in Hy.
    replace (y <? 1000) with false
      by (symmetry; apply Z.ltb_ge, Hy; Z.div_mod_to_equations; lia).
    reflexivity.
  - change 86400000 with (86400 * Zpos 1000).
    now rewrite Z.div_mul_cancel_r by lia.
Qed.

Lemma days_of_whole_second ks :
  whole_second_times ks ->
  days_of ks = Some (map (fun k => utc_date (open_time_ms k)) ks).
Proof.
  induction 1 as [|k ks [Hmod Hrange] _ IH]; [reflexivity|].
  cbn [days_of map]. now rewrite day_of_whole_second, IH.
Qed.

(** ** The retry loop *)

Section RetryFacts.
Variable tr : transport.
Variables (url : string) (params : Params) (timeout : Z).

Lemma retry_loop_all_retryable retries : forall (k : nat) (a : Z) (w : world),
  1 <= a -> a + Z.of_nat k = retries ->
  (forall i, (i <= k)%nat ->
     retryable (try_body (tr (calls w + i)%nat url params timeout)) = true) ->
  exists w',
    retry_loop tr url params timeout retries (py_range a (retries + 1)) w
      = (exhausted (try_body (tr (calls w + k)%nat url params timeout)), w')
    /\ calls w' = (calls w + S k)%nat
    /\ List.length (sleeps w') =
         (List.length (sleeps w) + (k +
           match try_body (tr (calls w + k)%nat url params timeout) with
           | Raise (HTTPError _) => 1 | _ => 0 end))%nat.
Proof.
  induction k as [|k IH]; intros a w Ha Hk Hall.
  - assert (a = retries) by lia. subst a.
    rewrite py_range_cons by lia. rewrite (py_range_nil (retries + 1)) by lia.
    specialize (Hall 0%nat (Nat.le_refl _)).
    rewrite Nat.add_0_r in *. cbn [retry_loop].
    destruct (try_body (tr (calls w) url params timeout)) as [d|e];
      [discriminate|].
    destruct e; try discriminate; cbn [retryable exhausted] in *.
    + rewrite Z.eqb_refl. eexists; split; [reflexivity|]. cbn. lia.
    + rewrite Z.eqb_refl. eexists; split; [reflexivity|]. cbn. lia.
    + rewrite Hall. eexists; split; [reflexivity|]. cbn. lia.
  - rewrite py_range_cons by lia.
    pose proof (Hall 0%nat (Nat.le_0_l _)) as H0.
    rewrite Nat.add_0_r in H0. cbn [retry_loop].
    assert (Hne : (a =? retries) = false) by (apply Z.eqb_neq; lia).
    set (w1 := sleep (IntSeconds (2 ^ a)) (called w)).
    destruct (IH (a + 1) w1) as (w' & Hrun & Hcalls & Hsl); [lia|lia| |].
    { intros i Hi. replace (calls w1 + i)%nat with (calls w + S i)%nat
        by (cbn; lia). apply Hall. lia. }
    replace (calls w1 + k)%nat with (calls w + S k)%nat in * by (cbn; lia).
    exists w'.
    destruct (try_body (tr (calls w) url params timeout)) as [d|e];
      [discriminate|].
    destruct e; try discriminate; cbn [retryable] in H0;
      rewrite ?Hne, ?H0; (split; [exact Hrun|]); cbn in *; lia.
Qed.

Lemma retry_loop_ok retries : forall attempts w data w',
  retry_loop tr url params timeout retries attempts w = (Ok data, w') ->
  data = [] \/ exists n, try_body (tr n url params timeout) = Ok data.
Proof.
  induction attempts as [|a rest IH]; intros w data w' H; cbn [retry_loop] in H.
  - left. congruence.
  - destruct (try_body (tr (calls w) url params timeout)) as [d|e] eqn:E.
    + right. exists (calls w). congruence.
    + destruct e; try discriminate.
      * destruct (a =? retries); [discriminate|]. eapply IH; eauto.
      * destruct (a =? retries); [discriminate|]. eapply IH; eauto.
      * destruct (is_429 status_code); [|discriminate]. eapply IH; eauto.
Qed.
End RetryFacts.

(** C3, at the input that breaks it: with three attempts allowed and a
    transport that always answers 429, [_request_with_retry] makes its three
    attempts, sleeps after each of them (2, 4 and 8 seconds), and then
    returns the empty list; it does not raise. *)
Theorem request_with_retry_429_returns_empty :
  _request_with_retry always_429 "u" some_params 20 3 world0
  = (Ok [], {| calls := 3;
               sleeps := [IntSeconds 8; IntSeconds 4; IntSeconds 2] |}).
Proof. reflexivity. Qed.

(** When every attempt fails with a retryable condition, exactly
    [retries] attempts are made; the error of the last attempt is raised
    again when it is a network error, and the empty list is returned when it
    is a 429. *)
Lemma request_with_retry_exhaustion tr url params timeout retries w :
  1 <= retries ->
  (forall i, (i < Z.to_nat retries)%nat ->
     retryable (try_body (tr (calls w + i)%nat url params timeout)) = true) ->
  exists w',
    _request_with_retry tr url params timeout retries w
      = (exhausted (try_body
           (tr (calls w + Z.to_nat retries - 1)%nat url params timeout)), w')
    /\ calls w' = (calls w + Z.to_nat retries)%nat.
Proof.
  intros Hr Hall. unfold _request_with_retry.
  destruct (retry_loop_all_retryable tr url params timeout retries
              (Z.to_nat retries - 1) 1 w) as (w' & Hrun & Hcalls & _);
    [lia|lia| |].
  - intros i Hi. apply Hall. lia.
  - exists w'.
    replace (calls w + Z.to_nat retries - 1)%nat
      with (calls w + (Z.to_nat retries - 1))%nat by lia.
    split; [exact Hrun|]. lia.
Qed.

(** C4: when the first attempt ends in an [HTTPError] whose status is not
    429, [_request_with_retry] raises that error after this one attempt: one
    call of the transport, nothing slept. *)
Theorem request_with_retry_http_error tr url params timeout retries w st :
  1 <= retries ->
  try_body (tr (calls w) url params timeout) = Raise (HTTPError st) ->
  is_429 st = false ->
  _request_with_retry tr url params timeout retries w
  = (Raise (HTTPError st), {| calls := S (calls w); sleeps := sleeps w |}).
Proof.
  intros Hr Hbody Hst. unfold _request_with_retry.
  rewrite py_range_cons by lia. cbn [retry_loop].
  rewrite Hbody, Hst. reflexivity.
Qed.

Lemma request_with_retry_http_error_witness :
  _request_with_retry always_404 "u" some_params 20 3 world0
  = (Raise (HTTPError (Some 404)), {| calls := 1; sleeps := [] |}).
Proof.
  apply (request_with_retry_http_error always_404 "u" some_params 20 3
           world0 (Some 404)); [lia | reflexivity | reflexivity].
Defined.

(** C10: with [retries] below 1 the loop has no iteration:
    [_request_with_retry] calls the transport not at all, sleeps not at all,
    and returns the empty list. *)
Theorem request_with_retry_no_attempt tr url params timeout retries w :
  retries < 1 ->
  _request_with_retry tr url params timeout retries w = (Ok [], w).
Proof.
  intros Hr. unfold _request_with_retry.
  rewrite py_range_nil by lia. reflexivity.
Qed.

Lemma request_with_retry_no_attempt_witness :
  _request_with_retry always_404 "u" some_params 20 0 world0 = (Ok [], world0).
Proof.
  apply (request_with_retry_no_attempt always_404 "u" some_params 20 0 world0).
  lia.
Defined.

(** ** Dictionaries keyed by open time *)

Section DedupFacts.
Variable Q : Kline -> Prop.

Lemma dict_set_keys (d : list (Z * Kline)) t k :
  dict_keys (dict_set Z.eqb d t k) = dict_keys d
  \/ (~ In t (dict_keys d) /\
      dict_keys (dict_set Z.eqb d t k) = dict_keys d ++ [t]).
Proof.
  induction d as [|[t' k'] d IH]; cbn.
  - right. split; [tauto | reflexivity].
  - destruct (Z.eqb_spec t' t) as [->|Hne]; cbn.
    + now left.
    + destruct IH as [IH|[Hnin IH]]; unfold dict_keys in *.
      * left. now rewrite IH.
      * right. split; [intros [?|?]; tauto | now rewrite IH].
Qed.

Lemma dict_set_NoDup (d : list (Z * Kline)) t k :
  NoDup (dict_keys d) -> NoDup (dict_keys (dict_set Z.eqb d t k)).
Proof.
  intros Hnd. destruct (dict_set_keys d t k) as [->|[Hnin ->]]; [assumption|].
  apply NoDup_app; [assumption | repeat constructor; intros [] | ].
  intros x Hx [<-|[]]. contradiction.
Qed.

Lemma dict_set_filed (d : list (Z * Kline)) k :
  filed Q d -> Q k -> filed Q (dict_set Z.eqb d (open_time_ms k) k).
Proof.
  unfold filed. intros Hd Hk.
  induction d as [|[t' k'] d IH]; cbn.
  - repeat constructor; assumption.
  - inversion Hd as [|? ? He Hd']; subst.
    destruct (Z.eqb_spec t' (open_time_ms k)) as [->|Hne].
    + constructor; [cbn; tauto | assumption].
    + constructor; [assumption | now apply IH].
Qed.

Lemma dedup_fold_inv out : forall d,
  Forall Q out -> NoDup (dict_keys d) -> filed Q d ->
  let d' := fold_left (fun d k => dict_set Z.eqb d (open_time_ms k) k) out d in
  NoDup (dict_keys d') /\ filed Q d'.
Proof.
  induction out as [|k out IH]; intros d Hout Hnd Hf; cbn.
  - tauto.
  - inversion Hout; subst.
    apply IH; [assumption | now apply dict_set_NoDup | now apply dict_set_filed].
Qed.

Lemma dict_get_In (d : list (Z * Kline)) t k :
  dict_get Z.eqb d t = Some k -> In (t, k) d.
Proof.
  induction d as [|[t' k'] d IH]; cbn; [discriminate|].
  destruct (Z.eqb_spec t' t) as [->|Hne]; intros H.
  - left. congruence.
  - right. now apply IH.
Qed.

Lemma dict_get_key (d : list (Z * Kline)) t :
  In t (dict_keys d) -> exists k, dict_get Z.eqb d t = Some k.
Proof.
  induction d as [|[t' k'] d IH]; cbn; [tauto|].
  destruct (Z.eqb_spec t' t) as [->|Hne]; intros H; [eauto|].
  apply IH. destruct H; [contradiction | assumption].
Qed.

Lemma lookup_all_ok (d : list (Z * Kline)) : forall ts ks,
  filed Q d -> lookup_all d ts = Ok ks ->
  map open_time_ms ks = ts /\ Forall Q ks.
Proof.
  unfold filed. intros ts ks Hf. revert ks.
  induction ts as [|t ts IH]; intros ks H; cbn in H.
  - injection H as <-. split; constructor.
  - destruct (dict_get Z.eqb d t) as [k|] eqn:Hk; [|discriminate].
    destruct (lookup_all d ts) as [ks'|e]; [|discriminate].
    injection H as <-. destruct (IH ks' eq_refl) as [Hm HQ].
    apply dict_get_In in Hk. rewrite Forall_forall in Hf.
    destruct (Hf _ Hk) as [Ht HQk]. cbn in *.
    split; [now rewrite Ht, Hm | now constructor].
Qed.

Lemma lookup_all_total (d : list (Z * Kline)) : forall ts,
  incl ts (dict_keys d) -> exists ks, lookup_all d ts = Ok ks.
Proof.
  induction ts as [|t ts IH]; intros Hin; cbn; [eauto|].
  destruct (dict_get_key d t) as [k ->]; [apply Hin; now left|].
  destruct IH as [ks ->]; [intros x Hx; apply Hin; now right|]. eauto.
Qed.
End DedupFacts.

(** ** [sorted] *)

Lemma sorted_perm l : Permutation l (sorted l).
Proof. apply ZSort.Permuted_sort. Qed.

Lemma sorted_le l : StronglySorted Z.le (sorted l).
Proof.
  assert (H : StronglySorted (fun x y => is_true (x <=? y)) (sorted l)).
  { apply ZSort.StronglySorted_sort.
    intros x y z Hxy Hyz. unfold is_true, ZOrder.leb in *.
    rewrite Z.leb_le in *. lia. }
  induction H as [|x s Hs IH Hx]; constructor; [assumption|].
  eapply Forall_impl; [|exact Hx].
  intros y Hy. now apply Z.leb_le.
Qed.

Lemma strictly_of_NoDup l :
  StronglySorted Z.le l -> NoDup l -> StronglySorted Z.lt l.
Proof.
  induction 1 as [|x s Hs IH Hx]; intros Hnd; constructor;
    inversion Hnd as [|? ? Hnin Hnd']; subst.
  - now apply IH.
  - rewrite Forall_forall in *. intros y Hy.
    specialize (Hx y Hy). assert (x <> y) by (intros ->; contradiction). lia.
Qed.

Lemma sorted_strict l : NoDup l -> StronglySorted Z.lt (sorted l).
Proof.
  intros Hnd. apply strictly_of_NoDup; [apply sorted_le|].
  eapply Permutation_NoDup; [apply sorted_perm | assumption].
Qed.

Lemma StronglySorted_lt_filter (f : Z -> bool) l :
  StronglySorted Z.lt l -> StronglySorted Z.lt (filter f l).
Proof.
  induction 1 as [|x s Hs IH Hx]; cbn; [constructor|].
  destruct (f x); [|assumption].
  constructor; [assumption|].
  rewrite Forall_forall in *. intros y Hy.
  apply filter_In in Hy. now apply Hx.
Qed.

Lemma StronglySorted_lt_NoDup l : StronglySorted Z.lt l -> NoDup l.
Proof.
  induction 1 as [|x s Hs IH Hx]; constructor; [|assumption].
  intros Hin. rewrite Forall_forall in Hx. specialize (Hx x Hin). lia.
Qed.

Lemma map_filter_open_time (f : Z -> bool) ks :
  map open_time_ms (filter (fun k => f (open_time_ms k)) ks)
  = filter f (map open_time_ms ks).
Proof.
  induction ks as [|k ks IH]; cbn; [reflexivity|].
  destruct (f (open_time_ms k)); cbn; now rewrite IH.
Qed.

(** ** [fetch_klines] *)

Lemma parse_row_open_time row k :
  parse_row row = Ok k -> open_time_ms k = row_0 row.
Proof.
  unfold parse_row. intros H.
  repeat match type of H with
         | match ?x with Some _ => _ | None => _ end = _ =>
             destruct x; [|discriminate]
         end.
  injection H as <-. reflexivity.
Qed.

Lemma parse_rows_spec (Q : Kline -> Prop) : forall data out out',
  parse_rows data out = Ok out' ->
  Forall Q out ->
  Forall (fun row => forall k, open_time_ms k = row_0 row -> Q k) data ->
  Forall Q out'.
Proof.
  induction data as [|row data IH]; intros out out' H Hout Hdata; cbn in H.
  - congruence.
  - destruct (parse_row row) as [k|e] eqn:Hk; [|discriminate].
    inversion Hdata as [|? ? Hrow Hdata']; subst.
    apply (IH _ _ H); [|assumption].
    apply Forall_app. split; [assumption|].
    constructor; [|constructor]. apply Hrow. now apply parse_row_open_time.
Qed.

Lemma honours_start_last_of tr : honours_start tr -> honours_start_last tr.
Proof.
  intros H n url p timeout row data' Hb.
  specialize (H n url p timeout _ Hb). rewrite Forall_forall in H.
  apply H. unfold last_open_of.
  destruct (exists_last (l := row :: data')) as (l' & a & E); [discriminate|].
  replace (last data' row) with (last (row :: data') row)
    by (destruct data'; reflexivity).
  rewrite E, last_last, <- E. rewrite E. apply in_or_app. right. now left.
Qed.

Section FetchFacts.
Variable tr : transport.
Variables (symbol interval : string) (start_ms end_ms timeout : Z).

Local Abbreviation paginate := (paginate tr symbol interval end_ms timeout).
Local Abbreviation finish := (finish end_ms).
Local Abbreviation fetch_klines :=
  (fetch_klines tr symbol interval start_ms end_ms timeout).
Local Abbreviation request next_start :=
  (_request_with_retry tr (BASE_URL ++ KLINES_PATH)%string
     (page_params symbol interval end_ms next_start) timeout 3).

(** The lines after the loop always yield a list: strictly increasing
    in open time, cut at [end_ms], and made of records of [out]. *)
Lemma finish_spec (Q : Kline -> Prop) out :
  Forall Q out ->
  exists ks,
    finish out = Ok ks
    /\ StronglySorted Z.lt (map open_time_ms ks)
    /\ Forall (fun k => open_time_ms k <= end_ms) ks
    /\ Forall Q ks.
Proof.
  intros Hout. unfold Exporter.finish.
  destruct (dedup_fold_inv Q out [] Hout) as [Hnd Hf];
    [constructor | constructor |].
  fold (dedup_of out) in Hnd, Hf.
  destruct (lookup_all_total (dedup_of out) (sorted (dict_keys (dedup_of out))))
    as [all Hall].
  { intros t Ht. eapply Permutation_in; [|exact Ht].
    apply Permutation_sym, sorted_perm. }
  rewrite Hall.
  destruct (lookup_all_ok Q _ _ _ Hf Hall) as [Hm HQ].
  eexists. split; [reflexivity|]. split; [|split].
  - rewrite (map_filter_open_time (fun t => t <=? end_ms)), Hm.
    apply StronglySorted_lt_filter. now apply sorted_strict.
  - apply Forall_forall. intros k Hk. apply filter_In in Hk.
    now apply Z.leb_le.
  - apply Forall_forall. intros k Hk. apply filter_In in Hk.
    rewrite Forall_forall in HQ. now apply HQ.
Qed.

(** One turn of the loop on a non-empty page that parses: the loop ends
    with this page (the world is the one the request left: nothing more is
    requested or slept) when the page is short or its last open time has
    reached [end_ms]; otherwise it goes on from the last open time plus
    one after the pause. *)
Lemma paginate_step fuel next_start out w row data' w1 out' :
  request next_start w = (Ok (row :: data'), w1) ->
  parse_rows (row :: data') out = Ok out' ->
  paginate (S fuel) next_start out w =
    if (end_ms <=? last_open_of row data') ||
       (Z.of_nat (List.length (row :: data')) <? limit)
    then Some (Ok out', w1)
    else paginate fuel (last_open_of row data' + 1) out'
           (sleep (FloatSeconds page_pause) w1).
Proof.
  intros Hreq Hparse. cbn [Exporter.paginate].
  rewrite Hreq, Hparse. reflexivity.
Qed.

(** With a transport that honours [startTime], the records gathered by
    the loop all open at or after the cursor it started from. *)
Lemma paginate_lower_bound : honours_start tr ->
  forall fuel next_start out w out' w',
    paginate fuel next_start out w = Some (Ok out', w') ->
    start_ms <= next_start ->
    Forall (fun k => start_ms <= open_time_ms k) out ->
    Forall (fun k => start_ms <= open_time_ms k) out'.
Proof.
  intros Hon. induction fuel as [|fuel IH];
    intros next_start out w out' w' H Hcur Hout; [discriminate|].
  cbn [Exporter.paginate] in H.
  destruct (request next_start w) as [[data|e] w1] eqn:Hreq; [|discriminate].
  destruct data as [|row data']; [congruence|].
  destruct (parse_rows (row :: data') out) as [out1|e] eqn:Hparse;
    [|discriminate].
  assert (Hrows : Forall (fun r => next_start <= row_0 r) (row :: data')).
  { apply retry_loop_ok in Hreq. destruct Hreq as [|[n Hn]]; [discriminate|].
    exact (Hon _ _ _ _ _ Hn). }
  assert (Hout1 : Forall (fun k => start_ms <= open_time_ms k) out1).
  { apply (parse_rows_spec _ _ _ _ Hparse Hout).
    eapply Forall_impl; [|exact Hrows]. cbn. intros r Hr k Hk. lia. }
  destruct ((end_ms <=? last_open_of row data') ||
            (Z.of_nat (List.length (row :: data')) <? limit)).
  - congruence.
  - apply (IH _ _ _ _ _ H); [|assumption].
    pose proof (honours_start_last_of tr Hon) as Hlast.
    apply retry_loop_ok in Hreq. destruct Hreq as [|[n Hn]]; [discriminate|].
    specialize (Hlast _ _ _ _ _ _ Hn). cbn in Hlast. lia.
Qed.

(** More fuel does not change a result. *)
Lemma paginate_fuel_mono : forall fuel fuel' next_start out w r,
  paginate fuel next_start out w = Some r -> (fuel <= fuel')%nat ->
  paginate fuel' next_start out w = Some r.
Proof.
  induction fuel as [|fuel IH]; intros fuel' next_start out w r H Hle;
    [discriminate|].
  destruct fuel' as [|fuel']; [lia|].
  cbn [Exporter.paginate] in *.
  destruct (request next_start w) as [[data|e] w1]; [|assumption].
  destruct data as [|row data']; [assumption|].
  destruct (parse_rows (row :: data') out) as [out1|e]; [|assumption].
  destruct ((end_ms <=? last_open_of row data') ||
            (Z.of_nat (List.length (row :: data')) <? limit));
    [assumption|].
  apply IH; [assumption | lia].
Qed.

(** With a transport whose pages end at or after the requested
    [startTime], the cursor grows at every turn and stays at most
    [end_ms]: the loop ends within [end_ms - next_start + 2] pages. *)
Lemma paginate_ends : honours_start_last tr ->
  forall fuel next_start out w,
    (Z.to_nat (end_ms - next_start + 1) < fuel)%nat ->
    exists r, paginate fuel next_start out w = Some r.
Proof.
  intros Hon. induction fuel as [|fuel IH]; intros next_start out w Hfuel;
    [lia|].
  cbn [Exporter.paginate].
  destruct (request next_start w) as [[data|e] w1] eqn:Hreq; [|eauto].
  destruct data as [|row data']; [eauto|].
  destruct (parse_rows (row :: data') out) as [out1|e]; [|eauto].
  destruct (Z.leb_spec end_ms (last_open_of row data')) as [Hge|Hlt];
    cbn [orb]; [eauto|].
  destruct (Z.of_nat (List.length (row :: data')) <? limit); [eauto|].
  apply IH.
  apply retry_loop_ok in Hreq. destruct Hreq as [|[n Hn]]; [discriminate|].
  specialize (Hon _ _ _ _ _ _ Hn). cbn in Hon. lia.
Qed.
End FetchFacts.

(** *** The sample transports *)

Lemma hourly_from_start_honours : honours_start hourly_from_start.
Proof.
  intros n url p timeout data H. unfold hourly_from_start in H.
  change (Ok (map hour_row
            (filter (fun t => t <=? p_endTime p)
               (map (fun i => p_startTime p + 3600000 * Z.of_nat i)
                  (seq 0 (Z.to_nat (p_limit p)))))) = Ok data) in H.
  injection H as <-.
  apply Forall_forall. intros row Hrow.
  apply in_map_iff in Hrow. destruct Hrow as (t & <- & Ht).
  apply filter_In in Ht. destruct Ht as [Ht _].
  apply in_map_iff in Ht. destruct Ht as (i & <- & _).
  change (p_startTime p <= p_startTime p + 3600000 * Z.of_nat i). lia.
Qed.

Lemma hourly_fetch :
  fetch_klines hourly_from_start "BTCUSDT" "1h" 0 7200000 10 1 world0
  = Some (Ok [hour_kline 0; hour_kline 3600000; hour_kline 7200000],
          {| calls := 1; sleeps := [] |}).
Proof. vm_compute. reflexivity. Qed.

(** *** C1 *)

(** C1, as the code has it: whatever the transport answers, a list
    returned by [fetch_klines] is strictly increasing in open time, has no
    open time twice, and holds no open time above [end_ms]; its open times
    are at least [start_ms] when the transport honours [startTime] (the code
    itself cuts at [end_ms] only). *)
Theorem fetch_klines_series tr symbol interval start_ms end_ms timeout
    fuel w ks w' :
  fetch_klines tr symbol interval start_ms end_ms timeout fuel w
    = Some (Ok ks, w') ->
  StronglySorted Z.lt (map open_time_ms ks)
  /\ NoDup (map open_time_ms ks)
  /\ Forall (fun k => open_time_ms k <= end_ms) ks
  /\ (honours_start tr -> Forall (fun k => start_ms <= open_time_ms k) ks).
Proof.
  unfold fetch_klines. intros H.
  destruct (paginate tr symbol interval end_ms timeout fuel start_ms [] w)
    as [[[out|e] w1]|] eqn:Hpag; try discriminate.
  injection H as Hfin <-.
  destruct (finish_spec end_ms (fun _ => True) out) as (ks' & Hks & Hs & Hend & _).
  { apply Forall_forall. trivial. }
  assert (ks' = ks) by congruence. subst ks'.
  repeat split; [assumption | now apply StronglySorted_lt_NoDup | assumption |].
  intros Hon.
  assert (Hout : Forall (fun k => start_ms <= open_time_ms k) out).
  { eapply (paginate_lower_bound tr symbol interval start_ms end_ms timeout Hon);
      [exact Hpag | lia | constructor]. }
  destruct (finish_spec end_ms _ out Hout) as (ks' & Hks' & _ & _ & Hlow).
  congruence.
Qed.

Lemma fetch_klines_series_witness :
  let ks := [hour_kline 0; hour_kline 3600000; hour_kline 7200000] in
  StronglySorted Z.lt (map open_time_ms ks)
  /\ NoDup (map open_time_ms ks)
  /\ Forall (fun k => open_time_ms k <= 7200000) ks
  /\ (honours_start hourly_from_start ->
      Forall (fun k => 0 <= open_time_ms k) ks).
Proof.
  exact (fetch_klines_series hourly_from_start "BTCUSDT" "1h" 0 7200000 10
           1 world0 _ _ hourly_fetch).
Defined.

(** C1 as stated fails: asked for the hour from 3600000 to 7200000,
    [fetch_klines] returns what the transport [two_rows] sent, and the
    record that opens at 0 is below [start_ms]. *)
Lemma fetch_klines_keeps_row_below_start :
  fetch_klines two_rows "BTCUSDT" "1h" 3600000 7200000 10 1 world0
  = Some (Ok [hour_kline 0; hour_kline 3600000],
          {| calls := 1; sleeps := [] |})
  /\ ~ Forall (fun k => 3600000 <= open_time_ms k <= 7200000)
         [hour_kline 0; hour_kline 3600000].
Proof.
  split; [vm_compute; reflexivity|].
  intros H. inversion H as [|? ? [H0 _] _]; subst. cbn in H0. lia.
Qed.

(** *** C2 *)

Lemma parse_rows_app : forall data out,
  parse_rows data out =
  match parse_rows data [] with
  | Ok ks => Ok (out ++ ks)
  | Raise e => Raise e
  end.
Proof.
  induction data as [|row data IH]; intros out; cbn.
  - now rewrite app_nil_r.
  - destruct (parse_row row) as [k|e]; [|reflexivity].
    rewrite (IH (out ++ [k])), (IH [k]).
    destruct (parse_rows data []); [|reflexivity].
    now rewrite <- app_assoc.
Qed.

Lemma full_page_parses :
  exists ks, parse_rows (hour_row 0 :: full_page_tail) [] = Ok ks.
Proof. eexists. vm_compute. reflexivity. Qed.

Lemma full_page_goes_on :
  (5000 <=? last_open_of (hour_row 0) full_page_tail)
  || (Z.of_nat (List.length (hour_row 0 :: full_page_tail)) <? limit) = false.
Proof. vm_compute. reflexivity. Qed.

Lemma same_full_page_never_ends : forall fuel next_start out w,
  paginate same_full_page "BTCUSDT" "1h" 5000 10 fuel next_start out w = None.
Proof.
  induction fuel as [|fuel IH]; intros next_start out w; [reflexivity|].
  destruct full_page_parses as [ks Hks].
  rewrite (paginate_step same_full_page "BTCUSDT" "1h" 5000 10 fuel next_start
             out w (hour_row 0) full_page_tail (called w) (out ++ ks)).
  - rewrite full_page_goes_on. apply IH.
  - reflexivity.
  - rewrite parse_rows_app, Hks. reflexivity.
Qed.

(** C2, as the code has it.  On a non-empty page that parses: when the
    page has fewer than 1000 rows or its last open time is at least
    [end_ms], the loop ends there and nothing more is requested; otherwise
    the next request starts at the last open time plus one.  That cursor is
    above the previous one, and the loop ends within
    [end_ms - start_ms + 2] requests, when the last row of every page opens
    at or after the [startTime] that was asked for. *)
Theorem paginate_terminates tr symbol interval start_ms end_ms timeout :
  (forall fuel next_start out w row data' w1 out',
     _request_with_retry tr (BASE_URL ++ KLINES_PATH)%string
       (page_params symbol interval end_ms next_start) timeout 3 w
       = (Ok (row :: data'), w1) ->
     parse_rows (row :: data') out = Ok out' ->
     (Z.of_nat (List.length (row :: data')) < 1000
      \/ end_ms <= last_open_of row data' ->
      paginate tr symbol interval end_ms timeout (S fuel) next_start out w
        = Some (Ok out', w1))
     /\ (1000 <= Z.of_nat (List.length (row :: data')) ->
         last_open_of row data' < end_ms ->
         paginate tr symbol interval end_ms timeout (S fuel) next_start out w
           = paginate tr symbol interval end_ms timeout fuel
               (last_open_of row data' + 1) out'
               (sleep (FloatSeconds page_pause) w1))
     /\ (honours_start_last tr -> next_start < last_open_of row data' + 1))
  /\ (honours_start_last tr ->
      forall w, exists r,
        fetch_klines tr symbol interval start_ms end_ms timeout
          (S (Z.to_nat (end_ms - start_ms + 1))) w = Some r).
Proof.
  split.
  - intros fuel next_start out w row data' w1 out' Hreq Hparse.
    rewrite (paginate_step tr symbol interval end_ms timeout fuel next_start
               out w row data' w1 out' Hreq Hparse).
    unfold limit. repeat split.
    + intros [Hshort|Hlast].
      * replace (Z.of_nat (List.length (row :: data')) <? 1000) with true
          by (symmetry; apply Z.ltb_lt; exact Hshort).
        now rewrite orb_true_r.
      * replace (end_ms <=? last_open_of row data') with true
          by (symmetry; apply Z.leb_le; exact Hlast).
        reflexivity.
    + intros Hfull Hlast.
      replace (Z.of_nat (List.length (row :: data')) <? 1000) with false
        by (symmetry; apply Z.ltb_ge; exact Hfull).
      replace (end_ms <=? last_open_of row data') with false
        by (symmetry; apply Z.leb_gt; exact Hlast).
      reflexivity.
    + intros Hon. apply retry_loop_ok in Hreq.
      destruct Hreq as [|[n Hn]]; [discriminate|].
      specialize (Hon _ _ _ _ _ _ Hn). cbn in Hon. lia.
  - intros Hon w. unfold fetch_klines.
    destruct (paginate_ends tr symbol interval end_ms timeout Hon
                (S (Z.to_nat (end_ms - start_ms + 1))) start_ms [] w)
      as [[[out|e] w1] Hr]; [lia| |]; rewrite Hr; eauto.
Qed.

Lemma paginate_terminates_witness :
  exists r,
    fetch_klines hourly_from_start "BTCUSDT" "1h" 0 7200000 10
      (S (Z.to_nat (7200000 - 0 + 1))) world0 = Some r.
Proof.
  exact (proj2 (paginate_terminates hourly_from_start "BTCUSDT" "1h"
                  0 7200000 10)
           (honours_start_last_of _ hourly_from_start_honours) world0).
Defined.

(** C2 as stated fails: the open times of [same_full_page] are bounded
    by 999, yet with [end_ms = 5000] the loop never ends: the cursor is 1000
    after the first page and 1000 again after every later one. *)
Lemma same_full_page_loops_forever :
  ~ exists fuel r,
      fetch_klines same_full_page "BTCUSDT" "1h" 0 5000 10 fuel world0 = Some r.
Proof.
  intros (fuel & r & H). unfold fetch_klines in H.
  now rewrite same_full_page_never_ends in H.
Qed.

(** ** [calc_metrics] *)

Section MetricsFacts.
Variable py_sum : list float -> float.

Lemma close_at_or_after_loop_spec target fallback_k : forall ks,
  reference_close target ks fallback_k
    (close_at_or_after_loop ks target (close fallback_k)).
Proof.
  induction ks as [|k ks IH]; cbn.
  - right. split; [constructor | reflexivity].
  - destruct (Z.leb_spec target (open_time_ms k)) as [Hge|Hlt].
    + left. exists k. split; [|reflexivity].
      exists [], ks. repeat split; [constructor | assumption].
    + destruct IH as [(k' & (before & after & -> & Hb & Hk') & ->)|[Hall ->]].
      * left. exists k'. split; [|reflexivity].
        exists (k :: before), after. repeat split; [now constructor | assumption].
      * right. split; [now constructor | reflexivity].
Qed.

Lemma pct_change_spec c_end c : window_change c_end c (pct_change c_end c).
Proof.
  unfold window_change, pct_change, truthy.
  destruct (PrimFloat.eqb c zero); cbn; split; congruence.
Qed.

Lemma day_loop_spec : forall ks days day_b day_q,
  days_of ks = Some days ->
  day_loop ks day_b day_q
  = Some (accumulate day_b (combine days (map volume ks)),
          accumulate day_q (combine days (map quote_volume ks))).
Proof.
  induction ks as [|k ks IH]; intros days day_b day_q H; cbn in H.
  - injection H as <-. reflexivity.
  - unfold day_of in H.
    destruct (ms_to_utc_iso (open_time_ms k)) as [iso|] eqn:Hiso;
      [|discriminate]. cbn [option_map] in H.
    destruct (days_of ks) as [ds|]; [|discriminate].
    injection H as <-. cbn [day_loop]. rewrite Hiso. cbn [obind].
    rewrite (IH ds) by reflexivity. reflexivity.
Qed.

Lemma days_present_snoc days d :
  days_present (days ++ [d]) =
  if existsb (String.eqb d) (days_present days) then days_present days
  else days_present days ++ [d].
Proof. unfold days_present. now rewrite fold_left_app. Qed.

Lemma existsb_eqb_In d (l : list string) :
  existsb (String.eqb d) l = true <-> In d l.
Proof.
  rewrite existsb_exists. split.
  - intros (x & Hx & E). apply String.eqb_eq in E. now subst.
  - intros H. exists d. split; [assumption | apply String.eqb_refl].
Qed.

Lemma days_present_NoDup days : NoDup (days_present days).
Proof.
  induction days as [|d days IH] using rev_ind; [constructor|].
  rewrite days_present_snoc.
  destruct (existsb (String.eqb d) (days_present days)) eqn:E; [assumption|].
  apply NoDup_app; [assumption | repeat constructor; intros [] |].
  intros x Hx [<-|[]].
  apply existsb_eqb_In in Hx. congruence.
Qed.

Lemma days_present_In days : forall d,
  In d (days_present days) <-> In d days.
Proof.
  induction days as [|d' days IH] using rev_ind; intros d; [reflexivity|].
  rewrite days_present_snoc, in_app_iff. cbn.
  destruct (existsb (String.eqb d') (days_present days)) eqn:E.
  - apply existsb_eqb_In in E. apply IH in E. rewrite IH.
    split; [tauto | intros [?|[<-|[]]]; assumption].
  - rewrite in_app_iff, IH. cbn. tauto.
Qed.
End MetricsFacts.

Section AccumulateFacts.
Variable py_sum : list float -> float.

Lemma dict_get_default_tabulated (f : string -> float) d : forall keys,
  dict_get_default String.eqb (map (fun x => (x, f x)) keys) d zero
  = if existsb (String.eqb d) keys then f d else zero.
Proof.
  unfold dict_get_default.
  induction keys as [|a keys IH]; cbn; [reflexivity|].
  rewrite (String.eqb_sym d a).
  destruct (String.eqb_spec a d) as [->|Hne]; cbn; [reflexivity | exact IH].
Qed.

Lemma dict_set_tabulated_present (f g : string -> float) d :
  forall keys, In d keys -> NoDup keys ->
  (forall x, x <> d -> g x = f x) ->
  dict_set String.eqb (map (fun x => (x, f x)) keys) d (g d)
  = map (fun x => (x, g x)) keys.
Proof.
  intros keys Hin Hnd Hg.
  induction keys as [|a keys IH]; cbn; [destruct Hin|].
  inversion Hnd as [|? ? Hnin Hnd']; subst.
  destruct (String.eqb_spec a d) as [->|Hne].
  - f_equal. apply map_ext_in. intros x Hx.
    rewrite Hg; [reflexivity | intros ->; contradiction].
  - rewrite (Hg a Hne). f_equal.
    apply IH; [destruct Hin; [contradiction | assumption] | assumption].
Qed.

Lemma dict_set_tabulated_absent (f g : string -> float) d :
  forall keys, ~ In d keys ->
  (forall x, x <> d -> g x = f x) ->
  dict_set String.eqb (map (fun x => (x, f x)) keys) d (g d)
  = map (fun x => (x, g x)) (keys ++ [d]).
Proof.
  intros keys Hnin Hg.
  induction keys as [|a keys IH]; cbn; [reflexivity|].
  destruct (String.eqb_spec a d) as [->|Hne]; [exfalso; apply Hnin; now left|].
  rewrite (Hg a Hne). f_equal.
  apply IH. intros H. apply Hnin. now right.
Qed.

Lemma day_total_snoc_same es d v :
  day_total d (es ++ [(d, v)]) = (day_total d es + v)%float.
Proof.
  unfold day_total, sum_left. rewrite filter_app, map_app, fold_left_app.
  cbn. now rewrite String.eqb_refl.
Qed.

Lemma day_total_snoc_other es d v x :
  x <> d -> day_total x (es ++ [(d, v)]) = day_total x es.
Proof.
  intros Hne. unfold day_total. rewrite filter_app. cbn.
  destruct (String.eqb_spec d x) as [->|_]; [contradiction|].
  now rewrite app_nil_r.
Qed.

Lemma day_total_absent es d : ~ In d (map fst es) -> day_total d es = zero.
Proof.
  intros Hnin. unfold day_total.
  replace (filter (fun e => String.eqb (fst e) d) es) with (@nil (string * float));
    [reflexivity|].
  symmetry. induction es as [|e es IH]; cbn; [reflexivity|].
  destruct (String.eqb_spec (fst e) d) as [E|_].
  - exfalso. apply Hnin. left. exact E.
  - apply IH. intros H. apply Hnin. now right.
Qed.

(** The dictionary the loop fills holds, for each day present and in
    the order of first appearance, the total of that day. *)
Lemma accumulate_spec : forall entries,
  accumulate [] entries
  = map (fun d => (d, day_total d entries)) (days_present (map fst entries)).
Proof.
  induction entries as [|[d v] es IH] using rev_ind; [reflexivity|].
  unfold accumulate in *. rewrite fold_left_app. cbn [fold_left fst snd].
  rewrite IH, map_app. cbn [map fst]. rewrite days_present_snoc.
  rewrite dict_get_default_tabulated.
  destruct (existsb (String.eqb d) (days_present (map fst es))) eqn:E.
  - rewrite <- day_total_snoc_same.
    apply (dict_set_tabulated_present
             (fun x => day_total x es) (fun x => day_total x (es ++ [(d, v)]))).
    + now apply existsb_eqb_In.
    + apply days_present_NoDup.
    + intros x Hx. now apply day_total_snoc_other.
  - assert (Hnin : ~ In d (map fst es)).
    { rewrite <- days_present_In, <- existsb_eqb_In. congruence. }
    rewrite <- (day_total_absent es d Hnin), <- day_total_snoc_same.
    apply (dict_set_tabulated_absent
             (fun x => day_total x es) (fun x => day_total x (es ++ [(d, v)]))).
    + rewrite days_present_In. exact Hnin.
    + intros x Hx. now apply day_total_snoc_other.
Qed.

Lemma day_average_spec entries :
  entries <> [] ->
  day_average py_sum (accumulate [] entries) = daily_mean py_sum entries.
Proof.
  intros Hne. rewrite accumulate_spec. unfold daily_mean, day_average.
  destruct (days_present (map fst entries)) as [|d0 ds] eqn:E.
  - exfalso. destruct entries as [|e es]; [contradiction|].
    assert (H : In (fst e) (days_present (map fst (e :: es))))
      by (apply days_present_In; now left).
    rewrite E in H. destruct H.
  - unfold dict_values. rewrite map_map, length_map. reflexivity.
Qed.

Lemma days_of_length : forall ks days,
  days_of ks = Some days -> List.length days = List.length ks.
Proof.
  induction ks as [|k ks IH]; intros days H; cbn in H.
  - now injection H as <-.
  - destruct (day_of k); [|discriminate].
    destruct (days_of ks) as [ds|]; [|discriminate].
    injection H as <-. cbn. f_equal. now apply IH.
Qed.

Lemma last_default_irrelevant (ks : list Kline) d1 d2 :
  ks <> [] -> last ks d1 = last ks d2.
Proof.
  induction ks as [|k ks IH]; intros H; [contradiction|].
  destruct ks as [|k' ks]; [reflexivity|].
  cbn [last] in *. apply IH. discriminate.
Qed.

(** The result of [calc_metrics] on a non-empty series whose days are
    all defined. *)
Lemma calc_metrics_spec symbol ks days k0 :
  ks <> [] -> days_of ks = Some days ->
  let last_k := last ks k0 in
  calc_metrics py_sum symbol ks
  = Some (pct_change (close last_k)
            (close_at_or_after_loop ks
               (open_time_ms last_k - 90 * 24 * 3600 * 1000)
               (close last_k)),
          pct_change (close last_k)
            (close_at_or_after_loop ks
               (open_time_ms last_k - 180 * 24 * 3600 * 1000)
               (close last_k)),
          daily_mean py_sum (combine days (map volume ks)),
          daily_mean py_sum (combine days (map quote_volume ks))).
Proof.
  intros Hne Hdays. cbv zeta. unfold calc_metrics.
  destruct ks as [|k ks'] eqn:Eks; [contradiction|]. rewrite <- Eks in *.
  rewrite (last_default_irrelevant ks k k0 Hne).
  rewrite (day_loop_spec ks days [] [] Hdays). cbn [obind].
  assert (Hlen := days_of_length _ _ Hdays).
  rewrite !day_average_spec; [reflexivity | |];
    intros H; apply (f_equal (@List.length _)) in H;
    rewrite length_combine, length_map, Hlen, Nat.min_id in H;
    subst ks; discriminate.
Qed.
End AccumulateFacts.

Lemma two_day_series_nonempty : two_day_series <> [].
Proof. discriminate. Qed.

Lemma two_day_series_whole_seconds : whole_second_times two_day_series.
Proof.
  apply Forall_forall. intros k Hk.
  apply in_map_iff in Hk. destruct Hk as (h & <- & Hh).
  apply in_seq in Hh. cbn [volume_kline open_time_ms]. split; [|lia].
  replace (Z.of_nat h * 3600000) with (Z.of_nat h * 3600 * 1000) by lia.
  apply Z.mod_mul. lia.
Qed.

Lemma combine_map_map {A B C} (f : A -> B) (g : A -> C) (l : list A) :
  combine (map f l) (map g l) = map (fun a => (f a, g a)) l.
Proof. induction l as [|a l IH]; cbn; [reflexivity | now rewrite IH]. Qed.

(** C6: on a non-empty series of candles that open on whole seconds (as
    the candles of an hourly series do), for the windows of 90 and 180
    days: the reference close is the close of the first record that opens at
    or after the open time of the last record minus the window, or the close
    of the last record when there is no such record; the change is
    [(end_close / reference_close - 1) * 100]; and it is not-a-number when
    the reference close is zero. *)
Theorem calc_metrics_price_change py_sum symbol ks k0 :
  ks <> [] -> whole_second_times ks ->
  let last_k := last ks k0 in
  exists c_90 c_180 ch90 ch180 avg_b avg_q,
    calc_metrics py_sum symbol ks = Some (ch90, ch180, avg_b, avg_q)
    /\ reference_close (open_time_ms last_k - 90 * (24 * 3600 * 1000))
         ks last_k c_90
    /\ window_change (close last_k) c_90 ch90
    /\ reference_close (open_time_ms last_k - 180 * (24 * 3600 * 1000))
         ks last_k c_180
    /\ window_change (close last_k) c_180 ch180.
Proof.
  intros Hne Hws last_k.
  pose proof (calc_metrics_spec py_sum symbol ks _ k0 Hne
                (days_of_whole_second ks Hws)) as H.
  cbv zeta in H. fold last_k in H.
  do 6 eexists. split; [exact H|].
  repeat split;
    first [ apply close_at_or_after_loop_spec | apply pct_change_spec ].
Qed.

Lemma calc_metrics_price_change_witness :
  let last_k := last two_day_series (volume_kline 0) in
  exists c_90 c_180 ch90 ch180 avg_b avg_q,
    calc_metrics sum_left "VOL"%string two_day_series
      = Some (ch90, ch180, avg_b, avg_q)
    /\ reference_close (open_time_ms last_k - 90 * (24 * 3600 * 1000))
         two_day_series last_k c_90
    /\ window_change (close last_k) c_90 ch90
    /\ reference_close (open_time_ms last_k - 180 * (24 * 3600 * 1000))
         two_day_series last_k c_180
    /\ window_change (close last_k) c_180 ch180.
Proof.
  exact (calc_metrics_price_change sum_left "VOL"%string two_day_series
           (volume_kline 0) two_day_series_nonempty
           two_day_series_whole_seconds).
Defined.

(** C7: on a non-empty series of candles that open on whole seconds the
    average daily base volume is the mean, over the UTC calendar days
    present, of the per-day sums of the base volume, and the average daily
    quote volume that of the quote volume; on the series of 24 hourly
    records at base volume 100 and quote volume 5000 followed by 24 at 200
    and 10000 they are 3600.0 and 180000.0, with either version of [sum]. *)
Theorem calc_metrics_daily_mean :
  (forall py_sum symbol ks,
     ks <> [] -> whole_second_times ks ->
     exists ch90 ch180,
       calc_metrics py_sum symbol ks
       = Some (ch90, ch180,
               daily_mean py_sum
                 (map (fun k => (utc_date (open_time_ms k), volume k)) ks),
               daily_mean py_sum
                 (map (fun k => (utc_date (open_time_ms k), quote_volume k))
                    ks)))
  /\ (exists ch90 ch180,
        calc_metrics sum_left "VOL"%string two_day_series
        = Some (ch90, ch180, 3600%float, 180000%float))
  /\ (exists ch90 ch180,
        calc_metrics sum_compensated "VOL"%string two_day_series
        = Some (ch90, ch180, 3600%float, 180000%float)).
Proof.
  split; [|split].
  - intros py_sum symbol ks Hne Hws.
    pose proof (calc_metrics_spec py_sum symbol ks _ (volume_kline 0) Hne
                  (days_of_whole_second ks Hws)) as H.
    cbv zeta in H. rewrite !combine_map_map in H. eauto.
  - do 2 eexists. vm_compute. reflexivity.
  - do 2 eexists. vm_compute. reflexivity.
Qed.

Lemma calc_metrics_daily_mean_witness :
  exists ch90 ch180,
    calc_metrics sum_left "VOL"%string two_day_series
    = Some (ch90, ch180,
            daily_mean sum_left
              (map (fun k => (utc_date (open_time_ms k), volume k))
                 two_day_series),
            daily_mean sum_left
              (map (fun k => (utc_date (open_time_ms k), quote_volume k))
                 two_day_series)).
Proof.
  exact (proj1 calc_metrics_daily_mean sum_left "VOL"%string two_day_series
           two_day_series_nonempty two_day_series_whole_seconds).
Defined.

(** C8: on the empty series [calc_metrics] returns four not-a-numbers:
    it returns (it does not raise), and none of the four is zero. *)
Theorem calc_metrics_empty py_sum symbol :
  calc_metrics py_sum symbol [] = Some (nan, nan, nan, nan)
  /\ is_nan nan = true
  /\ PrimFloat.eqb nan zero = false.
Proof. repeat split. Qed.

(** ** Prices as binary floating point *)

(** C5, at an input that breaks it: the open price
    [0.000000012345678901] of a row is stored as the binary64 number
    [7462504992045230 * 2^-79], which is not that decimal, and its cell in
    the CSV line reads [0.0000000123]. *)
Theorem parse_row_converts_to_binary :
  exists k,
    parse_row precise_row = Ok k
    /\ Prim2SF (open k) = S754_finite false 7462504992045230 (-79)
    /\ 7462504992045230 * 10 ^ 18 <> 12345678901 * 2 ^ 79
    /\ option_map (fun cells => nth 1 cells EmptyString) (csv_cells k)
       = Some "0.0000000123"%string.
Proof.
  eexists. split; [vm_compute; reflexivity|].
  split; [vm_compute; reflexivity|].
  split; [vm_compute; discriminate | vm_compute; reflexivity].
Qed.

(** ** Instants off the whole second

    A [datetime] with microseconds goes through two roundings on its way
    to milliseconds: the quotient by [10**6] and the product with [1000.0];
    [int] then drops the fraction. *)

(** *** Rounding in general *)

Lemma shr_1_m r : 0 <= shr_m r -> shr_m (shr_1 r) = shr_m r / 2.
Proof.
  destruct r as [m r s]. cbn [shr_m shr_1]. intros Hm.
  destruct m as [|p|p]; [reflexivity | | lia].
  destruct p as [p|p|]; cbn [shr_m].
  - rewrite Pos2Z.inj_xI. apply Z.div_unique with 1; lia.
  - rewrite Pos2Z.inj_xO. apply Z.div_unique with 0; lia.
  - reflexivity.
Qed.

Lemma iter_pos_shr_1_m p : forall r, 0 <= shr_m r ->
  shr_m (iter_pos shr_1 p r) = shr_m r / 2 ^ Zpos p.
Proof.
  assert (Hnn : forall q r, 0 <= shr_m r -> 0 <= shr_m r / 2 ^ Zpos q).
  { intros q r Hr. apply Z.div_pos; [assumption|]. apply Z.pow_pos_nonneg; lia. }
  assert (Hp2 : forall q, 0 < 2 ^ Zpos q) by (intros; apply Z.pow_pos_nonneg; lia).
  induction p as [p IH|p IH|]; intros r Hr; cbn [iter_pos].
  - assert (H0 : 0 <= shr_m (shr_1 r))
      by (rewrite shr_1_m by assumption; apply Z.div_pos; lia).
    assert (H1 := IH _ H0).
    assert (H : 0 <= shr_m (iter_pos shr_1 p (shr_1 r)))
      by (rewrite H1; now apply Hnn).
    rewrite (IH _ H), H1, shr_1_m, pow2_xI by assumption.
    pose proof (Hp2 p).
    rewrite !Z.div_div by nia. f_equal. lia.
  - assert (H1 := IH r Hr). assert (0 <= shr_m (iter_pos shr_1 p r))
      by (rewrite H1; now apply Hnn).
    rewrite (IH _ H), H1, pow2_xO.
    pose proof (Hp2 p).
    rewrite Z.div_div by lia. reflexivity.
  - change (2 ^ 1) with 2. now apply shr_1_m.
Qed.

Lemma shr_spec r e n :
  0 <= n -> 0 <= shr_m r ->
  shr_m (fst (shr r e n)) = shr_m r / 2 ^ n /\ snd (shr r e n) = e + n.
Proof.
  intros Hn Hr. unfold shr. destruct n as [|p|p]; [| |lia]; cbn [fst snd].
  - change (2 ^ 0) with 1. rewrite Z.div_1_r. split; lia.
  - split; [now apply iter_pos_shr_1_m | reflexivity].
Qed.

Lemma round_nearest_even_cases q l :
  round_nearest_even q l = q \/ round_nearest_even q l = q + 1.
Proof.
  unfold round_nearest_even. destruct l as [|[| |]]; auto.
  destruct (IntDef.Z.even q); auto.
Qed.

Lemma shr_m_of_loc m l : shr_m (shr_record_of_loc m l) = m.
Proof. destruct l as [|[| |]]; reflexivity. Qed.

(** A mantissa of 53 bits or more is rounded to 53 bits: to the quotient
    by the power of two that is shifted out, or to its successor. *)
Lemma binary_round_aux_cases sx (mx : positive) ex lx :
  52 <= Z.log2 (Zpos mx) ->
  -1074 <= ex + (Z.log2 (Zpos mx) - 52) ->
  ex + (Z.log2 (Zpos mx) - 52) + 1 <= 971 ->
  let nn := Z.log2 (Zpos mx) - 52 in
  let q := Zpos mx / 2 ^ nn in
  exists m e,
    binary_round_aux prec emax sx (Zpos mx) ex lx = S754_finite sx m e
    /\ 2 ^ 52 <= Zpos m < 2 ^ 53
    /\ 2 ^ 52 <= q < 2 ^ 53
    /\ ((e = ex + nn /\ (Zpos m = q \/ Zpos m = q + 1))
        \/ (e = ex + nn + 1 /\ Zpos m = 2 ^ 52 /\ q + 1 = 2 ^ 53)).
Proof.
  intros Hl Hlo Hhi nn q.
  pose proof (Z.log2_spec (Zpos mx) ltac:(lia)) as [Hmx1 Hmx2].
  assert (Hpn : 0 < 2 ^ nn) by (apply Z.pow_pos_nonneg; lia).
  assert (Hq : 2 ^ 52 <= q < 2 ^ 53).
  { replace (Z.log2 (Zpos mx)) with (52 + nn) in Hmx1 by (unfold nn; lia).
    replace (Z.succ (Z.log2 (Zpos mx))) with (53 + nn) in Hmx2
      by (unfold nn; lia).
    rewrite Z.pow_add_r in Hmx1, Hmx2 by lia. unfold q. split.
    - apply Z.div_le_lower_bound; lia.
    - apply Z.div_lt_upper_bound; lia. }
  unfold binary_round_aux, shr_fexp.
  rewrite Zdigits2_log2 by lia.
  unfold fexp, SpecFloat.emin, prec, emax.
  replace (Z.max (Z.log2 (Zpos mx) + 1 + ex - 53) (3 - 1024 - 53) - ex)
    with nn by (unfold nn; lia).
  destruct (shr_spec (shr_record_of_loc (Zpos mx) lx) ex nn) as [Hm He];
    [unfold nn; lia | rewrite shr_m_of_loc; lia |].
  rewrite shr_m_of_loc in Hm. fold q in Hm.
  destruct (shr (shr_record_of_loc (Zpos mx) lx) ex nn) as [rec' e'].
  cbn [fst snd] in Hm, He. subst e'. rewrite Hm.
  set (m' := round_nearest_even q (loc_of_shr_record rec')).
  assert (Hm' : m' = q \/ m' = q + 1) by apply round_nearest_even_cases.
  destruct (Z.eq_dec m' (2 ^ 53)) as [E53|N53].
  - rewrite E53. change (2 ^ 53) with 9007199254740992.
    change (Zdigits2 9007199254740992) with 54.
    replace (Z.max (54 + (ex + nn) - 53) (3 - 1024 - 53) - (ex + nn))
      with 1 by lia.
    unfold shr. cbn [SpecFloat.iter_pos].
    change (shr_1 (shr_record_of_loc 9007199254740992 loc_Exact))
      with {| shr_m := 4503599627370496; shr_r := false; shr_s := false |}.
    cbn [shr_m].
    replace (ex + nn + 1 <=? 1024 - 53) with true
      by (symmetry; apply Z.leb_le; unfold nn; lia).
    exists 4503599627370496%positive, (ex + nn + 1).
    split; [reflexivity|]. split; [change (2 ^ 52) with 4503599627370496;
      change (2 ^ 53) with 9007199254740992; lia|].
    split; [assumption|]. right. repeat split. lia.
  - assert (Hr : 2 ^ 52 <= m' < 2 ^ 53) by lia.
    rewrite Zdigits2_log2 by lia.
    rewrite (Z.log2_unique m' 52) by (change (Z.succ 52) with 53; lia).
    replace (Z.max (52 + 1 + (ex + nn) - 53) (3 - 1024 - 53) - (ex + nn))
      with 0 by lia.
    cbn [shr]. rewrite shr_m_of_loc.
    destruct m' as [|m|m] eqn:Em; try lia.
    replace (ex + nn <=? 1024 - 53) with true
      by (symmetry; apply Z.leb_le; unfold nn; lia).
    exists m, (ex + nn). split; [reflexivity|]. split; [lia|].
    split; [assumption|]. left. split; [reflexivity | lia].
Qed.

Lemma IZR_pow2 k : 0 <= k -> IZR (2 ^ k) = powerRZ 2 k.
Proof.
  intros Hk. rewrite <- (Z2Nat.id k Hk) at 1 2.
  now rewrite <- pow_IZR, pow_powerRZ.
Qed.

Lemma powerRZ_2_pos e : (0 < powerRZ 2 e)%R.
Proof. apply powerRZ_lt. lra. Qed.

Lemma powerRZ_2_add a b : powerRZ 2 (a + b) = (powerRZ 2 a * powerRZ 2 b)%R.
Proof. apply powerRZ_add. lra. Qed.

(** The rounded value lies on the grid of step [U] around the exact
    value [X]: it is one of the two neighbours of [X]. *)
Lemma binary_round_aux_near sx (mx : positive) ex lx :
  52 <= Z.log2 (Zpos mx) ->
  -1074 <= ex + (Z.log2 (Zpos mx) - 52) ->
  ex + (Z.log2 (Zpos mx) - 52) + 1 <= 971 ->
  exists m e (q : Z) (U : R),
    binary_round_aux prec emax sx (Zpos mx) ex lx = S754_finite sx m e
    /\ 2 ^ 52 <= Zpos m < 2 ^ 53
    /\ ex + (Z.log2 (Zpos mx) - 52) <= e <= ex + (Z.log2 (Zpos mx) - 52) + 1
    /\ (0 < U)%R
    /\ (4503599627370496 <= IZR q)%R
    /\ (IZR q * U <= IZR (Zpos mx) * powerRZ 2 ex)%R
    /\ ((IZR (Zpos mx) + 1) * powerRZ 2 ex <= (IZR q + 1) * U)%R
    /\ (F2R m e = IZR q * U \/ F2R m e = (IZR q + 1) * U)%R.
Proof.
  intros Hl Hlo Hhi.
  destruct (binary_round_aux_cases sx mx ex lx Hl Hlo Hhi)
    as (m & e & Hbra & Hm & Hq & Hcases).
  set (nn := Z.log2 (Zpos mx) - 52) in *.
  set (q := Zpos mx / 2 ^ nn) in *.
  assert (Hnn : 0 <= nn) by (unfold nn; lia).
  assert (Hpn : 0 < 2 ^ nn) by (apply Z.pow_pos_nonneg; lia).
  exists m, e, q, (powerRZ 2 (ex + nn)).
  split; [exact Hbra|]. split; [exact Hm|].
  split; [destruct Hcases as [[-> _]|[-> _]]; lia|].
  split; [apply powerRZ_2_pos|].
  pose proof (powerRZ_2_pos ex) as Hpe.
  pose proof (powerRZ_2_pos (ex + nn)) as HpU.
  assert (HU : powerRZ 2 (ex + nn) = (powerRZ 2 ex * IZR (2 ^ nn))%R)
    by (rewrite powerRZ_2_add, IZR_pow2 by assumption; reflexivity).
  assert (Hdiv := Z.div_mod (Zpos mx) (2 ^ nn) ltac:(lia)).
  assert (Hmod := Z.mod_pos_bound (Zpos mx) (2 ^ nn) Hpn).
  fold q in Hdiv.
  split; [|split; [|split]].
  - change 4503599627370496%R with (IZR (2 ^ 52)). apply IZR_le. lia.
  - rewrite HU.
    assert (IZR (q * 2 ^ nn) <= IZR (Zpos mx))%R by (apply IZR_le; lia).
    rewrite mult_IZR in H. nra.
  - rewrite HU.
    assert (IZR (Zpos mx + 1) <= IZR ((q + 1) * 2 ^ nn))%R
      by (apply IZR_le; lia).
    rewrite mult_IZR, !plus_IZR in H. nra.
  - unfold F2R. destruct Hcases as [[-> [-> | ->]]|(-> & -> & Hc)].
    + now left.
    + right. now rewrite plus_IZR.
    + right. replace (ex + nn + 1) with (ex + nn + 1) by lia.
      rewrite (powerRZ_2_add (ex + nn) 1).
      replace (IZR q + 1)%R with (IZR (2 ^ 53))
        by (rewrite <- Hc, plus_IZR; reflexivity).
      change (powerRZ 2 1) with (2 * 1)%R.
      change (2 ^ 53) with (2 ^ 52 * 2). rewrite mult_IZR. lra.
Qed.

Lemma normal_valid s (m : positive) e :
  2 ^ 52 <= Zpos m < 2 ^ 53 -> -1074 <= e <= 971 ->
  valid_binary (S754_finite s m e) = true.
Proof.
  intros Hm He. cbn [SpecFloat.valid_binary]. unfold bounded, canonical_mantissa.
  rewrite digits2_pos_log2.
  rewrite (Z.log2_unique (Zpos m) 52) by (change (Z.succ 52) with 53; lia).
  unfold fexp, SpecFloat.emin, prec, emax.
  apply andb_true_iff. split; [apply Z.eqb_eq | apply Z.leb_le]; lia.
Qed.

Lemma log2_between a lo hi :
  2 ^ lo <= a < 2 ^ hi -> 0 <= lo -> lo <= Z.log2 a < hi.
Proof.
  intros [H1 H2] Hlo.
  assert (0 < a) by (pose proof (Z.pow_pos_nonneg 2 lo); lia).
  split; [now apply Z.log2_le_pow2 | now apply Z.log2_lt_pow2].
Qed.

(** [timestamp()] of an instant that is not the epoch: the quotient by
    [10**6], rounded once. *)
Lemma round_ratio_second neg (n : positive) :
  Zpos n < 2 ^ 58 ->
  exists m e,
    Prim2SF (round_ratio neg (Zpos n) 1000000) = S754_finite neg m e
    /\ 2 ^ 52 <= Zpos m < 2 ^ 53
    /\ -72 <= e <= -13
    /\ (IZR (Zpos n) / 1000000 * (1 - / 4503599627370496) <= F2R m e
        <= IZR (Zpos n) / 1000000 * (1 + / 4503599627370496))%R.
Proof.
  intros Hn. unfold round_ratio.
  pose proof (Z.log2_spec (Zpos n) ltac:(lia)) as [Hn1 Hn2].
  pose proof (Z.log2_nonneg (Zpos n)) as Hl0.
  assert (Hl : Z.log2 (Zpos n) < 58) by (apply Z.log2_lt_pow2; lia).
  set (l := Z.log2 (Zpos n)) in *.
  change (Z.log2 1000000) with 19.
  replace (Z.max 0 (64 + 19 - l)) with (83 - l) by lia.
  rewrite Z.shiftl_mul_pow2 by lia.
  assert (Hps : 0 < 2 ^ (83 - l)) by (apply Z.pow_pos_nonneg; lia).
  assert (Hscaled : 2 ^ 83 <= Zpos n * 2 ^ (83 - l) < 2 ^ 84).
  { replace (2 ^ 83) with (2 ^ l * 2 ^ (83 - l))
      by (rewrite <- Z.pow_add_r by lia; f_equal; lia).
    replace (2 ^ 84) with (2 ^ Z.succ l * 2 ^ (83 - l))
      by (rewrite <- Z.pow_add_r by lia; f_equal; lia).
    nia. }
  pose proof (Z_div_mod (Zpos n * 2 ^ (83 - l)) 1000000 ltac:(lia)) as Hdm.
  destruct (Z.div_eucl (Zpos n * 2 ^ (83 - l)) 1000000) as [q0 r].
  destruct Hdm as [Hdm Hr].
  assert (Hq0 : 2 ^ 63 <= q0 < 2 ^ 65).
  { change (2 ^ 83) with (2 ^ 63 * 1048576) in Hscaled.
    change (2 ^ 84) with (2 ^ 65 * 524288) in Hscaled. lia. }
  destruct q0 as [|q0|q0]; try lia.
  pose proof (log2_between (Zpos q0) 63 65 Hq0 ltac:(lia)) as Hlq.
  destruct (binary_round_aux_near neg q0 (- (83 - l))
              (if r =? 0 then loc_Exact else loc_Inexact Lt))
    as (m & e & q & U & Hbra & Hm & He & HU & Hq & Hlow & Hupp & HV);
    [lia | lia | lia |].
  exists m, e. rewrite Hbra.
  rewrite Prim2SF_SF2Prim by (apply normal_valid; lia).
  split; [reflexivity|]. split; [exact Hm|]. split; [lia|].
  assert (HP : (IZR (2 ^ (83 - l)) * powerRZ 2 (- (83 - l)) = 1)%R).
  { rewrite IZR_pow2, <- powerRZ_2_add by lia.
    replace (83 - l + - (83 - l)) with 0 by lia. reflexivity. }
  pose proof (powerRZ_2_pos (- (83 - l))) as HPpos.
  set (P := powerRZ 2 (- (83 - l))) in *.
  set (S := IZR (2 ^ (83 - l))) in *.
  assert (HY1 : (IZR (Zpos q0) * 1000000 <= IZR (Zpos n) * S)%R).
  { unfold S. rewrite <- !mult_IZR. apply IZR_le. lia. }
  assert (HY2 : (IZR (Zpos n) * S < (IZR (Zpos q0) + 1) * 1000000)%R).
  { unfold S. rewrite <- plus_IZR, <- !mult_IZR. apply IZR_lt. lia. }
  assert (HY : (IZR q * U <= IZR (Zpos n) / 1000000
                /\ IZR (Zpos n) / 1000000 <= (IZR q + 1) * U)%R).
  { replace (IZR (Zpos n) / 1000000)%R
      with (IZR (Zpos n) * S * P / 1000000)%R
      by (rewrite Rmult_assoc, HP; lra).
    split.
    - apply Rle_trans with (IZR (Zpos q0) * P)%R; [exact Hlow|].
      apply Rmult_le_reg_r with 1000000%R; [lra|]. nra.
    - apply Rle_trans with ((IZR (Zpos q0) + 1) * P)%R; [|exact Hupp].
      apply Rmult_le_reg_r with 1000000%R; [lra|]. nra. }
  assert (HqU : (4503599627370496 * U <= IZR q * U)%R) by nra.
  destruct HV as [-> | ->]; lra.
Qed.

(** The product with [1000.0], rounded once. *)
Lemma mul_1000_near neg (m : positive) e :
  2 ^ 52 <= Zpos m < 2 ^ 53 -> -72 <= e <= -13 ->
  exists m2 e2,
    SF64mul (S754_finite neg m e) (S754_finite false 8796093022208000 (-43))
    = S754_finite neg m2 e2
    /\ 2 ^ 52 <= Zpos m2 < 2 ^ 53
    /\ e2 < 0
    /\ (1000 * F2R m e * (1 - / 4503599627370496) <= F2R m2 e2
        <= 1000 * F2R m e * (1 + / 4503599627370496))%R.
Proof.
  intros Hm He. unfold SF64mul. cbn [SFmul]. rewrite xorb_false_r.
  assert (Hprod : 2 ^ 104 <= Zpos (m * 8796093022208000) < 2 ^ 106).
  { rewrite Pos2Z.inj_mul.
    change (2 ^ 104) with (2 ^ 52 * 2 ^ 52).
    change (2 ^ 106) with (2 ^ 53 * 2 ^ 53).
    change (2 ^ 52) with 4503599627370496 in *.
    change (2 ^ 53) with 9007199254740992 in *. nia. }
  pose proof (log2_between _ 104 106 Hprod ltac:(lia)) as Hlq.
  destruct (binary_round_aux_near neg (m * 8796093022208000) (e + -43)
              loc_Exact)
    as (m2 & e2 & q & U & Hbra & Hm2 & He2 & HU & Hq & Hlow & Hupp & HV);
    [lia | lia | lia |].
  exists m2, e2. split; [exact Hbra|]. split; [exact Hm2|]. split; [lia|].
  assert (HX : (IZR (Zpos (m * 8796093022208000)) * powerRZ 2 (e + -43)
                = 1000 * F2R m e)%R).
  { unfold F2R. rewrite Pos2Z.inj_mul, mult_IZR, powerRZ_2_add.
    assert (Hc : (IZR 8796093022208000 * powerRZ 2 (-43) = 1000)%R).
    { change 8796093022208000 with (1000 * 2 ^ 43).
      rewrite mult_IZR, IZR_pow2, Rmult_assoc, <- powerRZ_2_add by lia.
      change (43 + -43) with 0. cbn [powerRZ]. lra. }
    rewrite <- Hc. ring. }
  rewrite HX in Hlow.
  pose proof (powerRZ_2_pos (e + -43)) as Hpp.
  assert (Hupp' : (1000 * F2R m e <= (IZR q + 1) * U)%R).
  { rewrite <- HX. apply Rle_trans with (2 := Hupp). nra. }
  assert (HqU : (4503599627370496 * U <= IZR q * U)%R) by nra.
  destruct HV as [-> | ->]; lra.
Qed.

(** [int(t.timestamp() * 1000)] is within a millisecond and a quarter
    of the instant: the two roundings err by less than a quarter of a
    millisecond, and [int] drops the fraction. *)
Lemma to_ms_near t :
  - 2 ^ 58 < t < 2 ^ 58 ->
  exists ms,
    to_ms t = Some ms
    /\ (0 <= t -> t - 1250 < 1000 * ms <= t + 250)
    /\ (t <= 0 -> t - 250 <= 1000 * ms < t + 1250).
Proof.
  intros Ht.
  assert (Hpos : forall neg (n : positive), Zpos n < 2 ^ 58 ->
            exists M,
              to_int (round_ratio neg (Zpos n) 1000000 * 1000)%float
              = Some (if neg then - M else M)
              /\ Zpos n - 1250 < 1000 * M <= Zpos n + 250).
  { intros neg n Hn.
    destruct (round_ratio_second neg n Hn) as (m & e & Hf & Hm & He & HV).
    destruct (mul_1000_near neg m e Hm He) as (m2 & e2 & Hmul & Hm2 & He2 & HV2).
    unfold to_int. rewrite mul_spec, Hf, Prim2SF_1000, Hmul.
    replace (0 <=? e2) with false by (symmetry; apply Z.leb_gt; lia).
    rewrite Z.shiftr_div_pow2 by lia.
    set (M := Zpos m2 / 2 ^ (- e2)).
    exists M. split; [reflexivity|].
    assert (Hp : 0 < 2 ^ (- e2)) by (apply Z.pow_pos_nonneg; lia).
    assert (Hdiv := Z.div_mod (Zpos m2) (2 ^ (- e2)) ltac:(lia)).
    assert (Hmod := Z.mod_pos_bound (Zpos m2) (2 ^ (- e2)) Hp).
    fold M in Hdiv.
    assert (HP : (IZR (2 ^ (- e2)) * powerRZ 2 e2 = 1)%R).
    { rewrite IZR_pow2, <- powerRZ_2_add by lia.
      replace (- e2 + e2) with 0 by lia. reflexivity. }
    pose proof (powerRZ_2_pos e2) as HPpos.
    assert (HM1 : (IZR M <= F2R m2 e2)%R).
    { unfold F2R.
      assert (IZR (M * 2 ^ (- e2)) <= IZR (Zpos m2))%R by (apply IZR_le; lia).
      rewrite mult_IZR in H.
      replace (IZR M) with (IZR M * (IZR (2 ^ (- e2)) * powerRZ 2 e2))%R
        by (rewrite HP; lra).
      nra. }
    assert (HM2 : (F2R m2 e2 < IZR M + 1)%R).
    { unfold F2R.
      assert (IZR (Zpos m2) < IZR ((M + 1) * 2 ^ (- e2)))%R
        by (apply IZR_lt; lia).
      rewrite mult_IZR, plus_IZR in H.
      replace (IZR M + 1)%R
        with ((IZR M + 1) * (IZR (2 ^ (- e2)) * powerRZ 2 e2))%R
        by (rewrite HP; lra).
      nra. }
    assert (Hn' : (0 < IZR (Zpos n) < 288230376151711744)%R).
    { split; [apply IZR_lt; lia|].
      change 288230376151711744%R with (IZR (2 ^ 58)). now apply IZR_lt. }
    split.
    - apply lt_IZR. rewrite minus_IZR, mult_IZR. lra.
    - apply le_IZR. rewrite plus_IZR, mult_IZR. lra. }
  unfold to_ms, timestamp, int_truediv, us_per_second. cbn [obind].
  destruct t as [|n|n].
  - exists 0. split; [vm_compute; reflexivity | lia].
  - change (Z.abs (Zpos n)) with (Zpos n). change (Zpos n <? 0) with false.
    destruct (Hpos false n ltac:(lia)) as (M & -> & HM).
    exists M. split; [reflexivity | lia].
  - change (Z.abs (Zneg n)) with (Zpos n). change (Zneg n <? 0) with true.
    destruct (Hpos true n ltac:(lia)) as (M & -> & HM).
    exists (- M). split; [reflexivity | lia].
Qed.

Lemma in_range_bound t : in_range t = true -> - 2 ^ 58 < t < 2 ^ 58.
Proof.
  unfold in_range. intros H. apply andb_true_iff in H. destruct H as [H1 H2].
  apply Z.leb_le in H1, H2.
  change min_datetime with (-62135596800000000) in H1.
  change max_datetime with 253402300799999999 in H2.
  change (2 ^ 58) with 288230376151711744. lia.
Qed.

(** The bounds of [get_range] when the end is the reading of the clock. *)
Lemma get_range_clock now days start start_dt start_ms end_ms :
  in_range now = true ->
  match given start with
  | Some s => parse_dt_utc s
  | None => obind (timedelta_days days) (fun delta => datetime_sub now delta)
  end = Some start_dt ->
  to_ms start_dt = Some start_ms ->
  to_ms now = Some end_ms ->
  now - 1250 < 1000 * end_ms < now + 1250
  /\ (given start = None ->
      -2 <= end_ms - start_ms - days * 86400000 <= 2
      /\ (0 <= start_dt -> 0 <= now ->
          -1 <= end_ms - start_ms - days * 86400000 <= 1)
      /\ (start_ms < end_ms <-> 1 <= days))
  /\ (given start <> None ->
      (start_dt + 1250 <= now -> start_ms < end_ms)
      /\ (start_ms < end_ms -> start_dt < now + 250)).
Proof.
  intros Hin Estart Esm Eem.
  destruct (to_ms_near now (in_range_bound now Hin)) as (em & Hem & Hep & Hen).
  assert (em = end_ms) by congruence. subst em.
  split; [lia|]. split.
  - intros Hg. rewrite Hg in Estart.
    unfold timedelta_days, datetime_sub, us_per_day, us_per_second in Estart.
    destruct (Z.abs days <=? 999999999); [|discriminate].
    cbn [obind] in Estart.
    destruct (in_range (now - days * (86400 * 1000000))) eqn:Hins;
      [|discriminate].
    assert (Es : start_dt = now - days * (86400 * 1000000)) by congruence.
    clear Estart. subst start_dt.
    destruct (to_ms_near _ (in_range_bound _ Hins))
      as (sm & Hsm & Hsp & Hsn).
    assert (sm = start_ms) by congruence. subst sm.
    assert (Hzero : days = 0 -> start_ms = end_ms).
    { intros ->. replace (now - 0 * (86400 * 1000000)) with now in Esm by lia.
      congruence. }
    split; [lia|]. split; [lia|].
    split; [|lia].
    intros Hlt. destruct (Z.eq_dec days 0) as [E|N]; [specialize (Hzero E)|];
      lia.
  - intros Hg. destruct (given start) as [s|]; [|contradiction].
    apply parse_dt_utc_whole in Estart. destruct Estart as (ss & -> & Hss).
    rewrite to_ms_whole_second in Esm by assumption.
    injection Esm as <-. split; lia.
Qed.

(** ** [get_range] *)

(** C9, as the code has it: the bounds that [get_range] returns are the
    millisecond values [int(timestamp() * 1000)] of two instants; the end
    instant is the parsed [end] or the reading of the clock, the start
    instant the parsed [start] or, when [start] is omitted, the end instant
    minus exactly [days] days, which is before the end instant exactly when
    [days] is at least 1.  An explicit bound is on a whole second and its
    millisecond value is exact: with an explicit [end] and no [start] the
    difference of the bounds is [days * 86400000] and [start_ms < end_ms]
    exactly when [days] is at least 1; with both explicit, [start_ms <
    end_ms] exactly when [start] is the earlier instant (the code does not
    compare them).  With the clock as end, the millisecond values come out
    of a float product that is truncated: [end_ms] is within 1.25 ms of the
    clock; with [start] omitted too, the difference of the bounds is
    [days * 86400000] up to 1 ms when both instants are at or after the
    epoch (up to 2 ms otherwise), and [start_ms < end_ms] exactly when
    [days] is at least 1; with an explicit [start], [start_ms < end_ms]
    when [start] is at least 1.25 ms before the clock, and only when it is
    less than 0.25 ms after it. *)
Theorem get_range_instants now days start end_ start_ms end_ms :
  get_range now days start end_ = Some (start_ms, end_ms) ->
  exists start_dt end_dt,
    to_ms start_dt = Some start_ms
    /\ to_ms end_dt = Some end_ms
    /\ (given end_ = None -> end_dt = now)
    /\ (forall s, given end_ = Some s -> parse_dt_utc s = Some end_dt)
    /\ (forall s, given start = Some s -> parse_dt_utc s = Some start_dt)
    /\ (given start = None ->
        end_dt - start_dt = days * 86400000000
        /\ (start_dt < end_dt <-> 1 <= days))
    /\ (given end_ <> None -> given start = None ->
        end_ms - start_ms = days * 86400000
        /\ (start_ms < end_ms <-> 1 <= days))
    /\ (given end_ <> None -> given start <> None ->
        (start_ms < end_ms <-> start_dt < end_dt))
    /\ (given end_ = None -> in_range now = true ->
        now - 1250 < 1000 * end_ms < now + 1250
        /\ (given start = None ->
            -2 <= end_ms - start_ms - days * 86400000 <= 2
            /\ (0 <= start_dt -> 0 <= now ->
                -1 <= end_ms - start_ms - days * 86400000 <= 1)
            /\ (start_ms < end_ms <-> 1 <= days))
        /\ (given start <> None ->
            (start_dt + 1250 <= now -> start_ms < end_ms)
            /\ (start_ms < end_ms -> start_dt < now + 250))).
Proof.
  unfold get_range. intros H.
  destruct (match given end_ with
            | Some s => parse_dt_utc s
            | None => Some now
            end) as [end_dt|] eqn:Eend; [|discriminate].
  cbn [obind] in H.
  destruct (match given start with
            | Some s => parse_dt_utc s
            | None => obind (timedelta_days days) (fun delta => datetime_sub end_dt delta)
            end) as [start_dt|] eqn:Estart; [|discriminate].
  cbn [obind] in H.
  destruct (to_ms start_dt) as [sm|] eqn:Esm; [|discriminate].
  destruct (to_ms end_dt) as [em|] eqn:Eem; [|discriminate].
  cbn [obind] in H. injection H as <- <-.
  exists start_dt, end_dt.
  split; [assumption|]. split; [assumption|].
  split; [|split; [|split; [|split; [|split; [|split]]]]].
  - intros Hg. rewrite Hg in Eend. congruence.
  - intros s Hg. now rewrite Hg in Eend.
  - intros s Hg. now rewrite Hg in Estart.
  - intros Hg. rewrite Hg in Estart.
    unfold timedelta_days, datetime_sub, us_per_day, us_per_second in Estart.
    destruct (Z.abs days <=? 999999999); [|discriminate]. cbn [obind] in Estart.
    destruct (in_range (end_dt - days * (86400 * 1000000))); [|discriminate].
    injection Estart as <-. split; [lia | split; lia].
  - intros Hge Hgs. rewrite Hgs in Estart.
    destruct (given end_) as [s|]; [|contradiction].
    apply parse_dt_utc_whole in Eend. destruct Eend as (se & -> & Hse).
    apply derived_start_whole in Estart. destruct Estart as [-> Hss].
    rewrite to_ms_whole_second in Esm, Eem by assumption.
    injection Esm as <-. injection Eem as <-. split; [lia | split; lia].
  - intros Hge Hgs.
    destruct (given end_) as [s|]; [|contradiction].
    destruct (given start) as [s'|]; [|contradiction].
    apply parse_dt_utc_whole in Eend. destruct Eend as (se & -> & Hse).
    apply parse_dt_utc_whole in Estart. destruct Estart as (ss & -> & Hss).
    rewrite to_ms_whole_second in Esm, Eem by assumption.
    injection Esm as <-. injection Eem as <-. split; lia.
  - intros Hg Hin. rewrite Hg in Eend.
    assert (end_dt = now) by congruence. subst end_dt.
    exact (get_range_clock now days start start_dt sm em Hin Estart Esm Eem).
Qed.

Lemma get_range_days_fallback :
  get_range 0 30 None (Some "2024-02-01"%string)
  = Some (1704153600000, 1706745600000).
Proof. vm_compute. reflexivity. Qed.

Lemma get_range_clock_default :
  get_range 2150000000002000 180 None None
  = Some (2134448000002, 2150000000001).
Proof. vm_compute. reflexivity. Qed.

Lemma get_range_instants_witness :
  exists start_dt end_dt,
    to_ms start_dt = Some 2134448000002
    /\ to_ms end_dt = Some 2150000000001
    /\ (given None = None -> end_dt = 2150000000002000)
    /\ (forall s, given None = Some s -> parse_dt_utc s = Some end_dt)
    /\ (forall s, given None = Some s -> parse_dt_utc s = Some start_dt)
    /\ (given None = None ->
        end_dt - start_dt = 180 * 86400000000
        /\ (start_dt < end_dt <-> 1 <= 180))
    /\ (given None <> None -> given None = None ->
        2150000000001 - 2134448000002 = 180 * 86400000
        /\ (2134448000002 < 2150000000001 <-> 1 <= 180))
    /\ (given None <> None -> given None <> None ->
        (2134448000002 < 2150000000001 <-> start_dt < end_dt))
    /\ (given None = None -> in_range 2150000000002000 = true ->
        2150000000002000 - 1250 < 1000 * 2150000000001
          < 2150000000002000 + 1250
        /\ (given None = None ->
            -2 <= 2150000000001 - 2134448000002 - 180 * 86400000 <= 2
            /\ (0 <= start_dt -> 0 <= 2150000000002000 ->
                -1 <= 2150000000001 - 2134448000002 - 180 * 86400000 <= 1)
            /\ (2134448000002 < 2150000000001 <-> 1 <= 180))
        /\ (given None <> None ->
            (start_dt + 1250 <= 2150000000002000 ->
             2134448000002 < 2150000000001)
            /\ (2134448000002 < 2150000000001 ->
                start_dt < 2150000000002000 + 250))).
Proof.
  exact (get_range_instants 2150000000002000 180 None None _ _
           get_range_clock_default).
Defined.

(** C9 as stated fails twice.  With the well-formed bounds
    [--start 2024-07-01 --end 2024-01-01] the result has [start_ms] above
    [end_ms].  With no explicit bound, 180 days, and the clock at
    2038-02-17 06:13:20.002 UTC, [end_ms] is one millisecond short of the
    clock and the difference is 15551999999, not 180 * 86400000. *)
Lemma get_range_unordered_and_inexact :
  get_range 0 180 (Some "2024-07-01"%string) (Some "2024-01-01"%string)
    = Some (1719792000000, 1704067200000)
  /\ ~ 1719792000000 < 1704067200000
  /\ get_range 2150000000002000 180 None None
     = Some (2134448000002, 2150000000001)
  /\ 2150000000001 - 2134448000002 <> 180 * 86400000.
Proof.
  split; [vm_compute; reflexivity|].
  split; [lia|].
  split; [vm_compute; reflexivity | lia].
Qed.

(** ** The retry loop: back-off *)

Lemma waits_S a j : waits a (S j) = waits (a + 1) j ++ [IntSeconds (2 ^ a)].
Proof.
  unfold waits. rewrite py_range_cons by lia.
  replace (a + 1 + Z.of_nat j) with (a + Z.of_nat (S j)) by lia.
  cbn [rev]. now rewrite map_app.
Qed.

Section BackoffFacts.
Variable tr : transport.
Variables (url : string) (params : Params) (timeout : Z) (retries : Z).

Local Abbreviation outcome n := (try_body (tr n url params timeout)).

(** [j] attempts in a row that fail and are retried: the loop goes on
    with the attempts that remain, after [j] calls and [j] waits. *)
Lemma retry_loop_retried : forall (j : nat) (a : Z) (w : world),
  (forall i, (i < j)%nat ->
     retryable (outcome (calls w + i)%nat) = true
     /\ (a + Z.of_nat i < retries
         \/ exists st, outcome (calls w + i)%nat = Raise (HTTPError st))) ->
  a + Z.of_nat j <= retries + 1 ->
  retry_loop tr url params timeout retries (py_range a (retries + 1)) w
  = retry_loop tr url params timeout retries
      (py_range (a + Z.of_nat j) (retries + 1)) (after_retries a j w).
Proof.
  induction j as [|j IH]; intros a w Hall Hj.
  - unfold after_retries, waits. change (Z.of_nat 0) with 0.
    rewrite Z.add_0_r, Nat.add_0_r, (py_range_nil a a) by lia.
    destruct w; reflexivity.
  - rewrite py_range_cons by lia.
    destruct (Hall 0%nat ltac:(lia)) as [Hr Hlast].
    rewrite Nat.add_0_r, ?Z.add_0_r in Hr, Hlast.
    cbn [retry_loop].
    set (w1 := sleep (IntSeconds (2 ^ a)) (called w)).
    assert (Hgo :
      match outcome (calls w) with
      | Ok data => (Ok data, called w)
      | Raise ConnectionError =>
          if a =? retries then (Raise ConnectionError, called w)
          else retry_loop tr url params timeout retries
                 (py_range (a + 1) (retries + 1)) w1
      | Raise Timeout =>
          if a =? retries then (Raise Timeout, called w)
          else retry_loop tr url params timeout retries
                 (py_range (a + 1) (retries + 1)) w1
      | Raise (HTTPError st) =>
          if is_429 st
          then retry_loop tr url params timeout retries
                 (py_range (a + 1) (retries + 1)) w1
          else (Raise (HTTPError st), called w)
      | Raise e => (Raise e, called w)
      end
      = retry_loop tr url params timeout retries
          (py_range (a + 1) (retries + 1)) w1).
    { destruct (outcome (calls w)) as [d|e]; [discriminate|].
      destruct e; try discriminate; cbn [retryable] in Hr.
      - destruct Hlast as [Hlt|[st Hst]]; [|discriminate].
        now replace (a =? retries) with false by (symmetry; apply Z.eqb_neq; lia).
      - destruct Hlast as [Hlt|[st Hst]]; [|discriminate].
        now replace (a =? retries) with false by (symmetry; apply Z.eqb_neq; lia).
      - now rewrite Hr. }
    fold w1. rewrite Hgo.
    rewrite (IH (a + 1) w1).
    + replace (a + 1 + Z.of_nat j) with (a + Z.of_nat (S j)) by lia.
      f_equal. unfold after_retries. rewrite waits_S, <- app_assoc.
      cbn. f_equal. lia.
    + intros i Hi. replace (calls w1 + i)%nat with (calls w + S i)%nat
        by (cbn; lia).
      destruct (Hall (S i) ltac:(lia)) as [Hr' Hl']. split; [assumption|].
      destruct Hl' as [Hl'|Hl']; [left; lia | now right].
    + lia.
Qed.

(** An attempt whose outcome is not retryable ends the loop with that
    outcome. *)
Lemma retry_loop_settled a rest w :
  retryable (outcome (calls w)) = false ->
  retry_loop tr url params timeout retries (a :: rest) w
  = (outcome (calls w), called w).
Proof.
  intros Hr. cbn [retry_loop].
  destruct (outcome (calls w)) as [d|e]; [reflexivity|].
  destruct e; try discriminate; try reflexivity.
  cbn [retryable] in Hr. now rewrite Hr.
Qed.
End BackoffFacts.

(** X1: when the first [j] attempts (with [j] below [retries]) fail in a
    way the loop retries (a connection error, a timeout or status 429) and
    the next attempt does not, [_request_with_retry] ends with the outcome of
    that attempt: it returns its data or raises its error, after [j + 1]
    calls of the transport and waits of 2, 4, ..., [2 ** j] seconds, in this
    order. *)
Theorem request_with_retry_recovers tr url params timeout retries w (j : nat) :
  Z.of_nat j < retries ->
  (forall i, (i < j)%nat ->
     retryable (try_body (tr (calls w + i)%nat url params timeout)) = true) ->
  retryable (try_body (tr (calls w + j)%nat url params timeout)) = false ->
  _request_with_retry tr url params timeout retries w
  = (try_body (tr (calls w + j)%nat url params timeout),
     {| calls := calls w + j + 1; sleeps := waits 1 j ++ sleeps w |}).
Proof.
  intros Hj Hall Hlast. unfold _request_with_retry.
  rewrite (retry_loop_retried tr url params timeout retries j 1 w).
  - rewrite py_range_cons by lia.
    rewrite retry_loop_settled by exact Hlast.
    cbn. f_equal. unfold called. cbn. f_equal. lia.
  - intros i Hi. split; [now apply Hall | left; lia].
  - lia.
Qed.

Lemma request_with_retry_recovers_witness :
  _request_with_retry fail_then_ok "u" some_params 10 3 world0
  = (Ok [hour_row 0], {| calls := 2; sleeps := [IntSeconds 2] |}).
Proof.
  apply (request_with_retry_recovers fail_then_ok "u" some_params 10 3
           world0 1).
  - lia.
  - intros i Hi. assert (i = 0%nat) by lia. subst i. reflexivity.
  - reflexivity.
Defined.

(** X2: when the attempts before the last are retried and the last of
    the [retries] attempts fails with a connection error or a timeout, that
    error is raised again, after exactly [retries] calls; the loop has
    waited after every attempt but the last. *)
Theorem request_with_retry_gives_up tr url params timeout retries w e :
  1 <= retries ->
  (forall i, (i < Z.to_nat retries - 1)%nat ->
     retryable (try_body (tr (calls w + i)%nat url params timeout)) = true) ->
  try_body (tr (calls w + (Z.to_nat retries - 1))%nat url params timeout)
    = Raise e ->
  e = ConnectionError \/ e = Timeout ->
  _request_with_retry tr url params timeout retries w
  = (Raise e,
     {| calls := calls w + Z.to_nat retries;
        sleeps := waits 1 (Z.to_nat retries - 1) ++ sleeps w |}).
Proof.
  intros Hr Hall Hlast He. unfold _request_with_retry.
  rewrite (retry_loop_retried tr url params timeout retries
             (Z.to_nat retries - 1) 1 w).
  - replace (1 + Z.of_nat (Z.to_nat retries - 1)) with retries by lia.
    rewrite py_range_cons, (py_range_nil (retries + 1)) by lia.
    cbn [retry_loop after_retries calls].
    rewrite Hlast.
    destruct He as [-> | ->]; rewrite Z.eqb_refl; unfold called; cbn;
      do 2 f_equal; lia.
  - intros i Hi. split; [now apply Hall | left; lia].
  - lia.
Qed.

Lemma request_with_retry_gives_up_witness :
  _request_with_retry always_down "u" some_params 10 2 world0
  = (Raise ConnectionError, {| calls := 2; sleeps := [IntSeconds 2] |}).
Proof.
  apply (request_with_retry_gives_up always_down "u" some_params 10 2
           world0 ConnectionError).
  - lia.
  - intros i Hi. reflexivity.
  - reflexivity.
  - left. reflexivity.
Defined.

Lemma total_snoc ws x : total_seconds (ws ++ [x]) = total_seconds ws + x.
Proof. unfold total_seconds. induction ws as [|y ws IH]; cbn in *; lia. Qed.

Lemma retry_loop_bounded tr url params timeout retries :
  forall (k : nat) (a : Z) (w : world),
  0 <= a ->
  exists ws,
    let w' := snd (retry_loop tr url params timeout retries
                     (py_range a (a + Z.of_nat k)) w) in
    sleeps w' = map IntSeconds ws ++ sleeps w
    /\ (calls w <= calls w' <= calls w + k)%nat
    /\ (List.length ws <= calls w' - calls w)%nat
    /\ total_seconds ws <= 2 ^ (a + Z.of_nat k) - 2 ^ a.
Proof.
  induction k as [|k IH]; intros a w Ha.
  - rewrite py_range_nil by lia. exists []. cbn.
    change (Z.of_nat 0) with 0. rewrite Z.add_0_r. repeat split; lia.
  - rewrite py_range_cons by lia.
    replace (a + Z.of_nat (S k)) with (a + 1 + Z.of_nat k) by lia.
    assert (Hmono : 2 ^ (a + 1) <= 2 ^ (a + 1 + Z.of_nat k))
      by (apply Z.pow_le_mono_r; lia).
    assert (Hdbl : 2 ^ (a + 1) = 2 * 2 ^ a)
      by (rewrite Z.pow_add_r by lia; lia).
    assert (Hpos : 0 < 2 ^ a) by (apply Z.pow_pos_nonneg; lia).
    assert (Hstop : exists ws,
      sleeps (called w) = map IntSeconds ws ++ sleeps w
      /\ (calls w <= calls (called w) <= calls w + S k)%nat
      /\ (List.length ws <= calls (called w) - calls w)%nat
      /\ total_seconds ws <= 2 ^ (a + 1 + Z.of_nat k) - 2 ^ a).
    { exists []. cbn. repeat split; lia. }
    assert (Hgo : exists ws,
      let w' := snd (retry_loop tr url params timeout retries
                       (py_range (a + 1) (a + 1 + Z.of_nat k))
                       (sleep (IntSeconds (2 ^ a)) (called w))) in
      sleeps w' = map IntSeconds ws ++ sleeps w
      /\ (calls w <= calls w' <= calls w + S k)%nat
      /\ (List.length ws <= calls w' - calls w)%nat
      /\ total_seconds ws <= 2 ^ (a + 1 + Z.of_nat k) - 2 ^ a).
    { destruct (IH (a + 1) (sleep (IntSeconds (2 ^ a)) (called w)))
        as (ws & Hs & Hc & Hl & Ht); [lia|].
      exists (ws ++ [2 ^ a]). cbv zeta in *.
      cbn [sleep called calls sleeps] in *.
      rewrite Hs, map_app, <- app_assoc, length_app, total_snoc.
      cbn [map app List.length]. repeat split; lia. }
    cbn [retry_loop].
    destruct (try_body (tr (calls w) url params timeout)) as [d|e];
      [exact Hstop|].
    destruct e; try exact Hstop.
    + destruct (a =? retries); [exact Hstop | exact Hgo].
    + destruct (a =? retries); [exact Hstop | exact Hgo].
    + destruct (is_429 status_code); [exact Hgo | exact Hstop].
Qed.

(** X3: whatever the transport does, [_request_with_retry] calls it at
    most [retries] times, waits at most once per call, always a whole number
    of seconds, and waits no more than [2 ** (retries + 1) - 2] seconds in
    total. *)
Theorem request_with_retry_bounded tr url params timeout retries w :
  0 <= retries ->
  exists ws,
    let w' := snd (_request_with_retry tr url params timeout retries w) in
    sleeps w' = map IntSeconds ws ++ sleeps w
    /\ (calls w <= calls w' <= calls w + Z.to_nat retries)%nat
    /\ (List.length ws <= calls w' - calls w)%nat
    /\ total_seconds ws <= 2 ^ (retries + 1) - 2.
Proof.
  intros Hr. unfold _request_with_retry.
  destruct (retry_loop_bounded tr url params timeout retries
              (Z.to_nat retries) 1 w) as (ws & H); [lia|].
  replace (1 + Z.of_nat (Z.to_nat retries)) with (retries + 1) in H by lia.
  exists ws. exact H.
Qed.

Lemma request_with_retry_bounded_witness :
  exists ws,
    let w' :=
      snd (_request_with_retry always_429 "u" some_params 20 3 world0) in
    sleeps w' = map IntSeconds ws ++ sleeps world0
    /\ (calls world0 <= calls w' <= calls world0 + Z.to_nat 3)%nat
    /\ (List.length ws <= calls w' - calls world0)%nat
    /\ total_seconds ws <= 2 ^ (3 + 1) - 2.
Proof.
  apply (request_with_retry_bounded always_429 "u" some_params 20 3 world0).
  lia.
Defined.

(** ** [fetch_klines]: rate limits, errors, and where the records come from *)

(** X4: a page whose three attempts are all answered with status 429
    ends the loop of [fetch_klines] as a page without rows does: the records
    gathered so far are the result of the loop and no error is raised, after
    three calls and waits of 2, 4 and 8 seconds. *)
Theorem paginate_rate_limited tr symbol interval end_ms timeout fuel
    next_start out w :
  (forall i, (i < 3)%nat ->
     exists st,
       try_body (tr (calls w + i)%nat (BASE_URL ++ KLINES_PATH)%string
                   (page_params symbol interval end_ms next_start) timeout)
         = Raise (HTTPError st)
       /\ is_429 st = true) ->
  paginate tr symbol interval end_ms timeout (S fuel) next_start out w
  = Some (Ok out,
          {| calls := calls w + 3;
             sleeps := IntSeconds 8 :: IntSeconds 4 :: IntSeconds 2
                       :: sleeps w |}).
Proof.
  intros Hall. cbn [paginate]. unfold _request_with_retry.
  rewrite (retry_loop_retried tr _ _ timeout 3 3 1 w).
  - reflexivity.
  - intros i Hi. destruct (Hall i Hi) as (st & Hst & H429).
    split; [rewrite Hst; exact H429 | right; eauto].
  - lia.
Qed.

Lemma paginate_rate_limited_witness :
  paginate always_429 "BTCUSDT" "1h" 3600000 10 1 0 [hour_kline 0] world0
  = Some (Ok [hour_kline 0],
          {| calls := 3;
             sleeps := [IntSeconds 8; IntSeconds 4; IntSeconds 2] |}).
Proof.
  apply (paginate_rate_limited always_429 "BTCUSDT" "1h" 3600000 10 0 0
           [hour_kline 0] world0).
  intros i Hi. exists (Some 429). split; reflexivity.
Defined.

(** The outcome of a request is the outcome of the last call it made,
    unless the loop fell through to [return []]. *)
Lemma retry_loop_last tr url params timeout retries :
  forall attempts w r w',
    retry_loop tr url params timeout retries attempts w = (r, w') ->
    r = Ok []
    \/ ((calls w < calls w')%nat
        /\ try_body (tr (pred (calls w')) url params timeout) = r).
Proof.
  induction attempts as [|a rest IH]; intros w r w' H; cbn [retry_loop] in H.
  - left. congruence.
  - assert (Hstop : forall r0,
              try_body (tr (calls w) url params timeout) = r0 ->
              (r0, called w) = (r, w') ->
              r = Ok []
              \/ ((calls w < calls w')%nat
                  /\ try_body (tr (pred (calls w')) url params timeout) = r)).
    { intros r0 E0 E. injection E as <- <-. right. cbn. split; [lia | exact E0]. }
    assert (Hgo : retry_loop tr url params timeout retries rest
                    (sleep (IntSeconds (2 ^ a)) (called w)) = (r, w') ->
              r = Ok []
              \/ ((calls w < calls w')%nat
                  /\ try_body (tr (pred (calls w')) url params timeout) = r)).
    { intros E. destruct (IH _ _ _ E) as [|[Hlt Hb]]; [now left|].
      right. cbn in Hlt. split; [lia | exact Hb]. }
    destruct (try_body (tr (calls w) url params timeout)) as [d|e] eqn:E;
      [now apply (Hstop (Ok d))|].
    destruct e; try (now apply (Hstop _ eq_refl)).
    + destruct (a =? retries); [now apply (Hstop _ eq_refl) | now apply Hgo].
    + destruct (a =? retries); [now apply (Hstop _ eq_refl) | now apply Hgo].
    + destruct (is_429 status_code); [now apply Hgo | now apply (Hstop _ eq_refl)].
Qed.

Lemma parse_rows_rows : forall data ks,
  parse_rows data [] = Ok ks ->
  Forall (fun k => exists row, In row data /\ parse_row row = Ok k) ks.
Proof.
  induction data as [|row data IH]; intros ks H; cbn in H.
  - injection H as <-. constructor.
  - destruct (parse_row row) as [k|e] eqn:Hk; [|discriminate].
    rewrite parse_rows_app in H.
    destruct (parse_rows data []) as [ks'|e]; [|discriminate].
    injection H as <-. constructor.
    + exists row. split; [now left | assumption].
    + eapply Forall_impl; [|apply IH; reflexivity].
      intros k' (r & Hr & Hp). exists r. split; [now right | assumption].
Qed.

Lemma parse_row_raise row e : parse_row row = Raise e -> e = ValueError.
Proof.
  unfold parse_row. intros H.
  repeat match type of H with
         | match ?x with Some _ => _ | None => _ end = _ => destruct x
         end; congruence.
Qed.

Lemma parse_rows_bad_row : forall data out e,
  parse_rows data out = Raise e ->
  exists row, In row data /\ parse_row row = Raise e.
Proof.
  induction data as [|row data IH]; intros out e H; cbn in H; [discriminate|].
  destruct (parse_row row) as [k|e0] eqn:Hk.
  - destruct (IH _ _ H) as (r & Hr & Hp). exists r. split; [now right|assumption].
  - exists row. split; [now left | congruence].
Qed.

Section TraceFacts.
Variable tr : transport.
Variables (symbol interval : string) (end_ms timeout : Z).

Local Abbreviation request cursor :=
  (_request_with_retry tr (BASE_URL ++ KLINES_PATH)%string
     (page_params symbol interval end_ms cursor) timeout 3).
Local Abbreviation answered_from c fuel w :=
  (answered tr symbol interval c end_ms timeout fuel w).

(** The request at the head of the loop is answered. *)
Lemma answered_here fuel c w r w1 :
  request c w = (r, w1) -> r <> Ok [] ->
  answered_from c (S fuel) w c r.
Proof.
  intros Hreq Hne. exists w, w1. split; [cbn [requests]; now left|].
  split; [exact Hreq|].
  destruct (retry_loop_last _ _ _ _ _ _ _ _ _ Hreq) as [|H];
    [contradiction | exact H].
Qed.

(** The requests that follow a page that goes on are requests of the
    fetch. *)
Lemma answered_later fuel c w row data' w1 ks cursor r :
  request c w = (Ok (row :: data'), w1) ->
  parse_rows (row :: data') [] = Ok ks ->
  (end_ms <=? last_open_of row data') ||
  (Z.of_nat (List.length (row :: data')) <? limit) = false ->
  answered_from (last_open_of row data' + 1) fuel
    (sleep (FloatSeconds page_pause) w1) cursor r ->
  answered_from c (S fuel) w cursor r.
Proof.
  intros Hreq Hparse Hgo (w0 & w2 & Hin & Hrest).
  exists w0, w2. split; [|exact Hrest].
  cbn [requests]. rewrite Hreq, Hparse, Hgo. now right.
Qed.

Lemma paginate_trace : forall fuel c out w r w',
  paginate tr symbol interval end_ms timeout fuel c out w = Some (r, w') ->
  match r with
  | Ok out' =>
      exists added,
        out' = out ++ added
        /\ Forall (fun k => exists cursor data row,
                     answered_from c fuel w cursor (Ok data)
                     /\ In row data /\ parse_row row = Ok k) added
  | Raise e =>
      (exists cursor data row,
         answered_from c fuel w cursor (Ok data)
         /\ In row data /\ parse_row row = Raise e)
      \/ (exists cursor, answered_from c fuel w cursor (Raise e))
  end.
Proof.
  induction fuel as [|fuel IH]; intros c out w r w' H; [discriminate|].
  cbn [paginate] in H.
  destruct (request c w) as [[data|e] w1] eqn:Hreq.
  - destruct data as [|row data'].
    + injection H as <- <-. exists []. split; [now rewrite app_nil_r|constructor].
    + assert (Hhere : answered_from c (S fuel) w c (Ok (row :: data')))
        by (eapply answered_here; [exact Hreq | discriminate]).
      rewrite parse_rows_app in H.
      destruct (parse_rows (row :: data') []) as [ks|e] eqn:Hparse.
      * assert (Hks : Forall (fun k => exists cursor data row,
                        answered_from c (S fuel) w cursor (Ok data)
                        /\ In row data /\ parse_row row = Ok k) ks).
        { eapply Forall_impl; [|exact (parse_rows_rows _ _ Hparse)].
          intros k (r0 & Hr0 & Hp). exists c, (row :: data'), r0. auto. }
        destruct ((end_ms <=? last_open_of row data') ||
                  (Z.of_nat (List.length (row :: data')) <? limit)) eqn:Hend.
        -- injection H as <- <-. exists ks. auto.
        -- specialize (IH _ _ _ _ _ H). destruct r as [out'|e].
           ++ destruct IH as (added & -> & Hadded).
              exists (ks ++ added). split; [now rewrite app_assoc|].
              apply Forall_app. split; [exact Hks|].
              eapply Forall_impl; [|exact Hadded].
              intros k (cur & d & r0 & Ha & Hr0 & Hp).
              exists cur, d, r0. split; [|auto].
              eapply answered_later; eassumption.
           ++ destruct IH as [(cur & d & r0 & Ha & Hr0 & Hp)|(cur & Ha)].
              ** left. exists cur, d, r0. split; [|auto].
                 eapply answered_later; eassumption.
              ** right. exists cur. eapply answered_later; eassumption.
      * injection H as <- <-. left.
        destruct (parse_rows_bad_row _ _ _ Hparse) as (r0 & Hr0 & Hp).
        exists c, (row :: data'), r0. auto.
  - injection H as <- <-. right. exists c.
    eapply answered_here; [exact Hreq | discriminate].
Qed.
End TraceFacts.

(** X5: for answers that are lists of rows of the endpoint's shape (the
    model's [Row]), an error raised by [fetch_klines] is either the
    [ValueError] with which [float] rejects a number text of a row in the
    answer to one of its requests, or the error with which one of its
    requests ended, which is the outcome of the last call that request
    made; the dictionary look-ups after the loop never raise. *)
Theorem fetch_klines_errors tr symbol interval start_ms end_ms timeout
    fuel w e w' :
  fetch_klines tr symbol interval start_ms end_ms timeout fuel w
    = Some (Raise e, w') ->
  (e = ValueError
   /\ exists cursor data row,
        answered tr symbol interval start_ms end_ms timeout fuel w cursor
          (Ok data)
        /\ In row data /\ parse_row row = Raise ValueError)
  \/ (exists cursor,
        answered tr symbol interval start_ms end_ms timeout fuel w cursor
          (Raise e)).
Proof.
  unfold fetch_klines. intros H.
  destruct (paginate tr symbol interval end_ms timeout fuel start_ms [] w)
    as [[[out|e0] w1]|] eqn:Hpag; try discriminate.
  - destruct (finish_spec end_ms (fun _ => True) out) as (ks & Hks & _);
      [apply Forall_forall; trivial|].
    rewrite Hks in H. discriminate.
  - injection H as <- <-.
    destruct (paginate_trace _ _ _ _ _ _ _ _ _ _ _ Hpag)
      as [(cur & d & r0 & Ha & Hr0 & Hp)|Ha]; [left | now right].
    pose proof (parse_row_raise _ _ Hp) as ->.
    split; [reflexivity|]. exists cur, d, r0. auto.
Qed.

Lemma fetch_klines_not_found :
  fetch_klines always_404 "BTCUSDT" "1h" 0 3600000 10 1 world0
  = Some (Raise (HTTPError (Some 404)), {| calls := 1; sleeps := [] |}).
Proof. reflexivity. Qed.

Lemma fetch_klines_errors_witness :
  (HTTPError (Some 404) = ValueError
   /\ exists cursor data row,
        answered always_404 "BTCUSDT" "1h" 0 3600000 10 1 world0 cursor
          (Ok data)
        /\ In row data /\ parse_row row = Raise ValueError)
  \/ (exists cursor,
        answered always_404 "BTCUSDT" "1h" 0 3600000 10 1 world0 cursor
          (Raise (HTTPError (Some 404)))).
Proof.
  exact (fetch_klines_errors always_404 "BTCUSDT" "1h" 0 3600000 10 1 world0
           _ _ fetch_klines_not_found).
Defined.

(** X6: every record that [fetch_klines] returns is the conversion of a
    row in the answer to one of the requests this fetch sent: the request
    is one the loop made, at its cursor and in its world, and the answer is
    the response to the last call of that request. *)
Theorem fetch_klines_provenance tr symbol interval start_ms end_ms timeout
    fuel w ks w' :
  fetch_klines tr symbol interval start_ms end_ms timeout fuel w
    = Some (Ok ks, w') ->
  Forall (received tr symbol interval start_ms end_ms timeout fuel w) ks.
Proof.
  unfold fetch_klines. intros H.
  destruct (paginate tr symbol interval end_ms timeout fuel start_ms [] w)
    as [[[out|e] w1]|] eqn:Hpag; try discriminate.
  injection H as Hfin <-.
  destruct (paginate_trace _ _ _ _ _ _ _ _ _ _ _ Hpag)
    as (added & Hout & Hadded).
  cbn [app] in Hout. subst added.
  destruct (finish_spec end_ms _ out Hadded) as (ks' & Hks' & _ & _ & Hrec).
  assert (ks' = ks) by congruence. subst ks'. exact Hrec.
Qed.

Lemma fetch_klines_provenance_witness :
  Forall (received hourly_from_start "BTCUSDT" "1h" 0 7200000 10 1 world0)
    [hour_kline 0; hour_kline 3600000; hour_kline 7200000].
Proof.
  exact (fetch_klines_provenance hourly_from_start "BTCUSDT" "1h" 0 7200000
           10 1 world0 _ _ hourly_fetch).
Defined.

(** A row that the transport would send only to a call the fetch never
    makes is not received. *)
Example late_row_not_received :
  fetch_klines late_row "BTCUSDT" "1h" 0 3600000 10 1 world0
  = Some (Ok [], {| calls := 1; sleeps := [] |})
  /\ ~ received late_row "BTCUSDT" "1h" 0 3600000 10 1 world0 (hour_kline 42).
Proof.
  split; [reflexivity|].
  intros (cursor & data & row & (w0 & w1 & Hin & Hreq & _) & Hrow & _).
  destruct Hin as [E|[]]. injection E as <- <-.
  assert (data = []) by (cbv in Hreq; congruence).
  subst data. destruct Hrow.
Qed.

(** ** [fetch_klines]: the lines after the loop *)

Lemma dict_get_set (d : list (Z * Kline)) t k t' :
  dict_get Z.eqb (dict_set Z.eqb d t k) t'
  = if t =? t' then Some k else dict_get Z.eqb d t'.
Proof.
  induction d as [|[t0 k0] d IH]; cbn; [reflexivity|].
  destruct (Z.eqb_spec t0 t) as [->|Hne]; cbn.
  - destruct (t =? t'); reflexivity.
  - rewrite IH. destruct (Z.eqb_spec t0 t') as [->|Hne'];
      [|reflexivity].
    now replace (t =? t') with false by (symmetry; apply Z.eqb_neq; congruence).
Qed.

(** After the loop [for k in out: dedup[k.open_time_ms] = k] the
    dictionary holds, for every open time, the last record of [out] that
    opens then. *)
Lemma dedup_of_latest out t : dict_get Z.eqb (dedup_of out) t = latest t out.
Proof.
  unfold dedup_of, latest.
  induction out as [|k out IH] using rev_ind; [reflexivity|].
  rewrite fold_left_app, rev_app_distr. cbn [fold_left rev app find].
  now rewrite dict_get_set, IH.
Qed.

Lemma latest_open_time t out k : latest t out = Some k -> open_time_ms k = t.
Proof.
  unfold latest. intros H. apply find_some in H. now apply Z.eqb_eq.
Qed.

Lemma lookup_all_In (d : list (Z * Kline)) : forall ts ks,
  lookup_all d ts = Ok ks ->
  forall k, In k ks <-> exists t, In t ts /\ dict_get Z.eqb d t = Some k.
Proof.
  induction ts as [|t ts IH]; intros ks H k; cbn in H.
  - injection H as <-. split; [intros [] | intros (t & [] & _)].
  - destruct (dict_get Z.eqb d t) as [k1|] eqn:Hk; [|discriminate].
    destruct (lookup_all d ts) as [ks'|e]; [|discriminate].
    injection H as <-. cbn [In]. rewrite (IH ks' eq_refl k). split.
    + intros [<-|(t' & Ht' & Hg)]; [exists t | exists t']; tauto.
    + intros (t' & [<-|Ht'] & Hg); [left; congruence | right; eauto].
Qed.

Lemma NoDup_map_inj {A B} (f : A -> B) (l : list A) x y :
  NoDup (map f l) -> In x l -> In y l -> f x = f y -> x = y.
Proof.
  induction l as [|a l IH]; cbn; [tauto|].
  intros Hnd Hx Hy E. inversion Hnd as [|? ? Hnin Hnd']; subst.
  destruct Hx as [->|Hx], Hy as [->|Hy]; [reflexivity | | |auto].
  - exfalso. apply Hnin. rewrite E. now apply in_map.
  - exfalso. apply Hnin. rewrite <- E. now apply in_map.
Qed.

(** Two lists with the same elements, both strictly increasing under a
    key, are equal. *)
Lemma increasing_unique {A} (f : A -> Z) : forall l1 l2 : list A,
  StronglySorted Z.lt (map f l1) -> StronglySorted Z.lt (map f l2) ->
  (forall x, In x l1 <-> In x l2) -> l1 = l2.
Proof.
  induction l1 as [|a1 l1 IH]; intros [|a2 l2] H1 H2 Hin.
  - reflexivity.
  - exfalso. apply (Hin a2). now left.
  - exfalso. apply (Hin a1). now left.
  - cbn in H1, H2. inversion H1 as [|? ? Hs1 Hf1]; subst.
    inversion H2 as [|? ? Hs2 Hf2]; subst.
    rewrite Forall_forall in Hf1, Hf2.
    assert (Hlt1 : forall x, In x l1 -> f a1 < f x)
      by (intros x Hx; apply Hf1; now apply in_map).
    assert (Hlt2 : forall x, In x l2 -> f a2 < f x)
      by (intros x Hx; apply Hf2; now apply in_map).
    assert (a1 = a2).
    { destruct (proj1 (Hin a1) (or_introl eq_refl)) as [E|Hx]; [congruence|].
      destruct (proj2 (Hin a2) (or_introl eq_refl)) as [E|Hy]; [congruence|].
      specialize (Hlt1 _ Hy). specialize (Hlt2 _ Hx). lia. }
    subst a2. f_equal. apply IH; [assumption | assumption |].
    intros x. split; intros Hx.
    + destruct (proj1 (Hin x) (or_intror Hx)) as [E|Hx']; [|assumption].
      subst x. specialize (Hlt1 _ Hx). lia.
    + destruct (proj2 (Hin x) (or_intror Hx)) as [E|Hx']; [|assumption].
      subst x. specialize (Hlt2 _ Hx). lia.
Qed.

Lemma latest_of_increasing out k :
  NoDup (map open_time_ms out) ->
  (latest (open_time_ms k) out = Some k <-> In k out).
Proof.
  intros Hnd. unfold latest. split; intros H.
  - apply find_some in H. apply in_rev. tauto.
  - destruct (find (fun k' => open_time_ms k' =? open_time_ms k) (rev out))
      as [k'|] eqn:E.
    + apply find_some in E. destruct E as [Hin E]. apply Z.eqb_eq in E.
      apply in_rev in Hin. f_equal.
      now apply (NoDup_map_inj open_time_ms out k' k).
    + apply in_rev in H. apply (find_none _ _ E) in H.
      rewrite Z.eqb_refl in H. discriminate.
Qed.

Lemma finish_In end_ms out ks :
  finish end_ms out = Ok ks ->
  forall k, In k ks <->
    open_time_ms k <= end_ms /\ latest (open_time_ms k) out = Some k.
Proof.
  intros Hks k. unfold finish in Hks.
  destruct (lookup_all (dedup_of out) (sorted (dict_keys (dedup_of out))))
    as [all|e] eqn:Hall; [|discriminate].
  injection Hks as <-.
  rewrite filter_In, (lookup_all_In _ _ _ Hall k), Z.leb_le.
  split.
  - intros [(t & _ & Hg) Hle]. split; [assumption|].
    rewrite dedup_of_latest in Hg.
    now rewrite (latest_open_time _ _ _ Hg).
  - intros [Hle Hl]. split; [|assumption].
    exists (open_time_ms k). rewrite dedup_of_latest. split; [|assumption].
    eapply Permutation_in; [apply sorted_perm|].
    rewrite <- dedup_of_latest in Hl. apply dict_get_In in Hl.
    unfold dict_keys. change (open_time_ms k) with (fst (open_time_ms k, k)).
    now apply in_map.
Qed.

(** X7: the lines after the loop always succeed; the list they give is
    strictly increasing in open time, and it holds exactly the records that
    open at or before [end_ms] and are the last of the gathered records to
    open at their time: of the records with one open time, the one received
    last is kept. *)
Theorem finish_keeps_latest end_ms out :
  exists ks,
    finish end_ms out = Ok ks
    /\ StronglySorted Z.lt (map open_time_ms ks)
    /\ forall k, In k ks <->
         open_time_ms k <= end_ms /\ latest (open_time_ms k) out = Some k.
Proof.
  destruct (finish_spec end_ms (fun _ => True) out) as (ks & Hks & Hs & _);
    [apply Forall_forall; trivial|].
  exists ks. split; [exact Hks|]. split; [exact Hs|].
  now apply finish_In.
Qed.

Lemma finish_increasing end_ms out :
  StronglySorted Z.lt (map open_time_ms out) ->
  Forall (fun k => open_time_ms k <= end_ms) out ->
  finish end_ms out = Ok out.
Proof.
  intros Hs Hle.
  destruct (finish_spec end_ms (fun _ => True) out) as (ks & Hks & Hsk & _);
    [apply Forall_forall; trivial|].
  pose proof (finish_In end_ms out ks Hks) as Hin.
  rewrite Hks. f_equal.
  apply (increasing_unique open_time_ms); [assumption | assumption |].
  intros k. rewrite Hin, latest_of_increasing
    by now apply StronglySorted_lt_NoDup.
  rewrite Forall_forall in Hle. split; [tauto|].
  intros Hk. split; [now apply Hle | assumption].
Qed.

(** X8: the lines after the loop leave a list unchanged that is already
    strictly increasing in open time and within [end_ms]; so applying them
    to their own result changes nothing. *)
Theorem finish_fixed_point end_ms :
  (forall out,
     StronglySorted Z.lt (map open_time_ms out) ->
     Forall (fun k => open_time_ms k <= end_ms) out ->
     finish end_ms out = Ok out)
  /\ (forall out ks, finish end_ms out = Ok ks -> finish end_ms ks = Ok ks).
Proof.
  split; [intros out; apply finish_increasing|].
  intros out ks Hks.
  destruct (finish_spec end_ms (fun _ => True) out)
    as (ks' & Hks' & Hs & Hle & _); [apply Forall_forall; trivial|].
  assert (ks' = ks) by congruence. subst ks'.
  now apply finish_increasing.
Qed.

Lemma finish_fixed_point_witness :
  finish 7200000 [hour_kline 0; hour_kline 3600000]
  = Ok [hour_kline 0; hour_kline 3600000].
Proof.
  apply (proj1 (finish_fixed_point 7200000)).
  - cbn [map hour_kline open_time_ms].
    repeat (constructor; [|repeat (constructor; try lia)]). constructor.
  - repeat (constructor; [cbn; lia|]). constructor.
Defined.

(** ** [fetch_klines] against an exchange that honours its parameters *)

Lemma increasing_app {A} (f : A -> Z) : forall l1 l2 : list A,
  StronglySorted Z.lt (map f (l1 ++ l2)) ->
  StronglySorted Z.lt (map f l1)
  /\ StronglySorted Z.lt (map f l2)
  /\ forall a b, In a l1 -> In b l2 -> f a < f b.
Proof.
  induction l1 as [|a1 l1 IH]; intros l2 H; cbn in H.
  - split; [constructor|]. split; [assumption | intros a b []].
  - inversion H as [|? ? Hs Hf]; subst.
    destruct (IH l2 Hs) as (Hs1 & Hs2 & Hlt).
    rewrite Forall_forall in Hf. split; [|split; [assumption|]].
    + constructor; [assumption|]. apply Forall_forall. intros y Hy.
      apply Hf. rewrite map_app. apply in_or_app. now left.
    + intros a b [<-|Ha] Hb; [|now apply Hlt].
      apply Hf, in_map, in_or_app. now right.
Qed.

Lemma last_cons {A} : forall (l : list A) a d, last (a :: l) d = last l a.
Proof.
  induction l as [|b l IH]; intros a d; [reflexivity|].
  change (last (a :: b :: l) d) with (last (b :: l) d).
  now rewrite (IH b d), (IH b a).
Qed.

Lemma increasing_last {A} (f : A -> Z) : forall (l : list A) a x,
  StronglySorted Z.lt (map f (a :: l)) -> In x (a :: l) ->
  f x <= f (last l a).
Proof.
  induction l as [|b l IH]; intros a x H Hx.
  - destruct Hx as [<-|[]]. cbn. lia.
  - cbn in H. inversion H as [|? ? Hs Hf]; subst.
    change (last (b :: l) a) with (last (a :: b :: l) a).
    rewrite last_cons, last_cons.
    destruct Hx as [<-|Hx].
    + inversion Hf as [|? ? Hab _]; subst.
      specialize (IH b b Hs (or_introl eq_refl)). lia.
    + now apply IH.
Qed.

Lemma map_filter_row_0 (f : Z -> bool) book :
  map row_0 (filter (fun r => f (row_0 r)) book) = filter f (map row_0 book).
Proof.
  induction book as [|r book IH]; cbn; [reflexivity|].
  destruct (f (row_0 r)); cbn; now rewrite IH.
Qed.

Lemma in_window_increasing lo hi book :
  StronglySorted Z.lt (map row_0 book) ->
  StronglySorted Z.lt (map row_0 (in_window lo hi book)).
Proof.
  intros H. unfold in_window.
  rewrite (map_filter_row_0 (fun t => (lo <=? t) && (t <=? hi))).
  now apply StronglySorted_lt_filter.
Qed.

Lemma in_window_In lo hi book r :
  In r (in_window lo hi book) <-> In r book /\ lo <= row_0 r <= hi.
Proof.
  unfold in_window. rewrite filter_In, andb_true_iff, !Z.leb_le. tauto.
Qed.

Lemma parse_rows_split : forall a b ks,
  parse_rows (a ++ b) [] = Ok ks ->
  exists ks1 ks2,
    parse_rows a [] = Ok ks1 /\ parse_rows b [] = Ok ks2 /\ ks = ks1 ++ ks2.
Proof.
  induction a as [|row a IH]; intros b ks H.
  - exists [], ks. auto.
  - cbn in H |- *. destruct (parse_row row) as [k|e]; [|discriminate].
    rewrite parse_rows_app in H. rewrite (parse_rows_app a [k]).
    destruct (parse_rows (a ++ b) []) as [ks'|e] eqn:E; [|discriminate].
    destruct (IH b ks' E) as (ks1 & ks2 & -> & H2 & ->).
    exists ([k] ++ ks1), ks2. injection H as <-.
    split; [reflexivity|]. split; [assumption | reflexivity].
Qed.

Lemma parse_rows_open_times : forall data ks,
  parse_rows data [] = Ok ks -> map open_time_ms ks = map row_0 data.
Proof.
  induction data as [|row data IH]; intros ks H; cbn in H.
  - now injection H as <-.
  - destruct (parse_row row) as [k|e] eqn:Hk; [|discriminate].
    rewrite parse_rows_app in H.
    destruct (parse_rows data []) as [ks'|e]; [|discriminate].
    injection H as <-. cbn. f_equal; [now apply parse_row_open_time|].
    now apply IH.
Qed.

Section ExchangeFacts.
Variable book : list Row.
Variables (symbol interval : string) (end_ms timeout : Z).
Hypothesis book_increasing : StronglySorted Z.lt (map row_0 book).

Lemma exchange_request s w :
  _request_with_retry (exchange book) (BASE_URL ++ KLINES_PATH)%string
    (page_params symbol interval end_ms s) timeout 3 w
  = (Ok (firstn (Z.to_nat limit) (in_window s end_ms book)), called w).
Proof. reflexivity. Qed.

(** The rows of a window behind its first page are the window that
    starts one millisecond after the page's last row. *)
Lemma in_window_next s row data' :
  firstn (Z.to_nat limit) (in_window s end_ms book) = row :: data' ->
  in_window (last_open_of row data' + 1) end_ms book
  = skipn (Z.to_nat limit) (in_window s end_ms book).
Proof.
  intros Hpage.
  pose proof (in_window_increasing s end_ms book book_increasing) as Hl.
  pose proof (firstn_skipn (Z.to_nat limit) (in_window s end_ms book))
    as Hsplit.
  rewrite Hpage in Hsplit. rewrite <- Hsplit in Hl.
  destruct (increasing_app row_0 _ _ Hl) as (Hpg & Hrest & Hlt).
  assert (Hx : In (last data' row) (row :: data')).
  { rewrite <- (last_cons data' row row).
    rewrite (app_removelast_last row (l := row :: data')) at 2 by discriminate.
    apply in_or_app. right. now left. }
  apply (increasing_unique row_0);
    [now apply in_window_increasing | assumption |].
  intros r. unfold last_open_of. rewrite in_window_In. split.
  - intros [Hb Hr].
    assert (Hin : In r (in_window s end_ms book)).
    { apply in_window_In. split; [assumption|].
      assert (In (last data' row) (in_window s end_ms book))
        by (rewrite <- Hsplit; apply in_or_app; now left).
      apply in_window_In in H. lia. }
    rewrite <- Hsplit in Hin. apply in_app_or in Hin.
    destruct Hin as [Hin|Hin]; [|assumption].
    pose proof (increasing_last row_0 data' row r Hpg Hin). lia.
  - intros Hr.
    assert (Hin : In r (in_window s end_ms book))
      by (rewrite <- Hsplit; apply in_or_app; now right).
    apply in_window_In in Hin. split; [tauto|].
    specialize (Hlt _ _ Hx Hr). lia.
Qed.

Lemma repeat_snoc {A} (a : A) n l : repeat a n ++ a :: l = repeat a (S n) ++ l.
Proof. induction n as [|n IH]; cbn in *; [reflexivity | now rewrite IH]. Qed.

Lemma paginate_exchange : forall fuel s out w ks,
  parse_rows (in_window s end_ms book) [] = Ok ks ->
  (List.length (in_window s end_ms book) < fuel)%nat ->
  exists w',
    paginate (exchange book) symbol interval end_ms timeout fuel s out w
    = Some (Ok (out ++ ks), w')
    /\ (calls w < calls w')%nat
    /\ Z.of_nat (calls w')
       <= Z.of_nat (calls w)
          + Z.of_nat (List.length (in_window s end_ms book)) / 1000 + 1
    /\ sleeps w'
       = repeat (FloatSeconds page_pause) (calls w' - calls w - 1) ++ sleeps w.
Proof.
  induction fuel as [|fuel IH]; intros s out w ks Hparse Hfuel; [lia|].
  cbn [paginate]. rewrite exchange_request.
  pose proof (firstn_skipn (Z.to_nat limit) (in_window s end_ms book))
    as Hsplit.
  assert (Hone : forall out' : list Kline,
    exists w',
      Some (Ok out', called w) = Some (Ok out', w')
      /\ (calls w < calls w')%nat
      /\ Z.of_nat (calls w')
         <= Z.of_nat (calls w)
            + Z.of_nat (List.length (in_window s end_ms book)) / 1000 + 1
      /\ sleeps w'
         = repeat (FloatSeconds page_pause) (calls w' - calls w - 1)
           ++ sleeps w).
  { intros out'. exists (called w). cbn [called calls sleeps].
    replace (S (calls w) - calls w - 1)%nat with 0%nat by lia.
    repeat split; [lia|].
    assert (0 <= Z.of_nat (List.length (in_window s end_ms book)) / 1000)
      by (apply Z.div_pos; lia).
    lia. }
  destruct (firstn (Z.to_nat limit) (in_window s end_ms book))
    as [|row data'] eqn:Hpage.
  - assert (Hnil : in_window s end_ms book = []).
    { destruct (in_window s end_ms book); [reflexivity | discriminate]. }
    rewrite Hnil in Hparse. injection Hparse as <-.
    rewrite app_nil_r. apply Hone.
  - rewrite <- Hsplit in Hparse.
    destruct (parse_rows_split _ _ _ Hparse) as (ks1 & ks2 & H1 & H2 & ->).
    rewrite parse_rows_app, H1.
    pose proof (in_window_next s row data' Hpage) as Hnext.
    destruct ((end_ms <=? last_open_of row data') ||
              (Z.of_nat (List.length (row :: data')) <? limit)) eqn:Hend.
    + assert (Hrest : skipn (Z.to_nat limit) (in_window s end_ms book) = []).
      { apply orb_true_iff in Hend. destruct Hend as [Hlast|Hshort].
        - apply Z.leb_le in Hlast. rewrite <- Hnext.
          destruct (in_window (last_open_of row data' + 1) end_ms book)
            as [|r l] eqn:E; [reflexivity|].
          assert (Hr : In r (in_window (last_open_of row data' + 1) end_ms
                               book)) by (rewrite E; now left).
          apply in_window_In in Hr. lia.
        - apply Z.ltb_lt in Hshort. apply skipn_all2.
          rewrite <- Hpage, length_firstn in Hshort. unfold limit in *. lia. }
      rewrite Hrest in H2. injection H2 as <-. rewrite app_nil_r. apply Hone.
    + apply orb_false_iff in Hend. destruct Hend as [Hlast Hfull].
      apply Z.ltb_ge in Hfull.
      rewrite <- Hpage, length_firstn in Hfull. unfold limit in Hfull.
      set (rest := skipn (Z.to_nat limit) (in_window s end_ms book)) in *.
      assert (Hlen : List.length (in_window s end_ms book)
                     = (1000 + List.length rest)%nat).
      { unfold rest. rewrite length_skipn. unfold limit. lia. }
      rewrite <- Hnext in H2.
      destruct (IH (last_open_of row data' + 1) (out ++ ks1)
                  (sleep (FloatSeconds page_pause) (called w)) ks2 H2)
        as (w' & Hw' & Hlt & Hle & Hsl).
      * rewrite Hnext. lia.
      * exists w'. rewrite Hw', app_assoc.
        cbn [sleep called calls sleeps] in Hlt, Hle, Hsl.
        rewrite Hnext in Hle.
        split; [reflexivity|]. split; [lia|]. split.
        -- rewrite Hlen.
           replace (Z.of_nat (1000 + List.length rest))
             with (Z.of_nat (List.length rest) + 1 * 1000) by lia.
           rewrite Z.div_add by lia. lia.
        -- rewrite Hsl, repeat_snoc. f_equal. f_equal. lia.
Qed.
End ExchangeFacts.

(** X9: against an exchange that answers every request with the rows of
    its book that open in [[startTime, endTime]], in increasing order of open
    time and cut after [limit] rows, [fetch_klines] returns exactly the rows
    of the book that open in [[start_ms, end_ms]], converted and in order,
    however many pages that takes.  It makes at least one request and at
    most one per thousand rows plus one, and it sleeps the pause of 0.15
    seconds between two pages and at no other time. *)
Theorem fetch_klines_whole_window book symbol interval start_ms end_ms
    timeout fuel w ks :
  StronglySorted Z.lt (map row_0 book) ->
  parse_rows (in_window start_ms end_ms book) [] = Ok ks ->
  (List.length (in_window start_ms end_ms book) < fuel)%nat ->
  exists w',
    fetch_klines (exchange book) symbol interval start_ms end_ms timeout
      fuel w = Some (Ok ks, w')
    /\ (calls w < calls w')%nat
    /\ Z.of_nat (calls w')
       <= Z.of_nat (calls w)
          + Z.of_nat (List.length (in_window start_ms end_ms book)) / 1000 + 1
    /\ sleeps w'
       = repeat (FloatSeconds page_pause) (calls w' - calls w - 1) ++ sleeps w.
Proof.
  intros Hbook Hparse Hfuel. unfold fetch_klines.
  destruct (paginate_exchange book symbol interval end_ms timeout Hbook
              fuel start_ms [] w ks Hparse Hfuel) as (w' & -> & Hcalls).
  exists w'. split; [|exact Hcalls]. cbn [app]. f_equal. f_equal.
  apply finish_increasing.
  - rewrite (parse_rows_open_times _ _ Hparse).
    now apply in_window_increasing.
  - apply Forall_forall. intros k Hk.
    apply (in_map open_time_ms) in Hk.
    rewrite (parse_rows_open_times _ _ Hparse) in Hk.
    apply in_map_iff in Hk. destruct Hk as (r & <- & Hr).
    apply in_window_In in Hr. lia.
Qed.

Lemma fetch_klines_whole_window_witness :
  let book := [hour_row 0; hour_row 3600000; hour_row 7200000;
               hour_row 10800000] in
  exists w',
    fetch_klines (exchange book) "BTCUSDT" "1h" 3600000 7200000 10 3 world0
    = Some (Ok [hour_kline 3600000; hour_kline 7200000], w')
    /\ (calls world0 < calls w')%nat
    /\ Z.of_nat (calls w')
       <= Z.of_nat (calls world0)
          + Z.of_nat (List.length (in_window 3600000 7200000 book)) / 1000 + 1
    /\ sleeps w'
       = repeat (FloatSeconds page_pause) (calls w' - calls world0 - 1)
         ++ sleeps world0.
Proof.
  apply (fetch_klines_whole_window
           [hour_row 0; hour_row 3600000; hour_row 7200000; hour_row 10800000]
           "BTCUSDT" "1h" 3600000 7200000 10 3 world0
           [hour_kline 3600000; hour_kline 7200000]).
  - repeat constructor; cbn; lia.
  - vm_compute. reflexivity.
  - cbn. lia.
Defined.

(** ** [calc_metrics]: the reference record *)

Lemma last_In {A} : forall (l : list A) d, l <> [] -> In (last l d) l.
Proof.
  induction l as [|a l IH]; intros d H; [contradiction|].
  destruct l as [|b l]; [now left|].
  right. apply IH. discriminate.
Qed.

(** X10: on a non-empty series of candles that open on whole seconds the
    reference close of each window is the close of a record of the series,
    the first that opens at or after the target.  The last record always
    qualifies, so the fall-back after the loop of [close_at_or_after] is
    never reached. *)
Theorem calc_metrics_reference_exists py_sum symbol ks k0 :
  ks <> [] -> whole_second_times ks ->
  let last_k := last ks k0 in
  exists k_90 k_180 avg_b avg_q,
    first_at_or_after (open_time_ms last_k - 90 * 24 * 3600 * 1000) ks k_90
    /\ first_at_or_after (open_time_ms last_k - 180 * 24 * 3600 * 1000) ks
         k_180
    /\ calc_metrics py_sum symbol ks
       = Some (pct_change (close last_k) (close k_90),
               pct_change (close last_k) (close k_180), avg_b, avg_q).
Proof.
  intros Hne Hws last_k.
  pose proof (calc_metrics_spec py_sum symbol ks _ k0 Hne
                (days_of_whole_second ks Hws)) as H.
  cbv zeta in H. fold last_k in H.
  assert (Href : forall window, 0 <= window ->
            exists k, first_at_or_after (open_time_ms last_k - window) ks k
                      /\ close_at_or_after_loop ks
                           (open_time_ms last_k - window) (close last_k)
                         = close k).
  { intros window Hw.
    destruct (close_at_or_after_loop_spec (open_time_ms last_k - window)
                last_k ks) as [(k & Hk & E)|[Hall _]]; [eauto|].
    exfalso. rewrite Forall_forall in Hall.
    specialize (Hall last_k (last_In ks k0 Hne)). lia. }
  destruct (Href (90 * 24 * 3600 * 1000) ltac:(lia)) as (k_90 & H90 & E90).
  destruct (Href (180 * 24 * 3600 * 1000) ltac:(lia)) as (k_180 & H180 & E180).
  rewrite E90, E180 in H. eauto 10.
Qed.

Lemma calc_metrics_reference_exists_witness :
  let last_k := last two_day_series (volume_kline 0) in
  exists k_90 k_180 avg_b avg_q,
    first_at_or_after (open_time_ms last_k - 90 * 24 * 3600 * 1000)
      two_day_series k_90
    /\ first_at_or_after (open_time_ms last_k - 180 * 24 * 3600 * 1000)
         two_day_series k_180
    /\ calc_metrics sum_left "VOL"%string two_day_series
       = Some (pct_change (close last_k) (close k_90),
               pct_change (close last_k) (close k_180), avg_b, avg_q).
Proof.
  exact (calc_metrics_reference_exists sum_left "VOL"%string two_day_series
           (volume_kline 0) two_day_series_nonempty
           two_day_series_whole_seconds).
Defined.

(** X11: when the first record of the series opens at or after the
    90-day target (the series spans 90 days at most), the 90-day and the
    180-day change are both the change from the close of the first record to
    the close of the last. *)
Theorem calc_metrics_short_history py_sum symbol k ks k0 :
  whole_second_times (k :: ks) ->
  open_time_ms (last (k :: ks) k0) - 90 * 24 * 3600 * 1000 <= open_time_ms k ->
  exists avg_b avg_q,
    calc_metrics py_sum symbol (k :: ks)
    = Some (pct_change (close (last (k :: ks) k0)) (close k),
            pct_change (close (last (k :: ks) k0)) (close k),
            avg_b, avg_q).
Proof.
  intros Hws Hshort.
  pose proof (calc_metrics_spec py_sum symbol (k :: ks) _ k0
                ltac:(discriminate) (days_of_whole_second _ Hws)) as H.
  cbv zeta in H. cbn [close_at_or_after_loop] in H.
  replace (open_time_ms (last (k :: ks) k0) - 90 * 24 * 3600 * 1000
           <=? open_time_ms k) with true in H
    by (symmetry; apply Z.leb_le; lia).
  replace (open_time_ms (last (k :: ks) k0) - 180 * 24 * 3600 * 1000
           <=? open_time_ms k) with true in H
    by (symmetry; apply Z.leb_le; lia).
  eauto.
Qed.

Lemma calc_metrics_short_history_witness :
  exists avg_b avg_q,
    calc_metrics sum_left "VOL"%string two_day_series
    = Some (pct_change (close (last two_day_series (volume_kline 0)))
              (close (volume_kline 0)),
            pct_change (close (last two_day_series (volume_kline 0)))
              (close (volume_kline 0)),
            avg_b, avg_q).
Proof.
  apply (calc_metrics_short_history sum_left "VOL"%string (volume_kline 0)
           (map volume_kline (seq 1 47)) (volume_kline 0)).
  - exact two_day_series_whole_seconds.
  - vm_compute. discriminate.
Defined.

(** ** Times: rendering and parsing *)

(** X12: for a whole second of the years 1000 to 9999, [ms_to_utc_iso]
    returns the text [YYYY-MM-DD HH:MM:SS] of that second: the float
    division by 1000 and [fromtimestamp] lose nothing.  The text has 19
    characters, and its first ten are the date. *)
Theorem ms_to_utc_iso_whole_second ms :
  ms mod 1000 = 0 ->
  -30610224000000 <= ms <= 253402300799999 ->
  ms_to_utc_iso ms = Some (utc_text ms)
  /\ String.length (utc_text ms) = 19%nat
  /\ substring 0 10 (utc_text ms) = utc_date ms.
Proof.
  intros Hmod Hrange. unfold ms_to_utc_iso, utc_text, utc_date.
  apply Z.div_exact in Hmod; [|lia].
  set (s := ms / 1000) in *.
  replace (ms / 86400000) with (s / 86400)
    by (unfold s; rewrite Z.div_div by lia; reflexivity).
  rewrite Hmod, (Z.mul_comm 1000 s).
  change 1000 with (Zpos 1000).
  destruct (int_truediv_multiple s 1000) as (t & -> & Ht).
  { change (2 ^ 53) with 9007199254740992. lia. }
  cbn [obind]. rewrite (fromtimestamp_whole_second t s Ht) by lia.
  cbn [obind]. unfold strftime_iso, us_per_second.
  rewrite Z.div_mul by lia.
  pose proof (civil_year_lower (s / 86400)) as Hy.
  destruct (civil_from_days (s / 86400)) as [[y m] d]. cbn [fst] in Hy.
  replace (y <? 1000) with false
    by (symmetry; apply Z.ltb_ge, Hy; Z.div_mod_to_equations; lia).
  repeat split.
Qed.

Lemma ms_to_utc_iso_whole_second_witness :
  ms_to_utc_iso 1718452800000 = Some (utc_text 1718452800000)
  /\ String.length (utc_text 1718452800000) = 19%nat
  /\ substring 0 10 (utc_text 1718452800000) = utc_date 1718452800000.
Proof.
  apply (ms_to_utc_iso_whole_second 1718452800000); [reflexivity | lia].
Defined.

Lemma strptime_date_midnight s t :
  strptime_date s = Some t ->
  exists days,
    t = days * 86400 * 1000000 /\ Z.abs (days * 86400) * 1000 < 2 ^ 53.
Proof.
  unfold strptime_date. intros H.
  destruct (first_full_match re_date s) as [[[y m] d]|]; [|discriminate].
  unfold make_datetime, us_per_second in H.
  destruct ((1 <=? y) && (y <=? 9999) && (1 <=? m) && (m <=? 12) &&
            (1 <=? d) && (d <=? days_in_month y m) &&
            (0 <=? 0) && (0 <=? 23) && (0 <=? 0) && (0 <=? 59) &&
            (0 <=? 0) && (0 <=? 59)) eqn:E; [|discriminate].
  injection H as <-.
  repeat (apply andb_true_iff in E; destruct E as [E ?]).
  repeat match goal with Hb : (_ <=? _) = true |- _ => apply Z.leb_le in Hb end.
  pose proof (days_in_month_le y m).
  pose proof (days_from_civil_bounds y m d ltac:(lia) ltac:(lia) ltac:(lia)).
  exists (days_from_civil y m d). split; [lia|].
  change (2 ^ 53) with 9007199254740992. lia.
Qed.

(** X13: bounds given as dates (without [T]) mean midnight UTC: when
    [get_range] returns for two such bounds, both values are multiples of
    86,400,000 ms, and they depend neither on the clock nor on the day
    count. *)
Theorem get_range_date_only now days s e start_ms end_ms :
  s <> EmptyString -> e <> EmptyString ->
  contains_char "T" s = false -> contains_char "T" e = false ->
  get_range now days (Some s) (Some e) = Some (start_ms, end_ms) ->
  start_ms mod 86400000 = 0
  /\ end_ms mod 86400000 = 0
  /\ forall now' days',
       get_range now' days' (Some s) (Some e) = Some (start_ms, end_ms).
Proof.
  intros Hs He HTs HTe H.
  assert (Hgs : given (Some s) = Some s)
    by (destruct s; [contradiction | reflexivity]).
  assert (Hge : given (Some e) = Some e)
    by (destruct e; [contradiction | reflexivity]).
  assert (Hall : forall now' days',
            get_range now' days' (Some s) (Some e)
            = get_range now days (Some s) (Some e)).
  { intros now' days'. unfold get_range. rewrite Hgs, Hge. reflexivity. }
  split; [|split; [|intros now' days'; now rewrite Hall]].
  all: unfold get_range in H; rewrite Hgs, Hge in H;
    unfold parse_dt_utc in H; rewrite HTs, HTe in H;
    destruct (strptime_date e) as [end_dt|] eqn:Ee; [|discriminate];
    cbn [obind] in H;
    destruct (strptime_date s) as [start_dt|] eqn:Es; [|discriminate];
    cbn [obind] in H;
    apply strptime_date_midnight in Ee, Es;
    destruct Ee as (de & -> & Hde), Es as (ds & -> & Hds);
    rewrite !to_ms_whole_second in H by assumption;
    cbn [obind] in H; injection H as <- <-.
  - replace (ds * 86400 * 1000) with (ds * 86400000) by lia.
    apply Z.mod_mul. lia.
  - replace (de * 86400 * 1000) with (de * 86400000) by lia.
    apply Z.mod_mul. lia.
Qed.

Lemma get_range_date_only_witness :
  1704067200000 mod 86400000 = 0
  /\ 1719792000000 mod 86400000 = 0
  /\ forall now' days',
       get_range now' days' (Some "2024-01-01"%string)
         (Some "2024-07-01"%string)
       = Some (1704067200000, 1719792000000).
Proof.
  apply (get_range_date_only 0 180 "2024-01-01" "2024-07-01");
    [discriminate | discriminate | reflexivity | reflexivity |].
  vm_compute. reflexivity.
Defined.

Lemma civil_month_day z :
  1 <= snd (fst (civil_from_days z)) <= 12
  /\ 1 <= snd (civil_from_days z) <= 31.
Proof.
  unfold civil_from_days. cbn [fst snd].
  match goal with |- context [if ?c <? 10 then _ else _] =>
    destruct (Z.ltb_spec c 10) end.
  all: Z.div_mod_to_equations; lia.
Qed.

Lemma days_from_civil_from_days z :
  let '(y, m, d) := civil_from_days z in days_from_civil y m d = z.
Proof.
  unfold civil_from_days, days_from_civil.
  match goal with |- context [if ?c <? 10 then _ else _] =>
    destruct (Z.ltb_spec c 10) end.
  - match goal with |- context [if ?c <=? 2 then _ else _] =>
      destruct (Z.leb_spec c 2) end.
    + Z.div_mod_to_equations; lia.
    + match goal with |- context [if 2 <? ?c then _ else _] =>
        destruct (Z.ltb_spec 2 c) end; [|lia].
      Z.div_mod_to_equations. lia.
  - match goal with |- context [if ?c <=? 2 then _ else _] =>
      destruct (Z.leb_spec c 2) end.
    + match goal with |- context [if 2 <? ?c then _ else _] =>
        destruct (Z.ltb_spec 2 c) end; [lia|].
      Z.div_mod_to_equations. lia.
    + Z.div_mod_to_equations; lia.
Qed.

Lemma civil_day_in_month z :
  let '(y, m, d) := civil_from_days z in d <= days_in_month y m.
Proof.
  unfold civil_from_days, days_in_month, is_leap.
  match goal with |- context [if ?c <? 10 then _ else _] =>
    destruct (Z.ltb_spec c 10) end.
  all: match goal with |- context [if ?c <=? 2 then _ else _] =>
      destruct (Z.leb_spec c 2) end.
  all: repeat match goal with
       | |- context [?a =? ?b] => destruct (Z.eqb_spec a b)
       end; cbn [andb orb negb].
  all: try (Z.div_mod_to_equations; lia).
Qed.

Lemma in_py_range lo hi k : lo <= k < hi -> In k (py_range lo hi).
Proof.
  intros H. unfold py_range. apply in_map_iff.
  exists (Z.to_nat (k - lo)). split; [lia|]. apply in_seq. lia.
Qed.

Lemma m_dig_digit k rest :
  0 <= k <= 9 -> m_dig "0" "9" (digit_char k :: rest) = [(k, rest)].
Proof.
  intros Hk.
  assert (H : Forall (fun k => forall rest,
                m_dig "0" "9" (digit_char k :: rest) = [(k, rest)])
                (py_range 0 10)) by (repeat constructor).
  rewrite Forall_forall in H. apply H, in_py_range. lia.
Qed.

Lemma re_Y_digits y rest :
  0 <= y <= 9999 -> re_Y (digits_fixed 4 y [] ++ rest) = [(y, rest)].
Proof.
  intros Hy. cbn [digits_fixed app].
  unfold re_Y, m_dig2, m_bind.
  rewrite m_dig_digit by (Z.div_mod_to_equations; lia).
  cbn [flat_map app].
  rewrite m_dig_digit by (Z.div_mod_to_equations; lia).
  cbn [flat_map app m_ret].
  rewrite m_dig_digit by (Z.div_mod_to_equations; lia).
  cbn [flat_map app].
  rewrite m_dig_digit by (Z.div_mod_to_equations; lia).
  cbn [flat_map app m_ret].
  do 2 f_equal. Z.div_mod_to_equations; lia.
Qed.

Lemma re_m_two_digits m rest :
  1 <= m <= 12 -> exists tl, re_m (two_digits m ++ rest) = (m, rest) :: tl.
Proof.
  intros Hm.
  assert (H : Forall (fun m => forall rest, exists tl,
                re_m (two_digits m ++ rest) = (m, rest) :: tl)
                (py_range 1 13))
    by (repeat (constructor; [intros; eexists; reflexivity|]); constructor).
  rewrite Forall_forall in H. apply H, in_py_range. lia.
Qed.

Lemma re_d_two_digits d rest :
  1 <= d <= 31 -> exists tl, re_d (two_digits d ++ rest) = (d, rest) :: tl.
Proof.
  intros Hd.
  assert (H : Forall (fun d => forall rest, exists tl,
                re_d (two_digits d ++ rest) = (d, rest) :: tl)
                (py_range 1 32))
    by (repeat (constructor; [intros; eexists; reflexivity|]); constructor).
  rewrite Forall_forall in H. apply H, in_py_range. lia.
Qed.

Lemma m_bind_head {A B} (p : matcher A) (f : A -> matcher B) s a s' tl b s'' :
  p s = (a, s') :: tl ->
  (exists tl', f a s' = (b, s'') :: tl') ->
  exists tl'', m_bind p f s = (b, s'') :: tl''.
Proof.
  intros Hp [tl' Hf]. unfold m_bind. rewrite Hp. cbn [flat_map]. rewrite Hf.
  cbn [app]. eauto.
Qed.

(** The first match of the date pattern on a rendered date, whatever
    follows it. *)
Lemma re_date_rendered y m d rest :
  0 <= y <= 9999 -> 1 <= m <= 12 -> 1 <= d <= 31 ->
  exists tl,
    re_date (digits_fixed 4 y [] ++ "-"%char :: two_digits m ++ "-"%char ::
             two_digits d ++ rest)
    = ((y, m, d), rest) :: tl.
Proof.
  intros Hy Hm Hd. unfold re_date.
  destruct (re_d_two_digits d rest Hd) as [tld Hrd].
  destruct (re_m_two_digits m ("-"%char :: two_digits d ++ rest) Hm)
    as [tlm Hrm].
  eapply m_bind_head; [apply re_Y_digits; assumption|].
  eapply m_bind_head; [reflexivity|].
  eapply m_bind_head; [exact Hrm|].
  eapply m_bind_head; [reflexivity|].
  eapply m_bind_head; [exact Hrd|].
  eexists. reflexivity.
Qed.

Lemma civil_year_upper z :
  z <= 2932896 -> fst (fst (civil_from_days z)) <= 9999.
Proof.
  intros Hz. unfold civil_from_days. cbn [fst].
  match goal with |- context [if ?c <? 10 then _ else _] =>
    destruct (Z.ltb_spec c 10) end;
  match goal with |- context [if ?c <=? 2 then _ else _] =>
    destruct (Z.leb_spec c 2) end;
  Z.div_mod_to_equations; lia.
Qed.

(** The date of a day of the years 1000 to 9999 is a valid argument of
    the [datetime] constructor, which gives the midnight of that day. *)
Lemma make_datetime_civil z y m d :
  civil_from_days z = (y, m, d) -> -354285 <= z <= 2932896 ->
  make_datetime y m d 0 0 0 = Some (z * 86400 * 1000000).
Proof.
  intros E Hz.
  pose proof (civil_year_lower z ltac:(lia)) as Hlo.
  pose proof (civil_year_upper z ltac:(lia)) as Hhi.
  pose proof (civil_month_day z) as Hmd.
  pose proof (civil_day_in_month z) as Hdim.
  pose proof (days_from_civil_from_days z) as Hback.
  rewrite E in *. cbn [fst snd] in *.
  unfold make_datetime, us_per_second.
  replace ((1 <=? y) && (y <=? 9999) && (1 <=? m) && (m <=? 12) &&
           (1 <=? d) && (d <=? days_in_month y m) &&
           (0 <=? 0) && (0 <=? 23) && (0 <=? 0) && (0 <=? 59) &&
           (0 <=? 0) && (0 <=? 59)) with true.
  - rewrite Hback. f_equal. lia.
  - symmetry. rewrite !andb_true_iff, !Z.leb_le. lia.
Qed.

Lemma digit_char_not_T k : 0 <= k <= 9 -> Ascii.eqb (digit_char k) "T" = false.
Proof.
  intros Hk.
  assert (H : Forall (fun k => Ascii.eqb (digit_char k) "T" = false)
                (py_range 0 10)) by (repeat constructor).
  rewrite Forall_forall in H. apply H, in_py_range. lia.
Qed.

Lemma contains_char_list c l :
  contains_char c (string_of_list_ascii l)
  = existsb (fun c' => Ascii.eqb c' c) l.
Proof. induction l as [|a l IH]; cbn; [reflexivity | now rewrite IH]. Qed.

Lemma digits_fixed_not_T : forall w n acc,
  existsb (fun c => Ascii.eqb c "T") acc = false ->
  existsb (fun c => Ascii.eqb c "T") (digits_fixed w n acc) = false.
Proof.
  induction w as [|w IH]; intros n acc H; cbn [digits_fixed]; [assumption|].
  apply IH. cbn [existsb]. rewrite digit_char_not_T, H; [reflexivity|].
  Z.div_mod_to_equations; lia.
Qed.

Lemma utc_date_parses ms :
  -30610224000000 <= ms <= 253402300799999 ->
  parse_dt_utc (utc_date ms) = Some (ms / 86400000 * 86400 * 1000000).
Proof.
  intros Hrange. unfold parse_dt_utc, utc_date.
  assert (Hz : -354285 <= ms / 86400000 <= 2932896)
    by (Z.div_mod_to_equations; lia).
  pose proof (civil_year_lower (ms / 86400000) ltac:(lia)) as Hlo.
  pose proof (civil_year_upper (ms / 86400000) ltac:(lia)) as Hhi.
  pose proof (civil_month_day (ms / 86400000)) as Hmd.
  pose proof (make_datetime_civil (ms / 86400000)) as Hmk.
  destruct (civil_from_days (ms / 86400000)) as [[y m] d].
  cbn [fst snd] in *.
  rewrite contains_char_list.
  replace (existsb _ _) with false.
  - unfold strptime_date, first_full_match.
    rewrite list_ascii_of_string_of_list_ascii.
    destruct (re_date_rendered y m d [] ltac:(lia) ltac:(lia) ltac:(lia))
      as [tl Htl].
    rewrite app_nil_r in Htl. rewrite Htl.
    now apply Hmk.
  - symmetry. rewrite existsb_app, digits_fixed_not_T by reflexivity.
    cbn [orb existsb]. change (Ascii.eqb "-" "T") with false. cbn [orb].
    unfold two_digits.
    rewrite existsb_app, digits_fixed_not_T by reflexivity.
    cbn [orb existsb]. change (Ascii.eqb "-" "T") with false. cbn [orb].
    now rewrite digits_fixed_not_T by reflexivity.
Qed.

(** X14: the date part of the text that [ms_to_utc_iso] gives for a whole
    second is accepted by [parse_dt_utc] and parses to the midnight that
    begins the UTC day of that second: in milliseconds,
    [ms - ms mod 86400000]. *)
Theorem day_round_trip ms :
  ms mod 1000 = 0 ->
  -30610224000000 <= ms <= 253402300799999 ->
  exists iso,
    ms_to_utc_iso ms = Some iso
    /\ obind (parse_dt_utc (substring 0 10 iso)) to_ms
       = Some (ms - ms mod 86400000).
Proof.
  intros Hmod Hrange.
  pose proof (day_of_whole_second
                {| open_time_ms := ms; open := zero; high := zero;
                   low := zero; close := zero; volume := zero;
                   close_time_ms := ms; quote_volume := zero; trades := 0;
                   taker_buy_base_volume := zero;
                   taker_buy_quote_volume := zero |} Hmod Hrange) as Hday.
  unfold day_of in Hday. cbn [open_time_ms] in Hday.
  destruct (ms_to_utc_iso ms) as [iso|]; [|discriminate].
  cbn [option_map] in Hday. injection Hday as Hday.
  exists iso. split; [reflexivity|].
  rewrite Hday, utc_date_parses by assumption. cbn [obind].
  rewrite to_ms_whole_second.
  - f_equal. Z.div_mod_to_equations; lia.
  - change (2 ^ 53) with 9007199254740992. Z.div_mod_to_equations; lia.
Qed.

Lemma day_round_trip_witness :
  exists iso,
    ms_to_utc_iso 1718452800000 = Some iso
    /\ obind (parse_dt_utc (substring 0 10 iso)) to_ms
       = Some (1718452800000 - 1718452800000 mod 86400000).
Proof.
  apply (day_round_trip 1718452800000); [reflexivity | lia].
Defined.

Lemma fromtimestamp_in_range t d :
  fromtimestamp t = Some d -> in_range d = true.
Proof.
  unfold fromtimestamp. intros H.
  destruct (to_int t) as [intpart|]; [|discriminate].
  destruct (round_half_even _) as [us|]; [|discriminate].
  destruct (if us_per_second <=? us
            then (intpart + 1, us - us_per_second)
            else if us <? 0 then (intpart - 1, us + us_per_second)
            else (intpart, us)) as [sec us'].
  destruct (in_range (sec * us_per_second + us')) eqn:E; [|discriminate].
  now injection H as <-.
Qed.

(** X15: no text that [ms_to_utc_iso] returns is accepted by
    [parse_dt_utc]: the rendered form has a space where the parser wants a
    [T] or the end of the text. *)
Theorem ms_to_utc_iso_not_parsed ms iso :
  ms_to_utc_iso ms = Some iso -> parse_dt_utc iso = None.
Proof.
  unfold ms_to_utc_iso. intros H.
  destruct (int_truediv ms 1000) as [t|]; [|discriminate]. cbn [obind] in H.
  destruct (fromtimestamp t) as [dt|] eqn:Ed; [|discriminate].
  cbn [obind] in H. apply fromtimestamp_in_range in Ed.
  unfold in_range in Ed. apply andb_true_iff in Ed. destruct Ed as [_ Hmax].
  apply Z.leb_le in Hmax. change max_datetime with 253402300799999999 in Hmax.
  unfold strftime_iso, us_per_second in H.
  assert (Hz : dt / 1000000 / 86400 <= 2932896)
    by (Z.div_mod_to_equations; lia).
  pose proof (civil_year_upper _ Hz) as Hhi.
  pose proof (civil_month_day (dt / 1000000 / 86400)) as Hmd.
  destruct (civil_from_days (dt / 1000000 / 86400)) as [[y m] d].
  cbn [fst snd] in *.
  destruct (Z.ltb_spec y 1000) as [|Hlo]; [discriminate|].
  match type of H with
  | Some ?s = Some _ => assert (E : iso = s) by congruence
  end.
  subst iso. clear H.
  unfold parse_dt_utc. rewrite contains_char_list.
  replace (existsb _ _) with false.
  - unfold strptime_date, first_full_match.
    rewrite list_ascii_of_string_of_list_ascii.
    match goal with
    | |- context [re_date (_ ++ _ :: _ ++ _ :: _ ++ ?rest)] =>
        destruct (re_date_rendered y m d rest ltac:(lia) ltac:(lia)
                    ltac:(lia)) as [tl Htl]
    end.
    rewrite Htl. reflexivity.
  - symmetry. unfold two_digits.
    repeat (rewrite existsb_app, digits_fixed_not_T by reflexivity;
            cbn [orb existsb];
            match goal with
            | |- context [Ascii.eqb ?c "T"] =>
                change (Ascii.eqb c "T") with false
            end; cbn [orb]).
    now rewrite digits_fixed_not_T by reflexivity.
Qed.

Lemma ms_to_utc_iso_not_parsed_witness :
  parse_dt_utc "2024-06-15 12:00:00" = None.
Proof.
  apply (ms_to_utc_iso_not_parsed 1718452800000). vm_compute. reflexivity.
Defined.

(** ** The scenarios of the repository's tests

    The tests of [tests/test_exporter.py] that apply to this version of the
    code, replayed on the embedding. *)

Example test_epoch_zero : ms_to_utc_iso 0 = Some "1970-01-01 00:00:00"%string.
Proof. vm_compute. reflexivity. Qed.

Example test_known_timestamp :
  ms_to_utc_iso 1704067200000 = Some "2024-01-01 00:00:00"%string.
Proof. vm_compute. reflexivity. Qed.

Example test_with_time_component :
  ms_to_utc_iso 1718452800000 = Some "2024-06-15 12:00:00"%string.
Proof. vm_compute. reflexivity. Qed.

Example test_explicit_start_end :
  get_range 0 180 (Some "2024-01-01"%string) (Some "2024-07-01"%string)
  = Some (1704067200000, 1719792000000).
Proof. vm_compute. reflexivity. Qed.

Example test_success_first_try :
  _request_with_retry two_rows "u" some_params 10 3 world0
  = (Ok [hour_row 0; hour_row 3600000], {| calls := 1; sleeps := [] |}).
Proof. reflexivity. Qed.

Example test_retries_on_connection_error :
  _request_with_retry fail_then_ok "u" some_params 10 3 world0
  = (Ok [hour_row 0], {| calls := 2; sleeps := [IntSeconds 2] |}).
Proof. reflexivity. Qed.

Example test_raises_after_max_retries :
  _request_with_retry always_down "u" some_params 10 2 world0
  = (Raise ConnectionError, {| calls := 2; sleeps := [IntSeconds 2] |}).
Proof. reflexivity. Qed.

Example test_retries_on_429 :
  _request_with_retry limited_then_ok "u" some_params 10 3 world0
  = (Ok [hour_row 0], {| calls := 2; sleeps := [IntSeconds 2] |}).
Proof. reflexivity. Qed.

Example test_single_page :
  fetch_klines two_rows "BTCUSDT" "1h" 0 7200000 10 1 world0
  = Some (Ok [hour_kline 0; hour_kline 3600000],
          {| calls := 1; sleeps := [] |}).
Proof. vm_compute. reflexivity. Qed.

Example test_deduplication :
  fetch_klines same_row_twice "BTCUSDT" "1h" 0 3600000 10 1 world0
  = Some (Ok [hour_kline 0], {| calls := 1; sleeps := [] |}).
Proof. vm_compute. reflexivity. Qed.

Example test_filters_beyond_end_ms :
  fetch_klines row_beyond_end "BTCUSDT" "1h" 0 3600000 10 1 world0
  = Some (Ok [hour_kline 0], {| calls := 1; sleeps := [] |}).
Proof. vm_compute. reflexivity. Qed.

Example test_flat_price_zero_change :
  exists avg_b avg_q,
    calc_metrics sum_left "FLAT"%string flat_series
    = Some (0%float, 0%float, avg_b, avg_q).
Proof. do 2 eexists. vm_compute. reflexivity. Qed.

(** What the empty list of an exhausted 429 loop does to [fetch_klines]:
    it is read as the end of the data, and the fetch returns the empty
    series. *)
Example fetch_klines_rate_limited :
  fetch_klines always_429 "BTCUSDT" "1h" 0 3600000 10 1 world0
  = Some (Ok [], {| calls := 3;
                    sleeps := [IntSeconds 8; IntSeconds 4; IntSeconds 2] |}).
Proof. vm_compute. reflexivity. Qed.
